(** * add_data_to_tables.py: field coercion, batching and table loading

    A shallow embedding of the CSV-to-Postgres loader and the properties its
    specification states about it.

    Conventions of the model.
    - A Python [str] is a [string]; a character is a code point below 256
      (the Latin-1 range), so the whitespace and digit classes below are the
      restrictions of Python's Unicode classes to that range.
    - A cell of a frame read with [dtype=str] is a string or the missing
      marker NaN.
    - A call that may raise returns an [outcome]; [try_except] is
      [try: ... except Exception: ...]. *)

From Stdlib Require Import ZArith NArith List String Ascii Bool Lia.
From Stdlib Require Import DecimalString DecimalPos QArith Qpower.
Import ListNotations.

Local Open Scope string_scope.
Local Open Scope Z_scope.

(* ------------------------------------------------------------------------- *)
(** ** Exceptions and outcomes *)

(** The exceptions (all subclasses of Python's [Exception]) that occur. *)
Inductive exn : Type :=
| ValueError (msg : string)
| KeyError (key : string)
| InvalidOperation            (* decimal.InvalidOperation *)
| PandasError (msg : string)  (* anything raised inside pandas *)
| DatabaseError (msg : string) (* psycopg2.Error and its subclasses *).

(** How a call without effects ends: it returns or raises an [Exception]. *)
Inductive outcome (A : Type) : Type :=
| Ret (a : A)
| Raise (e : exn).
Arguments Ret {A} a.
Arguments Raise {A} e.

Definition obind {A B} (m : outcome A) (k : A -> outcome B) : outcome B :=
  match m with
  | Ret a => k a
  | Raise e => Raise e
  end.

(** [try: body / except Exception: handler]. *)
Definition try_except {A} (body : outcome A) (handler : exn -> outcome A)
  : outcome A :=
  match body with
  | Ret a => Ret a
  | Raise e => handler e
  end.

Declare Scope outcome_scope.
Delimit Scope outcome_scope with outcome.
Notation "x <- m ;; k" := (obind m (fun x => k))
  (at level 100, m at next level, right associativity) : outcome_scope.

(* ------------------------------------------------------------------------- *)
(** ** Strings: [str.strip], [str.replace] *)

Definition code (c : ascii) : N := N_of_ascii c.

(** [str.isspace] on one character. *)
Definition isspace (c : ascii) : bool :=
  let n := code c in
  ((9 <=? n) && (n <=? 13) || (28 <=? n) && (n <=? 32)
   || (n =? 133) || (n =? 160))%N.

Definition isdigit (c : ascii) : bool :=
  let n := code c in ((48 <=? n) && (n <=? 57))%N.

Definition digit_value (c : ascii) : Z := Z.of_N (code c) - 48.

Fixpoint lstrip (s : string) : string :=
  match s with
  | EmptyString => EmptyString
  | String c t => if isspace c then lstrip t else s
  end.

Fixpoint rstrip (s : string) : string :=
  match s with
  | EmptyString => EmptyString
  | String c t =>
      match rstrip t with
      | EmptyString => if isspace c then EmptyString else String c EmptyString
      | t' => String c t'
      end
  end.

(** [s.strip()]. *)
Definition strip (s : string) : string := rstrip (lstrip s).

(** A string of whitespace only (the empty string included). *)
Fixpoint all_space (s : string) : bool :=
  match s with
  | EmptyString => true
  | String c t => isspace c && all_space t
  end.

(** A string without any whitespace character. *)
Fixpoint no_space (s : string) : bool :=
  match s with
  | EmptyString => true
  | String c t => negb (isspace c) && no_space t
  end.

(** [s.replace(ch, EmptyString)] for a one-character pattern. *)
Fixpoint remove_char (ch : ascii) (s : string) : string :=
  match s with
  | EmptyString => EmptyString
  | String c t =>
      if Ascii.eqb c ch then remove_char ch t else String c (remove_char ch t)
  end.

Definition is_empty (s : string) : bool :=
  match s with EmptyString => true | _ => false end.

Definition lower (c : ascii) : ascii :=
  let n := code c in
  if ((65 <=? n) && (n <=? 90))%N then ascii_of_N (n + 32) else c.

Fixpoint lowercase (s : string) : string :=
  match s with
  | EmptyString => EmptyString
  | String c t => String (lower c) (lowercase t)
  end.

(** Longest prefix of digits, and the rest. *)
Fixpoint span_digits (s : string) : string * string :=
  match s with
  | EmptyString => (EmptyString, EmptyString)
  | String c t =>
      if isdigit c
      then let '(d, r) := span_digits t in (String c d, r)
      else (EmptyString, s)
  end.

Fixpoint all_digits (s : string) : bool :=
  match s with
  | EmptyString => true
  | String c t => isdigit c && all_digits t
  end.

(** Value of a digit string, read left to right from [acc]. *)
Fixpoint digits_value (s : string) (acc : Z) : Z :=
  match s with
  | EmptyString => acc
  | String c t => digits_value t (10 * acc + digit_value c)
  end.

(* ------------------------------------------------------------------------- *)
(** ** The built-in [int(str)] *)

(** The body of an integer literal: digits, single underscores allowed
    between digits only.  [prev_us] records that the previous character was
    an underscore (or that nothing was read yet); the result is the value and
    the number of digits. *)
Fixpoint scan_int (s : string) (prev_us : bool) (acc : Z) (nd : N)
  : option (Z * N) :=
  match s with
  | EmptyString => if prev_us then None else Some (acc, nd)
  | String c t =>
      if isdigit c then scan_int t false (10 * acc + digit_value c) (nd + 1)
      else if Ascii.eqb c "_" then
        if prev_us then None else scan_int t true acc nd
      else None
  end.

(** The whitespace that [int] skips before and after a literal.  The
    parser skips the characters of C's [isspace] (code points 9 to 13 and
    32) after the blanks above the ASCII range (133 and 160 below 256) have
    been turned into spaces.  The separators 28 to 31, which [str.strip]
    removes, are not among them: [int] rejects a literal with one of them
    in front or behind. *)
Definition int_space (c : ascii) : bool :=
  let n := code c in
  ((9 <=? n) && (n <=? 13) || (n =? 32) || (n =? 133) || (n =? 160))%N.

Fixpoint skip_leading (s : string) : string :=
  match s with
  | EmptyString => EmptyString
  | String c t => if int_space c then skip_leading t else s
  end.

Fixpoint skip_trailing (s : string) : string :=
  match s with
  | EmptyString => EmptyString
  | String c t =>
      match skip_trailing t with
      | EmptyString => if int_space c then EmptyString else String c EmptyString
      | t' => String c t'
      end
  end.

(** A string of [int]'s whitespace only (the empty string included). *)
Fixpoint all_int_space (s : string) : bool :=
  match s with
  | EmptyString => true
  | String c t => int_space c && all_int_space t
  end.

(** An optional sign in front: whether it is a minus, and the rest. *)
Definition split_sign (t : string) : bool * string :=
  match t with
  | String "-" r => (true, r)
  | String "+" r => (false, r)
  | _ => (false, t)
  end.

Definition invalid_literal : exn :=
  ValueError "invalid literal for int() with base 10".

Section Interpreter.

(** [sys.get_int_max_str_digits()]: 4300 by default, 0 switches the limit
    off.  The interpreter applies it to literals of more than 640 digits. *)
Variable int_max_str_digits : N.

Definition exceeds_max_str_digits (nd : N) : bool :=
  ((640 <? nd) && (0 <? int_max_str_digits) && (int_max_str_digits <? nd))%N.

(** [int(s)] for a string, in base 10: surrounding whitespace (of [int]'s
    own class), an optional sign, the literal body; [ValueError] for
    anything else and for a literal longer than the limit. *)
Definition py_int (s : string) : outcome Z :=
  let '(neg, body) := split_sign (skip_trailing (skip_leading s)) in
  match scan_int body true 0 0 with
  | None => Raise invalid_literal
  | Some (v, nd) =>
      if exceeds_max_str_digits nd
      then Raise (ValueError "Exceeds the limit for integer string conversion")
      else Ret (if neg then - v else v)
  end.

End Interpreter.

(* ------------------------------------------------------------------------- *)
(** ** [decimal.Decimal(str)] *)

(** A [Decimal] object: sign, integer coefficient and exponent (the number is
    [(-1)^sign * coeff * 10^exp], held exactly), or a special value. *)
Inductive Decimal : Type :=
| DFinite (sign : bool) (coeff : Z) (exp : Z)
| DInfinity (sign : bool)
| DNaN (sign : bool) (signaling : bool) (payload : Z).

(** The number that a [Decimal] holds, as a rational; none for the special
    values. *)
Definition decimal_value (d : Decimal) : option Q :=
  match d with
  | DFinite sign coeff exp =>
      Some (inject_Z (if sign then - coeff else coeff) * Qpower (10 # 1) exp)%Q
  | _ => None
  end.

(** Drop [n] characters. *)
Fixpoint drop (n : nat) (s : string) : string :=
  match n, s with
  | O, _ => s
  | S n', String _ t => drop n' t
  | S _, EmptyString => EmptyString
  end.

(** The exponent part of a numeric string: empty, or [E], an optional sign
    and at least one digit, up to the end of the string. *)
Definition parse_exponent (s : string) : option Z :=
  match s with
  | EmptyString => Some 0
  | String c r =>
      if Ascii.eqb (lower c) "e" then
        let '(neg, ds) := split_sign r in
        if negb (is_empty ds) && all_digits ds
        then Some (if neg then - digits_value ds 0 else digits_value ds 0)
        else None
      else None
  end.

(** The bounds of the C implementation of the module on a 64-bit
    platform: [decimal.MAX_EMAX] and [decimal.MIN_ETINY]. *)
Definition MAX_EMAX : Z := 999999999999999999.
Definition MIN_ETINY : Z := -1999999999999999997.

Fixpoint drop_zeros (s : string) : string :=
  match s with
  | String "0" t => drop_zeros t
  | _ => s
  end.

(** The number of digits of the coefficient written [ds]: leading zeros do
    not count, and the coefficient 0 has one digit. *)
Definition coeff_digits (ds : string) : Z :=
  Z.max 1 (Z.of_nat (String.length (drop_zeros ds))).

(** The constructor is exact, so it takes a number only when no rounding or
    clamping is needed in the widest context: the exponent is at least
    [MIN_ETINY] and the adjusted exponent (that of the first digit) at
    most [MAX_EMAX]. *)
Definition in_range (ds : string) (exp : Z) : bool :=
  (MIN_ETINY <=? exp) && (exp + coeff_digits ds - 1 <=? MAX_EMAX).

(** A number: integer part, optional fraction, optional exponent, with at
    least one digit in the integer and fraction parts together.  Where an
    exponent part is written, the number must be within the bounds; a
    numeral without exponent part is outside them only with more than
    10^18 digits, more than a string in memory holds, and is taken as it
    is. *)
Definition parse_number (sign : bool) (s : string) : option Decimal :=
  let '(ip, r1) := span_digits s in
  let '(fp, r2) :=
    match r1 with
    | String "." r => span_digits r
    | _ => (EmptyString, r1)
    end in
  if is_empty (ip ++ fp) then None
  else
    match parse_exponent r2 with
    | Some e =>
        let exp := e - Z.of_nat (String.length fp) in
        if is_empty r2 || in_range (ip ++ fp) exp
        then Some (DFinite sign (digits_value (ip ++ fp) 0) exp)
        else None
    | None => None
    end.

(** [Decimal(s)] for a string, by the numeric-string syntax of the
    [decimal] module: surrounding whitespace is stripped and underscores are
    dropped; then an optional sign and a number, an infinity or a NaN, letters
    in either case; [InvalidOperation] for anything else, and for a number
    outside the bounds of the implementation.  The construction is exact:
    no context precision applies. *)
Definition py_Decimal (s : string) : outcome Decimal :=
  let '(sign, r) := split_sign (remove_char "_" (strip s)) in
  let l := lowercase r in
  let parsed :=
    if String.eqb l "inf" || String.eqb l "infinity" then Some (DInfinity sign)
    else if String.prefix "nan" l then
      let diag := drop 3 r in
      if all_digits diag then Some (DNaN sign false (digits_value diag 0))
      else None
    else if String.prefix "snan" l then
      let diag := drop 4 r in
      if all_digits diag then Some (DNaN sign true (digits_value diag 0))
      else None
    else parse_number sign r in
  match parsed with
  | Some d => Ret d
  | None => Raise InvalidOperation
  end.

(* ------------------------------------------------------------------------- *)
(** ** Cells and coerced values *)

(** A cell of a frame read with [dtype=str]. *)
Inductive cell : Type :=
| NaN
| Str (s : string).

Definition pd_isna (v : cell) : bool :=
  match v with NaN => true | Str _ => false end.

(** [str(val)]. *)
Definition py_str (v : cell) : string :=
  match v with NaN => "nan" | Str s => s end.

Record date : Type := mkdate { year : Z; month : Z; day : Z }.

(** A pandas [Timestamp]: a calendar date and the time of day. *)
Record Timestamp : Type := mkTimestamp { ts_date : date; ts_nanos : N }.

(** What [pd.to_datetime(..., errors="coerce")] returns for a scalar. *)
Inductive datetime : Type :=
| NaT
| Stamp (t : Timestamp).

(** The values a coercer returns. *)
Inductive value : Type :=
| VNone
| VInt (z : Z)
| VStr (s : string)
| VDecimal (d : Decimal)
| VDate (d : date).

(* ------------------------------------------------------------------------- *)
(** ** The four coercers *)

Local Open Scope outcome_scope.

Section Coercers.

Variable int_max_str_digits : N.

(** [pd.to_datetime(val, infer_datetime_format=True, errors="coerce")]:
    pandas' date inference is taken as given; it may return a timestamp,
    NaT, or raise. *)
Variable pd_to_datetime : cell -> outcome datetime.

Definition blank (val : cell) : bool :=
  pd_isna val || is_empty (strip (py_str val)).

Definition to_int (val : cell) : outcome value :=
  try_except
    (if blank val then Ret VNone
     else n <- py_int int_max_str_digits (strip (py_str val)) ;; Ret (VInt n))
    (fun _ => Ret VNone).

Definition to_text (val : cell) : outcome value :=
  if pd_isna val then Ret (VStr EmptyString)
  else Ret (VStr (strip (py_str val))).

Definition to_numeric (val : cell) : outcome value :=
  try_except
    (if blank val then Ret VNone
     else d <- py_Decimal (strip (remove_char "," (py_str val))) ;;
          Ret (VDecimal d))
    (fun _ => Ret VNone).

Definition to_date (val : cell) : outcome value :=
  try_except
    (if blank val then Ret VNone
     else dt <- pd_to_datetime val ;;
          (* None if pd.isna(dt) else dt.date() *)
          Ret (match dt with
               | NaT => VNone
               | Stamp t => VDate (ts_date t)
               end))
    (fun _ => Ret VNone).

End Coercers.

(* ------------------------------------------------------------------------- *)
(** ** [range], slices and [chunk_iter] *)

(** Number of elements of [range(start, stop, step)], [step] not zero. *)
Definition range_length (start stop step : Z) : Z :=
  if 0 <? step then
    if start <? stop then (stop - start - 1) / step + 1 else 0
  else
    if stop <? start then (start - stop - 1) / (- step) + 1 else 0.

Definition py_range (start stop step : Z) : outcome (list Z) :=
  if step =? 0 then Raise (ValueError "range() arg 3 must not be zero")
  else Ret (map (fun k => start + Z.of_nat k * step)
              (seq 0 (Z.to_nat (range_length start stop step)))).

(** A slice bound [k] on a sequence of length [len]: negative bounds count
    from the end, and every bound is clamped to the sequence. *)
Definition slice_bound (len k : Z) : Z :=
  if k <? 0 then Z.max 0 (k + len) else Z.min k len.

(** [seq[i:j]]. *)
Definition py_slice {A} (l : list A) (i j : Z) : list A :=
  let len := Z.of_nat (List.length l) in
  let lo := slice_bound len i in
  let hi := slice_bound len j in
  firstn (Z.to_nat (hi - lo)) (skipn (Z.to_nat lo) l).

(** The chunks that the generator [chunk_iter(seq, size)] yields, in order;
    the generator has no effect of its own, and the error of [range] comes
    when the first chunk is asked for. *)
Definition chunk_iter {A} (seq : list A) (size : Z) : outcome (list (list A)) :=
  starts <- py_range 0 (Z.of_nat (List.length seq)) size ;;
  Ret (map (fun i => py_slice seq i (i + size)) starts).

(* ------------------------------------------------------------------------- *)
(** ** Frames *)

(** A [DataFrame] read with [dtype=str]: the header and the records in file
    order, each record holding its cells in header order.  A frame is
    rectangular: a record shorter than the header reads as NaN in the columns
    it lacks, which is how [read_csv] fills short lines. *)
Record DataFrame : Type := mkDataFrame {
  columns : list string;
  records : list (list cell)
}.

(** [name in df.columns]. *)
Definition has_column (cols : list string) (name : string) : bool :=
  existsb (String.eqb name) cols.

Fixpoint index_of (name : string) (cols : list string) : option nat :=
  match cols with
  | [] => None
  | c :: cs =>
      if String.eqb name c then Some O
      else option_map S (index_of name cs)
  end.

(** [r[name]] for a record [r] of a frame with header [cols]. *)
Definition getitem (cols : list string) (r : list cell) (name : string)
  : outcome cell :=
  match index_of name cols with
  | Some i => Ret (nth i r NaN)
  | None => Raise (KeyError name)
  end.

(** A tuple display [(e1, e2, ...)]: the elements are evaluated from left to
    right. *)
Fixpoint tuple {A} (es : list (outcome A)) : outcome (list A) :=
  match es with
  | [] => Ret []
  | e :: es' => x <- e ;; xs <- tuple es' ;; Ret (x :: xs)
  end.

(** [rows = []; for r in rs: rows.append(f(r))]. *)
Fixpoint collect {A B} (f : A -> outcome B) (rs : list A) : outcome (list B) :=
  match rs with
  | [] => Ret []
  | r :: rs' => x <- f r ;; xs <- collect f rs' ;; Ret (x :: xs)
  end.

(** [repr] of a string without quotes, backslashes or control characters
    (all column names of this program are such), and of a list of them. *)
Definition py_repr (s : string) : string := "'" ++ s ++ "'".

Fixpoint join (sep : string) (l : list string) : string :=
  match l with
  | [] => EmptyString
  | [x] => x
  | x :: t => x ++ sep ++ join sep t
  end.

Definition py_repr_list (l : list string) : string :=
  "[" ++ join ", " (map py_repr l) ++ "]".

Definition nl : string := String (ascii_of_nat 10) EmptyString.

(** [str(n)] for a length. *)
Definition str_of_nat (n : nat) : string :=
  NilZero.string_of_uint (Nat.to_uint n).

(** [str(e)]. *)
Definition exn_str (e : exn) : string :=
  match e with
  | ValueError msg => msg
  | KeyError key => py_repr key
  | InvalidOperation => "[<class 'decimal.ConversionSyntax'>]"
  | PandasError msg => msg
  | DatabaseError msg => msg
  end.

(* ------------------------------------------------------------------------- *)
(** ** The world: standard output, the file system and the database *)

Definition row : Type := list value.

(** [INSERT INTO table (columns) VALUES %s]. *)
Record insert : Type := mkinsert {
  into_table : string;
  into_columns : list string
}.

(** The connection parameters [DB_PARAMS]. *)
Record db_params : Type := mkdb_params {
  host : string;
  port : string;
  user : string;
  password : string;
  dbname : string
}.

(** What the process does to the outside, in order.  A database call is
    recorded when it is issued, whether it then succeeds or raises.
    [ExecuteValues sql argslist] is one call of
    [execute_values(cur, sql, argslist)]; the library sends the rows of a
    call in pages (of 100 rows unless told otherwise), an INSERT statement
    per page. *)
Inductive event : Type :=
| Print (line : string)
| ReadCsv (path : string)
| Connect (params : db_params)
| Cursor
| ExecuteValues (sql : insert) (argslist : list row)
| Commit
| Rollback
| CursorClose
| Close.

(** The environment of one run: which paths exist, what [pd.read_csv] gives
    for a path, and which database calls raise (given the calls so far). *)
Record World : Type := mkWorld {
  path_exists : string -> bool;
  read_csv : string -> outcome DataFrame;
  db_fault : list event -> event -> option string
}.

Inductive pyconn : Type := Connection.

(** The state threaded through a run: the events so far and the local
    variable [conn] of [main]. *)
Record state : Type := mkstate {
  trace : list event;
  conn_var : option pyconn
}.

(** How a statement ends: normally, with an [Exception], or with
    [SystemExit] (which [except Exception] does not catch). *)
Inductive result (A : Type) : Type :=
| Done (a : A)
| Failed (e : exn)
| Exited (status : Z).
Arguments Done {A} a.
Arguments Failed {A} e.
Arguments Exited {A} status.

Definition IO (A : Type) : Type := state -> result A * state.

Definition io_ret {A} (a : A) : IO A := fun st => (Done a, st).

Definition io_bind {A B} (m : IO A) (k : A -> IO B) : IO B :=
  fun st =>
    match m st with
    | (Done a, st') => k a st'
    | (Failed e, st') => (Failed e, st')
    | (Exited c, st') => (Exited c, st')
    end.

Declare Scope io_scope.
Delimit Scope io_scope with io.
Notation "x <- m ;; k" := (io_bind m (fun x => k))
  (at level 100, m at next level, right associativity) : io_scope.
Notation "m ;; k" := (io_bind m (fun _ => k))
  (at level 100, right associativity) : io_scope.

(** A computation without effects, run as a statement. *)
Definition lift {A} (o : outcome A) : IO A :=
  fun st =>
    match o with
    | Ret a => (Done a, st)
    | Raise e => (Failed e, st)
    end.

Definition raise {A} (e : exn) : IO A := fun st => (Failed e, st).

(** [sys.exit(status)]. *)
Definition sys_exit {A} (status : Z) : IO A := fun st => (Exited status, st).

Definition emit (e : event) : IO unit :=
  fun st => (Done tt, mkstate (trace st ++ [e])%list (conn_var st)).

Definition print (line : string) : IO unit := emit (Print line).

Definition set_conn (c : option pyconn) : IO unit :=
  fun st => (Done tt, mkstate (trace st) c).

Definition get_conn : IO (option pyconn) :=
  fun st => (Done (conn_var st), st).

(** [try: body / except Exception as e: handler]. *)
Definition io_try_except {A} (body : IO A) (handler : exn -> IO A) : IO A :=
  fun st =>
    match body st with
    | (Failed e, st') => handler e st'
    | r => r
    end.

(** [try: body / finally: cleanup]: the cleanup always runs; when it raises,
    its exception replaces the outcome of the body. *)
Definition io_finally {A} (body : IO A) (cleanup : IO unit) : IO A :=
  fun st =>
    let '(o, st1) := body st in
    match cleanup st1 with
    | (Done _, st2) => (o, st2)
    | (Failed e, st2) => (Failed e, st2)
    | (Exited c, st2) => (Exited c, st2)
    end.

(** [for x in xs: body(x)]. *)
Fixpoint for_each {A} (xs : list A) (body : A -> IO unit) : IO unit :=
  match xs with
  | [] => io_ret tt
  | x :: xs' => io_bind (body x) (fun _ => for_each xs' body)
  end.

(* ------------------------------------------------------------------------- *)
(** ** The table loaders and [main] *)

Local Open Scope io_scope.

(** [f(e)]: the argument is evaluated, then the call. *)
Definition call {A B} (f : A -> outcome B) (e : outcome A) : outcome B :=
  obind e f.

(** The three destination tables. *)
Inductive table : Type :=
| GdprText
| GdprViolationsDerived
| GdprDataset.

Definition table_name (T : table) : string :=
  match T with
  | GdprText => "gdpr_text"
  | GdprViolationsDerived => "gdpr_violations_derived"
  | GdprDataset => "GDPR_dataset"
  end.

Section Loader.

Variable int_max_str_digits : N.
Variable pd_to_datetime : cell -> outcome datetime.

(** The configuration read from the process environment. *)
Variable DB_PARAMS : db_params.
Variable CSV_GDPR_TEXT CSV_GDPR_VIOLATIONS CSV_GDPR_DATASET : string.
Variable BATCH_SIZE : Z.

Variable w : World.

Local Abbreviation to_int := (to_int int_max_str_digits).
Local Abbreviation to_date := (to_date pd_to_datetime).

(** A call on the database connection or cursor. *)
Definition db_call (op : event) : IO unit :=
  fun st =>
    let st' := mkstate (trace st ++ [op])%list (conn_var st) in
    match db_fault w (trace st) op with
    | Some msg => (Failed (DatabaseError msg), st')
    | None => (Done tt, st')
    end.

(** [pd.read_csv(csv_path, dtype=str)]. *)
Definition pd_read_csv (csv_path : string) : IO DataFrame :=
  emit (ReadCsv csv_path) ;; lift (read_csv w csv_path).

(** [missing = [c for c in required if c not in df.columns]]. *)
Definition missing_columns (required : list string) (df : DataFrame)
  : list string :=
  filter (fun c => negb (has_column (columns df) c)) required.

Definition missing_error (table : string) (missing : list string) : exn :=
  ValueError (table ++ ": missing columns in CSV: " ++ py_repr_list missing).

(** [with conn.cursor() as cur: body]: the cursor is closed on the way
    out, also when the body raises. *)
Definition with_cursor (body : IO unit) : IO unit :=
  db_call Cursor ;; io_finally body (db_call CursorClose).

(** The insertion block shared by the three loaders:
    [for chunk in chunk_iter(rows, BATCH_SIZE): execute_values(cur, sql, chunk)]
    and then [conn.commit()]. *)
Definition insert_rows (sql : insert) (rows : list row) : IO unit :=
  with_cursor
    (chunks <- lift (chunk_iter rows BATCH_SIZE) ;;
     for_each chunks (fun chunk => db_call (ExecuteValues sql chunk)) ;;
     db_call Commit).

(* --- gdpr_text --- *)

Definition gdpr_text_required : list string :=
  ["chapter"; "chapter_title"; "article"; "article_title"; "sub_article";
   "gdpr_text"; "href"].

Definition gdpr_text_row (cols : list string) (r : list cell) : outcome row :=
  let r_ := getitem cols r in
  tuple [
    call to_int (r_ "chapter");
    call to_text (r_ "chapter_title");
    call to_int (r_ "article");
    call to_text (r_ "article_title");
    call to_text (r_ "sub_article");
    call to_text (r_ "gdpr_text");
    call to_text (r_ "href")
  ].

Definition gdpr_text_sql : insert :=
  mkinsert "gdpr_text"
    ["chapter"; "chapter_title"; "article"; "article_title"; "sub_article";
     "gdpr_text"; "href"].

Definition load_gdpr_text (conn : pyconn) (csv_path : string) : IO unit :=
  print (nl ++ "[gdpr_text] Reading: " ++ csv_path) ;;
  df <- pd_read_csv csv_path ;;
  let missing := missing_columns gdpr_text_required df in
  if negb (Nat.eqb (List.length missing) 0)
  then raise (missing_error "gdpr_text" missing)
  else
    rows <- lift (collect (gdpr_text_row (columns df)) (records df)) ;;
    print ("[gdpr_text] Rows prepared: " ++ str_of_nat (List.length rows)) ;;
    insert_rows gdpr_text_sql rows ;;
    print "[gdpr_text] Insert complete.".

(* --- gdpr_violations_derived --- *)

Definition gdpr_violations_required : list string :=
  ["id"; "picture"; "name"; "price"; "authority"; "date"; "controller";
   "article_violated"; "type"; "source"; "summary"; "Article_no_der";
   "Sub_article_no_der"].

Definition gdpr_violations_row (cols : list string) (r : list cell)
  : outcome row :=
  let r_ := getitem cols r in
  tuple [
    call to_int (r_ "id");
    call to_text (r_ "picture");
    call to_text (r_ "name");
    call to_numeric (r_ "price");
    call to_text (r_ "authority");
    call to_date (r_ "date");
    call to_text (r_ "controller");
    call to_text (r_ "article_violated");
    call to_text (r_ "type");
    call to_text (r_ "source");
    call to_text (r_ "summary");
    call to_int (r_ "Article_no_der");
    call to_text (r_ "Sub_article_no_der")
  ].

Definition gdpr_violations_sql : insert :=
  mkinsert "gdpr_violations_derived"
    ["id"; "picture_path"; "country_name"; "fine_price"; "authority"; "date";
     "controller"; "article_violated"; "type"; "source"; "summary";
     "article_no_der"; "sub_article_no_der"].

Definition load_gdpr_violations_derived (conn : pyconn) (csv_path : string)
  : IO unit :=
  print (nl ++ "[gdpr_violations_derived] Reading: " ++ csv_path) ;;
  df <- pd_read_csv csv_path ;;
  let missing := missing_columns gdpr_violations_required df in
  if negb (Nat.eqb (List.length missing) 0)
  then raise (missing_error "gdpr_violations_derived" missing)
  else
    rows <- lift (collect (gdpr_violations_row (columns df)) (records df)) ;;
    print ("[gdpr_violations_derived] Rows prepared: "
           ++ str_of_nat (List.length rows)) ;;
    insert_rows gdpr_violations_sql rows ;;
    print "[gdpr_violations_derived] Insert complete.".

(* --- GDPR_dataset --- *)

Definition csv_headers : list string :=
  ["Content"; "Article Number"; "Article Name"; "Chapter Number";
   "Chapter Name"; "Article Word Count"; "Question"; "Answer";
   "Question Word Count"; "Answer Word Count"].

Definition gdpr_dataset_row (cols : list string) (r : list cell)
  : outcome row :=
  let r_ := getitem cols r in
  tuple [
    call to_text (r_ "Content");
    call to_int (r_ "Article Number");
    call to_text (r_ "Article Name");
    call to_int (r_ "Chapter Number");
    call to_text (r_ "Chapter Name");
    call to_int (r_ "Article Word Count");
    call to_text (r_ "Question");
    call to_text (r_ "Answer");
    call to_int (r_ "Question Word Count");
    call to_int (r_ "Answer Word Count")
  ].

Definition gdpr_dataset_sql : insert :=
  mkinsert "GDPR_dataset"
    ["Content"; "Article_Number"; "Article_Name"; "Chapter_Number";
     "Chapter_Name"; "Article_Word_Count"; "Question"; "Answer";
     "Question_Word_Count"; "Answer_Word_Count"].

Definition load_gdpr_dataset (conn : pyconn) (csv_path : string) : IO unit :=
  print (nl ++ "[GDPR_dataset] Reading: " ++ csv_path) ;;
  df <- pd_read_csv csv_path ;;
  let missing := missing_columns csv_headers df in
  if negb (Nat.eqb (List.length missing) 0)
  then raise (missing_error "GDPR_dataset" missing)
  else
    rows <- lift (collect (gdpr_dataset_row (columns df)) (records df)) ;;
    print ("[GDPR_dataset] Rows prepared: " ++ str_of_nat (List.length rows)) ;;
    insert_rows gdpr_dataset_sql rows ;;
    print "[GDPR_dataset] Insert complete.".

(* --- the three loaders, by table --- *)

Definition required_fields (T : table) : list string :=
  match T with
  | GdprText => gdpr_text_required
  | GdprViolationsDerived => gdpr_violations_required
  | GdprDataset => csv_headers
  end.

Definition row_of (T : table) : list string -> list cell -> outcome row :=
  match T with
  | GdprText => gdpr_text_row
  | GdprViolationsDerived => gdpr_violations_row
  | GdprDataset => gdpr_dataset_row
  end.

Definition sql_of (T : table) : insert :=
  match T with
  | GdprText => gdpr_text_sql
  | GdprViolationsDerived => gdpr_violations_sql
  | GdprDataset => gdpr_dataset_sql
  end.

Definition load (T : table) : pyconn -> string -> IO unit :=
  match T with
  | GdprText => load_gdpr_text
  | GdprViolationsDerived => load_gdpr_violations_derived
  | GdprDataset => load_gdpr_dataset
  end.

(* --- main --- *)

(** The body of the [try] block of [main]. *)
Definition main_try : IO unit :=
  print ("Connecting to Postgres " ++ host DB_PARAMS ++ ":" ++ port DB_PARAMS
         ++ " db=" ++ dbname DB_PARAMS ++ " ...") ;;
  db_call (Connect DB_PARAMS) ;;
  set_conn (Some Connection) ;;
  print "Connected." ;;
  load_gdpr_text Connection CSV_GDPR_TEXT ;;
  load_gdpr_violations_derived Connection CSV_GDPR_VIOLATIONS ;;
  load_gdpr_dataset Connection CSV_GDPR_DATASET ;;
  print (nl ++ "All inserts completed successfully." ++ nl).

(** The [except Exception as e] block. *)
Definition main_except (e : exn) : IO unit :=
  print (nl ++ "An error occurred: " ++ exn_str e ++ nl) ;;
  conn <- get_conn ;;
  match conn with
  | Some _ => db_call Rollback
  | None => io_ret tt
  end.

(** The [finally] block. *)
Definition main_finally : IO unit :=
  conn <- get_conn ;;
  match conn with
  | Some _ => db_call Close
  | None => io_ret tt
  end ;;
  print "Connection closed.".

Definition main : IO unit :=
  for_each [CSV_GDPR_TEXT; CSV_GDPR_VIOLATIONS; CSV_GDPR_DATASET]
    (fun path =>
       if negb (path_exists w path)
       then print ("ERROR: CSV not found -> " ++ path) ;; sys_exit 1
       else io_ret tt) ;;
  set_conn None ;;
  io_finally (io_try_except main_try main_except) main_finally.

(** The exit status of the process and what it did: status 0 when [main]
    returns, the status of [sys.exit], and 1 when an exception reaches the
    top of the script. *)
Definition run : Z * list event :=
  let '(o, st) := main (mkstate [] None) in
  (match o with Done _ => 0 | Failed _ => 1 | Exited c => c end, trace st).

End Loader.

(* ------------------------------------------------------------------------- *)
(** ** Notions of the specification and sample data *)

(** The whitespace of [str.strip] and [str.isspace] among the code points
    below 256: tab, line feed, vertical tab, form feed, carriage return, the
    four separators 28 to 31, the space, next line (133) and the no-break
    space (160). *)
Definition whitespace_codes : list N :=
  [9; 10; 11; 12; 13; 28; 29; 30; 31; 32; 133; 160]%N.

Definition whitespace (c : ascii) : Prop := In (N_of_ascii c) whitespace_codes.

(** A string of whitespace only (the empty string included). *)
Definition only_whitespace (s : string) : Prop :=
  forall c, In c (list_ascii_of_string s) -> whitespace c.

(** A string that neither begins nor ends with whitespace. *)
Definition trimmed (t : string) : Prop :=
  forall c r,
    t = String c r \/ t = r ++ String c EmptyString -> ~ whitespace c.

(** A blank input: a missing cell, or a string of whitespace only. *)
Definition blank_input (v : cell) : bool :=
  match v with
  | NaN => true
  | Str s => all_space s
  end.

(** [str(z)]: the canonical decimal numeral of an integer. *)
Definition str_of_Z (z : Z) : string := NilZero.string_of_int (Z.to_int z).

(** The chunk number [j] of width [k] of a sequence: the elements at the
    positions [j * k], ..., [j * k + k - 1] that exist. *)
Definition chunk_at {A} (l : list A) (k j : nat) : list A :=
  firstn k (skipn (j * k) l).

(** [ceil(a / b)] for a positive [b]. *)
Definition ceil_div (a b : Z) : Z := (a + b - 1) / b.

(** The number that the numeral [ip.fp] denotes: the integer part plus the
    fraction digits over the power of ten of their number. *)
Definition numeral_value (ip fp : string) : Q :=
  (inject_Z (digits_value ip 0)
   + inject_Z (digits_value fp 0)
     / inject_Z (10 ^ Z.of_nat (String.length fp)))%Q.

(** The number of digits of the canonical numeral. *)
Definition num_digits (z : Z) : N :=
  N.of_nat (String.length (str_of_Z (Z.abs z))).

(** An instance of the date inference for the examples: it reads ISO dates
    [YYYY-MM-DD] and gives NaT for everything else. *)
Definition sample_to_datetime (v : cell) : outcome datetime :=
  match v with
  | NaN => Ret NaT
  | Str s =>
      let t := strip s in
      let y := substring 0 4 t in
      let m := substring 5 2 t in
      let d := substring 8 2 t in
      if (String.length t =? 10)%nat
         && String.eqb (substring 4 1 t) "-" && String.eqb (substring 7 1 t) "-"
         && all_digits y && all_digits m && all_digits d
         && (1 <=? digits_value m 0) && (digits_value m 0 <=? 12)
         && (1 <=? digits_value d 0) && (digits_value d 0 <=? 31)
      then Ret (Stamp (mkTimestamp
                         (mkdate (digits_value y 0) (digits_value m 0)
                            (digits_value d 0)) 0))
      else Ret NaT
  end.

(** The cell of the record [r] under the field [name] of the header
    [cols]: the cell at the place of the first column of this name (NaN
    where the record is shorter than the header). *)
Definition field_cell (cols : list string) (r : list cell) (name : string)
  (c : cell) : Prop :=
  exists j,
    nth_error cols j = Some name /\
    (forall j', (j' < j)%nat -> nth_error cols j' <> Some name) /\
    c = nth j r NaN.

(** [x] occurs in [s]. *)
Definition contains (x s : string) : Prop :=
  exists a b, s = a ++ x ++ b.

(** The first configured path that does not exist, if any. *)
Definition first_missing (w : World) (paths : list string) : option string :=
  find (fun p => negb (path_exists w p)) paths.

(** The declared type of a destination column. *)
Inductive column_type : Type :=
| TInt
| TText
| TDecimal
| TDate.

(** One line of a table binding: a field of the source file, the
    destination column it goes to and the type of that column. *)
Record binding : Type := mkbinding {
  source_field : string;
  dest_column : string;
  dest_type : column_type
}.

(** The three table bindings as the specification lists them: the header
    fields of the file, and the columns of the table in their order with
    their types. *)
Definition table_binding (T : table) : list binding :=
  match T with
  | GdprText =>
      [ mkbinding "chapter" "chapter" TInt;
        mkbinding "chapter_title" "chapter_title" TText;
        mkbinding "article" "article" TInt;
        mkbinding "article_title" "article_title" TText;
        mkbinding "sub_article" "sub_article" TText;
        mkbinding "gdpr_text" "gdpr_text" TText;
        mkbinding "href" "href" TText ]
  | GdprViolationsDerived =>
      [ mkbinding "id" "id" TInt;
        mkbinding "picture" "picture_path" TText;
        mkbinding "name" "country_name" TText;
        mkbinding "price" "fine_price" TDecimal;
        mkbinding "authority" "authority" TText;
        mkbinding "date" "date" TDate;
        mkbinding "controller" "controller" TText;
        mkbinding "article_violated" "article_violated" TText;
        mkbinding "type" "type" TText;
        mkbinding "source" "source" TText;
        mkbinding "summary" "summary" TText;
        mkbinding "Article_no_der" "article_no_der" TInt;
        mkbinding "Sub_article_no_der" "sub_article_no_der" TText ]
  | GdprDataset =>
      [ mkbinding "Content" "Content" TText;
        mkbinding "Article Number" "Article_Number" TInt;
        mkbinding "Article Name" "Article_Name" TText;
        mkbinding "Chapter Number" "Chapter_Number" TInt;
        mkbinding "Chapter Name" "Chapter_Name" TText;
        mkbinding "Article Word Count" "Article_Word_Count" TInt;
        mkbinding "Question" "Question" TText;
        mkbinding "Answer" "Answer" TText;
        mkbinding "Question Word Count" "Question_Word_Count" TInt;
        mkbinding "Answer Word Count" "Answer_Word_Count" TInt ]
  end.

Section Binding.

Variable int_max_str_digits : N.
Variable pd_to_datetime : cell -> outcome datetime.

(** The coercer of a column type. *)
Definition coercer (ty : column_type) : cell -> outcome value :=
  match ty with
  | TInt => to_int int_max_str_digits
  | TText => to_text
  | TDecimal => to_numeric
  | TDate => to_date pd_to_datetime
  end.

(** The row mapper of the specification: the coercer of each line of the
    binding applied to the field of the record, in the order of the
    binding. *)
Definition bound_row (bs : list binding) (cols : list string) (r : list cell)
  : outcome row :=
  tuple (map (fun b => call (coercer (dest_type b))
                         (getitem cols r (source_field b))) bs).

(** The coercion of a cell to a column type fails: the parse of the cell
    raises, or the date inference gives no date.  Text never fails. *)
Definition coercion_fails (ty : column_type) (c : cell) : Prop :=
  match ty with
  | TInt => exists e, py_int int_max_str_digits (strip (py_str c)) = Raise e
  | TText => False
  | TDecimal =>
      exists e, py_Decimal (strip (remove_char "," (py_str c))) = Raise e
  | TDate => (exists e, pd_to_datetime c = Raise e) \/ pd_to_datetime c = Ret NaT
  end.

End Binding.

(** A statement that leaves the variable [conn] alone, does not exit, and
    raises nothing but exceptions in [P]. *)
Definition behaves {A} (P : exn -> Prop) (m : IO A) : Prop :=
  forall st r st',
    m st = (r, st') ->
    conn_var st' = conn_var st /\
    match r with
    | Done _ => True
    | Failed e => P e
    | Exited _ => False
    end.

(** What the insertion block of a loader may raise: an error of the
    database, or the error of [range] for a batch size of 0. *)
Definition insert_failure (e : exn) : Prop :=
  (exists msg, e = DatabaseError msg) \/
  e = ValueError "range() arg 3 must not be zero".

(** The database calls among the events of a run. *)
Definition database_calls (tr : list event) : list event :=
  filter (fun e => match e with
                   | Print _ | ReadCsv _ => false
                   | _ => true
                   end) tr.

(* --- sample data --- *)

Definition sample_params : db_params :=
  mkdb_params "localhost" "5432" "postgres" "mypwd1" "capstone".

Definition sample_gdpr_text : DataFrame :=
  mkDataFrame
    ["chapter"; "chapter_title"; "article"; "article_title"; "sub_article";
     "gdpr_text"; "href"]
    [ [Str "1"; Str "General provisions"; Str "1"; Str " Subject-matter ";
       Str "1"; Str "This Regulation lays down rules."; Str "http://a/1"];
      [Str "1"; Str "General provisions"; Str "2"; Str "Material scope";
       NaN; Str "This Regulation applies."; Str "http://a/2"] ].

Definition violations_header : list string :=
  ["id"; "picture"; "name"; "price"; "authority"; "date"; "controller";
   "article_violated"; "type"; "source"; "summary"; "Article_no_der";
   "Sub_article_no_der"].

Definition sample_violations : DataFrame :=
  mkDataFrame violations_header
    [ [Str "1"; Str "p1.png"; Str "Poland"; Str "9,380"; Str "UODO";
       Str "not-a-date"; Str "Mayor"; Str "Art. 28 GDPR"; Str "Non-compliance";
       Str "http://s/1"; Str "No agreement."; Str "28"; NaN];
      [Str "2"; Str "p2.png"; Str "Romania"; Str "2,500.50"; Str "ANSPDCP";
       Str "2019-10-17"; Str "UTTIS"; Str "Art. 12 GDPR"; Str "Information";
       Str "http://s/2"; Str "No proof."; Str "12"; Str "1"] ].

(** File B without the [controller] column. *)
Definition violations_without_controller : DataFrame :=
  mkDataFrame
    ["id"; "picture"; "name"; "price"; "authority"; "date";
     "article_violated"; "type"; "source"; "summary"; "Article_no_der";
     "Sub_article_no_der"]
    [ [Str "1"; Str "p1.png"; Str "Poland"; Str "9,380"; Str "UODO";
       Str "2019-10-18"; Str "Art. 28 GDPR"; Str "Non-compliance";
       Str "http://s/1"; Str "No agreement."; Str "28"; NaN] ].

(** A file with the header of [GDPRdataset.csv] and no data row. *)
Definition empty_dataset : DataFrame :=
  mkDataFrame
    ["Content"; "Article Number"; "Article Name"; "Chapter Number";
     "Chapter Name"; "Article Word Count"; "Question"; "Answer";
     "Question Word Count"; "Answer Word Count"]
    [].

Definition sample_files (violations : DataFrame) (path : string)
  : outcome DataFrame :=
  if String.eqb path "gdpr_text.csv" then Ret sample_gdpr_text
  else if String.eqb path "violations.csv" then Ret violations
  else if String.eqb path "GDPRdataset.csv" then Ret empty_dataset
  else Raise (PandasError "No such file or directory").

(** All files are there and the database accepts every call. *)
Definition world_ok : World :=
  mkWorld (fun _ => true) (sample_files sample_violations) (fun _ _ => None).

(** All files are there and the server refuses the connection. *)
Definition world_refused : World :=
  mkWorld (fun _ => true) (sample_files sample_violations)
    (fun _ op => match op with
                 | Connect _ => Some "connection refused"
                 | _ => None
                 end).

(** The second file lacks a column. *)
Definition world_bad_header : World :=
  mkWorld (fun _ => true) (sample_files violations_without_controller)
    (fun _ _ => None).

(** All files are there and the server is lost at the commit. *)
Definition world_commit_fails : World :=
  mkWorld (fun _ => true) (sample_files sample_violations)
    (fun _ op => match op with
                 | Commit => Some "server closed the connection unexpectedly"
                 | _ => None
                 end).

(** The second file does not exist. *)
Definition world_missing_file : World :=
  mkWorld (fun p => negb (String.eqb p "violations.csv"))
    (sample_files sample_violations) (fun _ _ => None).

(** An environment that names the sample files and leaves the rest to the
    defaults. *)
Definition sample_environ (key : string) : option string :=
  if String.eqb key "CSV_GDPR_TEXT" then Some "gdpr_text.csv"
  else if String.eqb key "CSV_GDPR_VIOLATIONS" then Some "violations.csv"
  else if String.eqb key "CSV_GDPR_DATASET" then Some "GDPRdataset.csv"
  else None.

(** The run of [main] in a world, with the sample configuration. *)
Definition sample_run (w : World) : Z * list event :=
  run 4300 sample_to_datetime sample_params
    "gdpr_text.csv" "violations.csv" "GDPRdataset.csv" 5000 w.

(* ------------------------------------------------------------------------- *)
(** ** Further notions *)

(** A character that an integer literal may hold: a digit, an underscore or
    a sign. *)
Definition int_char (c : ascii) : bool :=
  isdigit c || Ascii.eqb c "_" || Ascii.eqb c "+" || Ascii.eqb c "-".

Fixpoint all_int_chars (s : string) : bool :=
  match s with
  | EmptyString => true
  | String c t => int_char c && all_int_chars t
  end.

(** A value fits a column type: an integer, decimal or date column takes a
    value of its type or None, a text column takes a string. *)
Definition fits (ty : column_type) (v : value) : Prop :=
  match ty, v with
  | TInt, VNone | TInt, VInt _ => True
  | TText, VStr _ => True
  | TDecimal, VNone | TDecimal, VDecimal _ => True
  | TDate, VNone | TDate, VDate _ => True
  | _, _ => False
  end.

(** The database calls of one insertion block that sends the chunks
    [chunks]: the cursor, one call of [execute_values] per chunk, the
    commit, and the close of the cursor. *)
Definition insert_block (sql : insert) (chunks : list (list row)) : list event :=
  (Cursor :: map (ExecuteValues sql) chunks ++ [Commit; CursorClose])%list.

(** The events that the loader of table [T] on the file [path] may cause:
    lines on standard output, the read of its own file, and on the database
    the cursor, statements on its own table, and the commit. *)
Definition loader_event (T : table) (path : string) (e : event) : Prop :=
  match e with
  | Print _ => True
  | ReadCsv p => p = path
  | Cursor | Commit | CursorClose => True
  | ExecuteValues sql _ => sql = sql_of T
  | Connect _ | Rollback | Close => False
  end.

(** A statement that adds to the events only events in [Q]. *)
Definition emits {A} (Q : event -> Prop) (m : IO A) : Prop :=
  forall st r st',
    m st = (r, st') ->
    exists tr, trace st' = (trace st ++ tr)%list /\ Forall Q tr.

(* --- the configuration block of the script --- *)

(** [os.getenv(key, default)] in the process environment [environ]. *)
Definition os_getenv (environ : string -> option string) (key default : string)
  : string :=
  match environ key with
  | Some v => v
  | None => default
  end.

(** The module-level settings. *)
Record settings : Type := mksettings {
  the_DB_PARAMS : db_params;
  the_CSV_GDPR_TEXT : string;
  the_CSV_GDPR_VIOLATIONS : string;
  the_CSV_GDPR_DATASET : string;
  the_BATCH_SIZE : Z
}.

Section Script.

Variable int_max_str_digits : N.
Variable pd_to_datetime : cell -> outcome datetime.
Variable environ : string -> option string.

(** The assignments at the top of the module, in their order; only
    [int(...)] for the batch size may raise. *)
Definition read_settings : outcome settings :=
  let DB_PARAMS :=
    mkdb_params (os_getenv environ "PGHOST" "localhost")
      (os_getenv environ "PGPORT" "5432")
      (os_getenv environ "PGUSER" "postgres")
      (os_getenv environ "PGPASSWORD" "mypwd1")
      (os_getenv environ "PGDATABASE" "capstone") in
  let CSV_GDPR_TEXT :=
    os_getenv environ "CSV_GDPR_TEXT" "/workspaces/AI-Capstone/gdpr_text.csv" in
  let CSV_GDPR_VIOLATIONS :=
    os_getenv environ "CSV_GDPR_VIOLATIONS"
      "/workspaces/AI-Capstone/gdpr_violations_with_derivatives_clean.csv" in
  let CSV_GDPR_DATASET :=
    os_getenv environ "CSV_GDPR_DATASET" "/workspaces/AI-Capstone/GDPRdataset.csv" in
  (BATCH_SIZE <- py_int int_max_str_digits
                   (os_getenv environ "BATCH_SIZE" "5000") ;;
   Ret (mksettings DB_PARAMS CSV_GDPR_TEXT CSV_GDPR_VIOLATIONS CSV_GDPR_DATASET
          BATCH_SIZE))%outcome.

(** The script run as a program: the settings, then [main()].  An exception
    at module level ends the process with status 1. *)
Definition script (w : World) : Z * list event :=
  match read_settings with
  | Raise _ => (1, [])
  | Ret s =>
      run int_max_str_digits pd_to_datetime (the_DB_PARAMS s)
        (the_CSV_GDPR_TEXT s) (the_CSV_GDPR_VIOLATIONS s)
        (the_CSV_GDPR_DATASET s) (the_BATCH_SIZE s) w
  end.

End Script.

(* --- further sample data --- *)

(** The first statement raises, and so does the rollback after it. *)
Definition world_broken : World :=
  mkWorld (fun _ => true) (sample_files sample_violations)
    (fun _ op => match op with
                 | ExecuteValues _ _ =>
                     Some "server closed the connection unexpectedly"
                 | Rollback => Some "connection already closed"
                 | _ => None
                 end).

(** The second statement on the violations table raises. *)
Definition world_second_table_fails : World :=
  mkWorld (fun _ => true) (sample_files sample_violations)
    (fun _ op => match op with
                 | ExecuteValues sql _ =>
                     if String.eqb (into_table sql) "gdpr_violations_derived"
                     then Some "value too long for type character varying(10)"
                     else None
                 | _ => None
                 end).

(** The header of the first file in another order, with one more column. *)
Definition reordered_gdpr_text : DataFrame :=
  mkDataFrame
    ["href"; "note"; "gdpr_text"; "chapter"; "article"; "chapter_title";
     "article_title"; "sub_article"]
    [ [Str "http://a/1"; Str "checked"; Str "This Regulation lays down rules.";
       Str "1"; Str "1"; Str "General provisions"; Str " Subject-matter ";
       Str "1"] ].

(* ========================================================================= *)
(** * Properties *)

(* ------------------------------------------------------------------------- *)
(** ** Stripping *)

Lemma append_empty_r (s : string) : s ++ EmptyString = s.
Proof. induction s as [|c t IH]; simpl; [reflexivity | now rewrite IH]. Qed.

Lemma append_assoc (a b c : string) : (a ++ b) ++ c = a ++ (b ++ c).
Proof. induction a as [|x a IH]; simpl; [reflexivity | now rewrite IH]. Qed.

Lemma is_empty_true (s : string) : is_empty s = true <-> s = EmptyString.
Proof. destruct s; simpl; split; congruence. Qed.

Lemma lstrip_all_space (s : string) :
  all_space s = true -> lstrip s = EmptyString.
Proof.
  induction s as [|c t IH]; simpl; [reflexivity|].
  intros H; apply andb_true_iff in H as [Hc Ht]. now rewrite Hc; apply IH.
Qed.

Lemma rstrip_all_space (s : string) :
  all_space s = true -> rstrip s = EmptyString.
Proof.
  induction s as [|c t IH]; simpl; [reflexivity|].
  intros H; apply andb_true_iff in H as [Hc Ht]. now rewrite (IH Ht), Hc.
Qed.

Lemma rstrip_empty_all_space (s : string) :
  rstrip s = EmptyString -> all_space s = true.
Proof.
  induction s as [|c t IH]; simpl; [reflexivity|].
  destruct (rstrip t) eqn:E; [|discriminate].
  destruct (isspace c); [|discriminate]. intros _. now apply IH.
Qed.

Lemma lstrip_app_space (a s : string) :
  all_space a = true -> lstrip (a ++ s) = lstrip s.
Proof.
  induction a as [|c a IH]; simpl; [reflexivity|].
  intros H; apply andb_true_iff in H as [Hc Ha]. now rewrite Hc; apply IH.
Qed.

Lemma rstrip_app_space (s b : string) :
  all_space b = true -> rstrip (s ++ b) = rstrip s.
Proof.
  intros Hb. induction s as [|c t IH]; simpl.
  - now apply rstrip_all_space.
  - now rewrite IH.
Qed.

Lemma lstrip_decompose (s : string) :
  exists a, s = a ++ lstrip s /\ all_space a = true.
Proof.
  induction s as [|c t [a [E Ha]]]; simpl.
  - exists EmptyString. split; reflexivity.
  - destruct (isspace c) eqn:Hc.
    + exists (String c a). simpl. rewrite Hc, Ha. split; [now rewrite <- E | reflexivity].
    + exists EmptyString. split; reflexivity.
Qed.

Lemma rstrip_decompose (s : string) :
  exists b, s = rstrip s ++ b /\ all_space b = true.
Proof.
  induction s as [|c t [b [E Hb]]]; simpl.
  - exists EmptyString. split; reflexivity.
  - destruct (rstrip t) as [|c' t'] eqn:Er.
    + destruct (isspace c) eqn:Hc.
      * exists (String c t). simpl. rewrite Hc. split; [reflexivity|].
        now apply rstrip_empty_all_space.
      * exists b. simpl in *. split; [congruence | assumption].
    + exists b. simpl in *. split; [congruence | assumption].
Qed.

Lemma lstrip_fixed (c : ascii) (t : string) :
  lstrip (String c t) = String c t -> isspace c = false.
Proof.
  simpl. destruct (isspace c); [|reflexivity]. intros H. exfalso.
  destruct (lstrip_decompose t) as [a [E _]].
  assert (L : String.length (lstrip t) = S (String.length t)) by now rewrite H.
  assert (L2 : String.length t = (String.length a + String.length (lstrip t))%nat).
  { rewrite E at 1. clear. induction a; simpl; [reflexivity | now rewrite IHa]. }
  lia.
Qed.

Lemma lstrip_no_leading_space (s : string) : lstrip (lstrip s) = lstrip s.
Proof.
  induction s as [|c t IH]; simpl; [reflexivity|].
  destruct (isspace c) eqn:Hc; [assumption|]. simpl. now rewrite Hc.
Qed.

Lemma rstrip_idempotent (s : string) : rstrip (rstrip s) = rstrip s.
Proof.
  induction s as [|c t IH]; simpl; [reflexivity|].
  destruct (rstrip t) as [|c' t'] eqn:Er.
  - destruct (isspace c) eqn:Hc; simpl; [reflexivity | now rewrite Hc].
  - change (rstrip (String c (String c' t'))) with
      (match rstrip (String c' t') with
       | EmptyString => if isspace c then EmptyString else String c EmptyString
       | x => String c x
       end).
    now rewrite IH.
Qed.

Lemma rstrip_head (s : string) :
  lstrip s = s -> lstrip (rstrip s) = rstrip s.
Proof.
  destruct s as [|c t]; simpl; [reflexivity|].
  destruct (isspace c) eqn:Hc.
  - intros H. exfalso.
    destruct (lstrip_decompose t) as [a [E _]].
    assert (L : String.length (lstrip t) = S (String.length t)) by now rewrite H.
    assert (L2 : String.length t = (String.length a + String.length (lstrip t))%nat).
    { rewrite E at 1. clear. induction a; simpl; [reflexivity | now rewrite IHa]. }
    lia.
  - intros _. destruct (rstrip t); simpl; now rewrite Hc.
Qed.

(** The trimmed form: whitespace is removed at both ends and nowhere else. *)
Lemma strip_spec (s : string) :
  (exists a b, s = a ++ strip s ++ b /\ all_space a = true /\ all_space b = true)
  /\ lstrip (strip s) = strip s /\ rstrip (strip s) = strip s.
Proof.
  unfold strip. split; [|split].
  - destruct (lstrip_decompose s) as [a [Ea Ha]].
    destruct (rstrip_decompose (lstrip s)) as [b [Eb Hb]].
    exists a, b. split; [|split; assumption].
    now rewrite <- Eb.
  - apply rstrip_head, lstrip_no_leading_space.
  - apply rstrip_idempotent.
Qed.

Lemma strip_empty_iff (s : string) :
  is_empty (strip s) = true <-> all_space s = true.
Proof.
  rewrite is_empty_true. unfold strip. split.
  - intros H. apply rstrip_empty_all_space in H.
    destruct (lstrip_decompose s) as [a [E Ha]]. rewrite E.
    clear E. induction a as [|c a IH]; simpl; [assumption|].
    simpl in Ha. apply andb_true_iff in Ha as [Hc Ha]. now rewrite Hc, IH.
  - intros H. now rewrite lstrip_all_space.
Qed.

Lemma no_space_lstrip (s : string) : no_space s = true -> lstrip s = s.
Proof.
  destruct s as [|c t]; simpl; [reflexivity|].
  intros H; apply andb_true_iff in H as [Hc _].
  apply negb_true_iff in Hc. now rewrite Hc.
Qed.

Lemma no_space_rstrip (s : string) : no_space s = true -> rstrip s = s.
Proof.
  induction s as [|c t IH]; simpl; [reflexivity|].
  intros H; apply andb_true_iff in H as [Hc Ht].
  apply negb_true_iff in Hc. rewrite (IH Ht), Hc. now destruct t.
Qed.

(** Whitespace around a string without whitespace is stripped exactly. *)
Lemma strip_sandwich (a s b : string) :
  all_space a = true -> all_space b = true -> no_space s = true ->
  strip (a ++ s ++ b) = s.
Proof.
  intros Ha Hb Hs. unfold strip. rewrite lstrip_app_space by assumption.
  destruct s as [|c t].
  - simpl. now rewrite lstrip_all_space.
  - assert (E : lstrip (String c t ++ b) = String c t ++ b).
    { simpl in *. apply andb_true_iff in Hs as [Hc _].
      apply negb_true_iff in Hc. now rewrite Hc. }
    rewrite E, rstrip_app_space by assumption. now apply no_space_rstrip.
Qed.

Lemma lstrip_app (s b : string) :
  lstrip (s ++ b) = if all_space s then lstrip b else lstrip s ++ b.
Proof.
  induction s as [|c t IH]; simpl; [reflexivity|].
  destruct (isspace c); simpl; [exact IH | reflexivity].
Qed.

(** Whitespace added at the ends does not change the trimmed string. *)
Lemma strip_pad (a s b : string) :
  all_space a = true -> all_space b = true -> strip (a ++ s ++ b) = strip s.
Proof.
  intros Ha Hb. unfold strip.
  rewrite (lstrip_app_space a _ Ha), lstrip_app.
  destruct (all_space s) eqn:Hs.
  - now rewrite (lstrip_all_space b Hb), (lstrip_all_space s Hs).
  - now apply rstrip_app_space.
Qed.

Lemma length_app (a b : string) :
  String.length (a ++ b) = (String.length a + String.length b)%nat.
Proof. induction a as [|c a IH]; simpl; [reflexivity | now rewrite IH]. Qed.

Lemma isspace_whitespace (c : ascii) : isspace c = true <-> whitespace c.
Proof.
  unfold whitespace, whitespace_codes.
  destruct c as [[] [] [] [] [] [] [] []]; vm_compute; split; intros H;
    first [ reflexivity
          | discriminate H
          | repeat (destruct H as [H|H]; [discriminate H|]); contradiction
          | repeat (first [left; reflexivity | right]) ].
Qed.

Lemma all_space_only_whitespace (s : string) :
  all_space s = true <-> only_whitespace s.
Proof.
  unfold only_whitespace. induction s as [|c t IH]; simpl.
  - split; [intros _ c [] | reflexivity].
  - rewrite andb_true_iff, IH, isspace_whitespace. split.
    + intros [Hc Ht] x [<- | Hx]; [exact Hc | now apply Ht].
    + intros H. split; [apply H; now left | intros x Hx; apply H; now right].
Qed.

(** What [strip] returns neither begins nor ends with whitespace. *)
Lemma strip_trimmed (s : string) : trimmed (strip s).
Proof.
  destruct (strip_spec s) as (_ & Hl & Hr).
  intros c r [E | E]; rewrite <- isspace_whitespace; rewrite E in *.
  - apply lstrip_fixed in Hl. congruence.
  - intros Hc.
    rewrite rstrip_app_space in Hr by (simpl; now rewrite Hc).
    destruct (rstrip_decompose r) as [b [Eb _]].
    assert (L : String.length (rstrip r) = String.length (r ++ String c EmptyString))
      by now rewrite Hr.
    assert (L2 : String.length r
                 = (String.length (rstrip r) + String.length b)%nat)
      by (rewrite Eb at 1; apply length_app).
    rewrite length_app in L. simpl in L. lia.
Qed.

(** A string that neither begins nor ends with whitespace is left as it
    is. *)
Lemma trimmed_strip (t : string) : trimmed t -> strip t = t.
Proof.
  intros Ht. unfold strip.
  assert (Hl : lstrip t = t).
  { destruct t as [|c r]; [reflexivity|]. simpl.
    destruct (isspace c) eqn:Hc; [|reflexivity].
    apply isspace_whitespace in Hc. now elim (Ht c r (or_introl eq_refl)). }
  rewrite Hl.
  assert (Hlast : forall r c, t = r ++ String c EmptyString -> isspace c = false).
  { intros r c E. destruct (isspace c) eqn:Hc; [|reflexivity].
    apply isspace_whitespace in Hc. now elim (Ht c r (or_intror E)). }
  clear Ht Hl. induction t as [|c r IH]; [reflexivity|]. simpl.
  destruct r as [|c' r'].
  - simpl. now rewrite (Hlast EmptyString c eq_refl).
  - rewrite IH.
    + reflexivity.
    + intros r0 x E. apply (Hlast (String c r0) x). simpl. now rewrite E.
Qed.

(* ------------------------------------------------------------------------- *)
(** ** The coercers *)

Lemma blank_blank_input (v : cell) : blank v = blank_input v.
Proof.
  destruct v as [|s]; [reflexivity|]. unfold blank; simpl.
  destruct (is_empty (strip s)) eqn:E.
  - symmetry. now apply strip_empty_iff.
  - destruct (all_space s) eqn:F; [|reflexivity].
    apply strip_empty_iff in F. congruence.
Qed.

Lemma to_int_eq (lim : N) (v : cell) :
  to_int lim v =
  Ret (if blank v then VNone
       else match py_int lim (strip (py_str v)) with
            | Ret n => VInt n
            | Raise _ => VNone
            end).
Proof.
  unfold to_int. destruct (blank v); [reflexivity|].
  now destruct (py_int lim (strip (py_str v))).
Qed.

Lemma to_numeric_eq (v : cell) :
  to_numeric v =
  Ret (if blank v then VNone
       else match py_Decimal (strip (remove_char "," (py_str v))) with
            | Ret d => VDecimal d
            | Raise _ => VNone
            end).
Proof.
  unfold to_numeric. destruct (blank v); [reflexivity|].
  now destruct (py_Decimal (strip (remove_char "," (py_str v)))).
Qed.

Lemma to_date_eq (dt : cell -> outcome datetime) (v : cell) :
  to_date dt v =
  Ret (if blank v then VNone
       else match dt v with
            | Ret (Stamp t) => VDate (ts_date t)
            | Ret NaT => VNone
            | Raise _ => VNone
            end).
Proof.
  unfold to_date. destruct (blank v); [reflexivity|].
  now destruct (dt v) as [[|t]|e].
Qed.

Lemma to_text_eq (v : cell) :
  to_text v = Ret (VStr (if pd_isna v then EmptyString else strip (py_str v))).
Proof. unfold to_text. now destruct (pd_isna v). Qed.

(** C1. On every cell (a string or the missing marker) each of the four
    coercers returns a value and never raises, whatever the date inference
    does; when the parse of the cell raises (or the date inference raises or
    gives NaT), [to_int], [to_numeric] and [to_date] return None. *)
Theorem coercers_never_raise
  (lim : N) (dt : cell -> outcome datetime) (v : cell) :
  (exists r, to_int lim v = Ret r) /\
  (exists r, to_text v = Ret r) /\
  (exists r, to_numeric v = Ret r) /\
  (exists r, to_date dt v = Ret r) /\
  (forall e, py_int lim (strip (py_str v)) = Raise e ->
             to_int lim v = Ret VNone) /\
  (forall e, py_Decimal (strip (remove_char "," (py_str v))) = Raise e ->
             to_numeric v = Ret VNone) /\
  (forall e, dt v = Raise e -> to_date dt v = Ret VNone) /\
  (dt v = Ret NaT -> to_date dt v = Ret VNone).
Proof.
  rewrite to_int_eq, to_numeric_eq, to_date_eq, to_text_eq.
  repeat split; eauto.
  - intros e H. rewrite H. now destruct (blank v).
  - intros e H. rewrite H. now destruct (blank v).
  - intros e H. rewrite H. now destruct (blank v).
  - intros H. rewrite H. now destruct (blank v).
Qed.

Lemma coercers_never_raise_witness :
  to_int 4300 (Str "12.5") = Ret VNone /\
  to_numeric (Str "abc") = Ret VNone /\
  to_date (fun _ => Raise (PandasError "unsupported")) (Str "not-a-date")
  = Ret VNone /\
  to_date sample_to_datetime (Str "not-a-date") = Ret VNone.
Proof.
  split; [|split; [|split]].
  - destruct (coercers_never_raise 4300 sample_to_datetime (Str "12.5"))
      as (_ & _ & _ & _ & H & _).
    exact (H invalid_literal eq_refl).
  - destruct (coercers_never_raise 4300 sample_to_datetime (Str "abc"))
      as (_ & _ & _ & _ & _ & H & _).
    exact (H InvalidOperation eq_refl).
  - destruct (coercers_never_raise 4300
                (fun _ => Raise (PandasError "unsupported")) (Str "not-a-date"))
      as (_ & _ & _ & _ & _ & _ & H & _).
    exact (H _ eq_refl).
  - destruct (coercers_never_raise 4300 sample_to_datetime (Str "not-a-date"))
      as (_ & _ & _ & _ & _ & _ & _ & H).
    exact (H eq_refl).
Defined.

(** C8. On a blank input (a missing cell or a string of whitespace only)
    [to_int], [to_numeric] and [to_date] return None and [to_text] returns
    the empty string.  On every string [to_text] returns a string, never
    None, and that string is the trimmed form of the input: the input is
    the result between two runs of whitespace, and the result neither
    begins nor ends with whitespace; there is one such string, so
    [to_text] returns [t] whenever the input is [t], trimmed, between
    whitespace. *)
Theorem blank_inputs (lim : N) (dt : cell -> outcome datetime) :
  (forall v, blank_input v = true ->
     to_int lim v = Ret VNone /\ to_numeric v = Ret VNone /\
     to_date dt v = Ret VNone /\ to_text v = Ret (VStr EmptyString)) /\
  (forall s, blank_input (Str s) = true <-> only_whitespace s) /\
  (forall s,
     to_text (Str s) = Ret (VStr (strip s)) /\
     to_text (Str s) <> Ret VNone /\
     exists t a b,
       to_text (Str s) = Ret (VStr t) /\
       s = a ++ t ++ b /\ only_whitespace a /\ only_whitespace b /\
       trimmed t) /\
  (forall a t b,
     only_whitespace a -> only_whitespace b -> trimmed t ->
     to_text (Str (a ++ t ++ b)) = Ret (VStr t)).
Proof.
  split; [|split; [|split]].
  - intros v Hv.
    rewrite to_int_eq, to_numeric_eq, to_date_eq, to_text_eq,
      blank_blank_input, Hv.
    repeat split. destruct v as [|s]; simpl; [reflexivity|].
    simpl in Hv. apply strip_empty_iff in Hv. apply is_empty_true in Hv.
    now rewrite Hv.
  - intros s. simpl. apply all_space_only_whitespace.
  - intros s. rewrite to_text_eq. simpl.
    split; [reflexivity|]. split; [discriminate|].
    destruct (strip_spec s) as ((a & b & E & Ha & Hb) & _).
    exists (strip s), a, b. split; [reflexivity|]. split; [exact E|].
    split; [now apply all_space_only_whitespace|].
    split; [now apply all_space_only_whitespace | apply strip_trimmed].
  - intros a t b Ha Hb Ht. rewrite to_text_eq. simpl.
    apply all_space_only_whitespace in Ha, Hb.
    now rewrite (strip_pad a t b Ha Hb), (trimmed_strip t Ht).
Qed.

Lemma blank_inputs_witness :
  (to_int 4300 (Str "   ") = Ret VNone /\
   to_numeric (Str "   ") = Ret VNone /\
   to_date sample_to_datetime (Str "   ") = Ret VNone /\
   to_text (Str "   ") = Ret (VStr EmptyString)) /\
  to_text (Str "  Subject-matter ") = Ret (VStr "Subject-matter") /\
  to_text (Str " a b  ") = Ret (VStr "a b").
Proof.
  destruct (blank_inputs 4300 sample_to_datetime) as (H1 & _ & H3 & H4).
  split; [|split].
  - exact (H1 (Str "   ") eq_refl).
  - exact (proj1 (H3 "  Subject-matter ")).
  - apply (H4 " " "a b" "  ").
    + intros c [<-|[]]. vm_compute. tauto.
    + intros c [<-|[<-|[]]]; vm_compute; tauto.
    + intros c r [E|E].
      * injection E as <- _. vm_compute. intuition discriminate.
      * destruct r as [|x [|y [|z r]]]; try discriminate E.
        -- injection E as _ _ <-. vm_compute. intuition discriminate.
        -- destruct r; discriminate E.
Defined.

(* ------------------------------------------------------------------------- *)
(** ** Integer literals *)

Lemma strip_idempotent (s : string) : strip (strip s) = strip s.
Proof.
  destruct (strip_spec s) as (_ & Hl & Hr).
  unfold strip at 1. now rewrite Hl, Hr.
Qed.

(** [int] skips no more than [str.strip] removes. *)
Lemma int_space_isspace (c : ascii) : int_space c = true -> isspace c = true.
Proof.
  destruct c as [[] [] [] [] [] [] [] []]; vm_compute; congruence.
Qed.

Lemma skip_leading_fixed (s : string) : lstrip s = s -> skip_leading s = s.
Proof.
  destruct s as [|c t]; [reflexivity|]. intros H.
  apply lstrip_fixed in H. simpl.
  destruct (int_space c) eqn:E; [|reflexivity].
  apply int_space_isspace in E. congruence.
Qed.

Lemma skip_trailing_fixed (s : string) : rstrip s = s -> skip_trailing s = s.
Proof.
  induction s as [|c t IH]; [reflexivity|]. simpl.
  destruct (rstrip t) as [|c' t'] eqn:Er.
  - destruct (isspace c) eqn:Hc; [discriminate|].
    intros H. injection H as <-. simpl.
    destruct (int_space c) eqn:E; [|reflexivity].
    apply int_space_isspace in E. congruence.
  - intros H. injection H as H. rewrite IH by exact H.
    now rewrite <- H.
Qed.

(** On a trimmed string [int] finds no whitespace to skip. *)
Lemma skip_strip (s : string) :
  skip_trailing (skip_leading (strip s)) = strip s.
Proof.
  destruct (strip_spec s) as (_ & Hl & Hr).
  now rewrite (skip_leading_fixed _ Hl), (skip_trailing_fixed _ Hr).
Qed.

Lemma skip_no_space (s : string) :
  no_space s = true -> skip_trailing (skip_leading s) = s.
Proof.
  intros H. rewrite (skip_leading_fixed s (no_space_lstrip s H)).
  apply skip_trailing_fixed, no_space_rstrip, H.
Qed.

Lemma no_space_strip (s : string) : no_space s = true -> strip s = s.
Proof.
  intros H. generalize (strip_sandwich EmptyString s EmptyString eq_refl eq_refl H).
  simpl. now rewrite append_empty_r.
Qed.

Lemma isdigit_not_space (c : ascii) : isdigit c = true -> isspace c = false.
Proof.
  destruct c as [[] [] [] [] [] [] [] []]; vm_compute; congruence.
Qed.

Lemma isdigit_not_sign (c : ascii) :
  isdigit c = true -> c <> "-"%char /\ c <> "+"%char /\ c <> "_"%char.
Proof.
  destruct c as [[] [] [] [] [] [] [] []]; vm_compute; intros H;
    repeat split; congruence.
Qed.

Lemma all_digits_no_space (ds : string) :
  all_digits ds = true -> no_space ds = true.
Proof.
  induction ds as [|c t IH]; simpl; [reflexivity|].
  intros H; apply andb_true_iff in H as [Hc Ht].
  now rewrite (isdigit_not_space c Hc), IH.
Qed.

Lemma no_space_app (a b : string) :
  no_space a = true -> no_space b = true -> no_space (a ++ b) = true.
Proof.
  induction a as [|c a IH]; simpl; [now intros|].
  intros H Hb; apply andb_true_iff in H as [Hc Ha]. now rewrite Hc, IH.
Qed.

(** On a string of digits the scanner reads the decimal value and counts the
    digits. *)
Lemma scan_int_digits (ds : string) :
  all_digits ds = true ->
  forall prev acc nd,
    ds <> EmptyString \/ prev = false ->
    scan_int ds prev acc nd
    = Some (digits_value ds acc, (nd + N.of_nat (String.length ds))%N).
Proof.
  induction ds as [|c t IH]; simpl; intros Hd prev acc nd Hne.
  - destruct Hne as [Hne | ->]; [congruence|]. now rewrite N.add_0_r.
  - apply andb_true_iff in Hd as [Hc Ht]. rewrite Hc.
    rewrite (IH Ht) by now right. f_equal. f_equal. lia.
Qed.

Lemma py_int_empty (lim : N) : py_int lim EmptyString = Raise invalid_literal.
Proof. reflexivity. Qed.

Lemma split_sign_other (c : ascii) (t : string) :
  c <> "-"%char -> c <> "+"%char -> split_sign (String c t) = (false, String c t).
Proof.
  intros Hm Hp.
  destruct c as [[] [] [] [] [] [] [] []]; try reflexivity; congruence.
Qed.

(** The value of an unsigned literal, with or without a sign in front. *)
Lemma py_int_literal (lim : N) (neg : bool) (ds : string) :
  all_digits ds = true -> ds <> EmptyString ->
  exceeds_max_str_digits lim (N.of_nat (String.length ds)) = false ->
  py_int lim ((if neg then "-" else EmptyString) ++ ds)
  = Ret (if neg then - digits_value ds 0 else digits_value ds 0).
Proof.
  intros Hd Hne Hlim. unfold py_int.
  assert (Hs : skip_trailing
                 (skip_leading ((if neg then "-" else EmptyString) ++ ds))
               = (if neg then "-" else EmptyString) ++ ds).
  { apply skip_no_space. apply no_space_app.
    - now destruct neg.
    - now apply all_digits_no_space. }
  rewrite Hs.
  assert (Hsplit : split_sign ((if neg then "-" else EmptyString) ++ ds)
                   = (neg, ds)).
  { destruct neg; [reflexivity|]. simpl.
    destruct ds as [|c t]; [congruence|].
    simpl in Hd. apply andb_true_iff in Hd as [Hc _].
    destruct (isdigit_not_sign c Hc) as (Hm & Hp & _).
    now apply split_sign_other. }
  rewrite Hsplit, (scan_int_digits ds Hd) by now left.
  simpl. now rewrite Hlim.
Qed.

(** Decimal numerals of the standard library against [digits_value]. *)
Lemma digits_value_uint_acc (d : Decimal.uint) (acc : positive) :
  digits_value (NilEmpty.string_of_uint d) (Z.pos acc)
  = Z.pos (Pos.of_uint_acc d acc).
Proof.
  revert acc.
  induction d; intros acc;
    cbn [NilEmpty.string_of_uint digits_value Pos.of_uint_acc];
    try reflexivity;
    rewrite <- IHd; f_equal;
    match goal with |- context [digit_value ?c] =>
      let x := fresh "x" in
      set (x := digit_value c); vm_compute in x; subst x
    end; lia.
Qed.

Lemma digits_value_uint (d : Decimal.uint) :
  digits_value (NilEmpty.string_of_uint d) 0 = Z.of_N (Pos.of_uint d).
Proof.
  induction d; cbn [NilEmpty.string_of_uint digits_value Pos.of_uint];
    try reflexivity; try assumption;
    match goal with |- context [digit_value ?c] =>
      let x := fresh "x" in
      set (x := digit_value c); vm_compute in x; subst x
    end; apply (digits_value_uint_acc d).
Qed.

Lemma all_digits_uint (d : Decimal.uint) :
  all_digits (NilEmpty.string_of_uint d) = true.
Proof. induction d; simpl; auto. Qed.

Lemma str_of_Z_abs (z : Z) :
  str_of_Z z = (if z <? 0 then "-" else EmptyString) ++ str_of_Z (Z.abs z).
Proof. destruct z; reflexivity. Qed.

Lemma str_of_Z_abs_digits (z : Z) :
  all_digits (str_of_Z (Z.abs z)) = true /\
  str_of_Z (Z.abs z) <> EmptyString /\
  digits_value (str_of_Z (Z.abs z)) 0 = Z.abs z.
Proof.
  assert (P : forall p,
             all_digits (str_of_Z (Z.pos p)) = true /\
             str_of_Z (Z.pos p) <> EmptyString /\
             digits_value (str_of_Z (Z.pos p)) 0 = Z.pos p).
  { intros p. unfold str_of_Z. cbn [Z.to_int NilZero.string_of_int].
    pose proof (Unsigned.to_uint_nonnil p) as Hn.
    pose proof (Unsigned.of_to p) as Hv.
    assert (E : NilZero.string_of_uint (Pos.to_uint p)
                = NilEmpty.string_of_uint (Pos.to_uint p)).
    { destruct (Pos.to_uint p); [congruence | reflexivity ..]. }
    rewrite E. split; [apply all_digits_uint | split].
    - destruct (Pos.to_uint p); [congruence | discriminate ..].
    - now rewrite digits_value_uint, Hv. }
  destruct z as [|p|p]; [repeat split; discriminate | apply P | apply P].
Qed.

(** C7. When the trimmed input is parseable by [int], [to_int] returns
    exactly the integer it denotes: the value [int] gives, which for an
    optional sign and digits in any amount of surrounding whitespace is the
    decimal value of the digits, and for the canonical numeral of [z] is [z]
    (as long as the interpreter's limit on the number of digits admits the
    numeral).  On every other input, [12.5] and [abc] among them, it returns
    None. *)
Theorem to_int_parses (lim : N) :
  (forall s n, py_int lim (strip s) = Ret n ->
     is_empty (strip s) = false /\ to_int lim (Str s) = Ret (VInt n)) /\
  (forall v, (forall n, py_int lim (strip (py_str v)) <> Ret n) \/ v = NaN ->
     to_int lim v = Ret VNone) /\
  (forall a b ds (neg : bool),
     all_space a = true -> all_space b = true ->
     all_digits ds = true -> ds <> EmptyString ->
     exceeds_max_str_digits lim (N.of_nat (String.length ds)) = false ->
     to_int lim (Str (a ++ ((if neg then "-" else EmptyString) ++ ds) ++ b))
     = Ret (VInt (if neg then - digits_value ds 0 else digits_value ds 0))) /\
  (forall a b z,
     all_space a = true -> all_space b = true ->
     exceeds_max_str_digits lim (num_digits z) = false ->
     to_int lim (Str (a ++ str_of_Z z ++ b)) = Ret (VInt z)) /\
  to_int lim (Str "12.5") = Ret VNone /\
  to_int lim (Str "abc") = Ret VNone.
Proof.
  assert (L : forall a b ds (neg : bool),
     all_space a = true -> all_space b = true ->
     all_digits ds = true -> ds <> EmptyString ->
     exceeds_max_str_digits lim (N.of_nat (String.length ds)) = false ->
     to_int lim (Str (a ++ ((if neg then "-" else EmptyString) ++ ds) ++ b))
     = Ret (VInt (if neg then - digits_value ds 0 else digits_value ds 0))).
  { intros a b ds neg Ha Hb Hd Hne Hlim.
    assert (Hns : no_space ((if neg then "-" else EmptyString) ++ ds) = true).
    { apply no_space_app; [now destruct neg | now apply all_digits_no_space]. }
    rewrite to_int_eq. unfold blank. simpl pd_isna. simpl py_str.
    rewrite (strip_sandwich a _ b Ha Hb Hns).
    rewrite (py_int_literal lim neg ds Hd Hne Hlim).
    destruct neg; simpl; [reflexivity|].
    destruct ds; [congruence | reflexivity]. }
  split; [|split; [|split; [exact L | split; [|split; reflexivity]]]].
  - intros s n H.
    assert (E : is_empty (strip s) = false).
    { destruct (strip s); [rewrite py_int_empty in H; discriminate | reflexivity]. }
    split; [exact E|].
    rewrite to_int_eq. unfold blank. simpl. now rewrite E, H.
  - intros v [H | ->]; [|reflexivity].
    rewrite to_int_eq. destruct (blank v); [reflexivity|].
    destruct (py_int lim (strip (py_str v))) as [n|e] eqn:E; [|reflexivity].
    now elim (H n).
  - intros a b z Ha Hb Hlim.
    destruct (str_of_Z_abs_digits z) as (Hd & Hne & Hv).
    rewrite str_of_Z_abs.
    rewrite (L a b (str_of_Z (Z.abs z)) (z <? 0) Ha Hb Hd Hne Hlim), Hv.
    do 2 f_equal. destruct (Z.ltb_spec z 0); lia.
Qed.

Lemma to_int_parses_witness :
  to_int 4300 (Str "  -42 ") = Ret (VInt (-42)) /\
  to_int 4300 (Str " 007") = Ret (VInt 7) /\
  to_int 4300 (Str (" " ++ str_of_Z 1234567 ++ "  ")) = Ret (VInt 1234567) /\
  to_int 4300 (Str "1,5") = Ret VNone.
Proof.
  destruct (to_int_parses 4300) as (H1 & H2 & H3 & H4 & _).
  split; [|split; [|split]].
  - exact (proj2 (H1 "  -42 " (-42) eq_refl)).
  - refine (H3 " " EmptyString "007" false eq_refl eq_refl eq_refl _ eq_refl).
    discriminate.
  - exact (H4 " " "  " 1234567 eq_refl eq_refl eq_refl).
  - apply H2. left. intros n. vm_compute. discriminate.
Defined.

(** [int] itself does not skip the separators that [strip] removes: a
    literal behind one of them is rejected by [int] and read by [to_int],
    which strips first. *)
Example int_separators :
  py_int 4300 (String (ascii_of_nat 28) "5") = Raise invalid_literal /\
  to_int 4300 (Str (String (ascii_of_nat 28) "5")) = Ret (VInt 5) /\
  py_int 4300 (String (ascii_of_nat 160) " 5 ") = Ret 5.
Proof. repeat split. Qed.

(* ------------------------------------------------------------------------- *)
(** ** Decimal numerals *)

Lemma remove_char_app (ch : ascii) (a b : string) :
  remove_char ch (a ++ b) = remove_char ch a ++ remove_char ch b.
Proof.
  induction a as [|c a IH]; simpl; [reflexivity|].
  destruct (Ascii.eqb c ch); simpl; now rewrite IH.
Qed.

Lemma remove_comma_all_space (s : string) :
  all_space s = true -> remove_char "," s = s.
Proof.
  induction s as [|c t IH]; simpl; [reflexivity|].
  intros H; apply andb_true_iff in H as [Hc Ht].
  destruct (Ascii.eqb_spec c ","%char) as [->|_]; [discriminate Hc|].
  now rewrite IH.
Qed.

Lemma remove_underscore_digits (ds : string) :
  all_digits ds = true -> remove_char "_" ds = ds.
Proof.
  induction ds as [|c t IH]; simpl; [reflexivity|].
  intros H; apply andb_true_iff in H as [Hc Ht].
  destruct (isdigit_not_sign c Hc) as (_ & _ & Hu).
  apply Ascii.eqb_neq in Hu. now rewrite Hu, IH.
Qed.

Lemma span_digits_all (ds : string) :
  all_digits ds = true -> span_digits ds = (ds, EmptyString).
Proof.
  induction ds as [|c t IH]; simpl; [reflexivity|].
  intros H; apply andb_true_iff in H as [Hc Ht]. now rewrite Hc, IH.
Qed.

Lemma span_digits_app (ds : string) (c : ascii) (r : string) :
  all_digits ds = true -> isdigit c = false ->
  span_digits (ds ++ String c r) = (ds, String c r).
Proof.
  intros Hd Hc. induction ds as [|x t IH]; simpl.
  - now rewrite Hc.
  - simpl in Hd. apply andb_true_iff in Hd as [Hx Ht]. now rewrite Hx, IH.
Qed.

(** A string that starts with a digit or a point carries no sign and is
    neither an infinity nor a NaN. *)
Lemma numeral_head (c : ascii) (t : string) :
  isdigit c = true \/ c = "."%char ->
  split_sign (String c t) = (false, String c t) /\
  String.eqb (lowercase (String c t)) "inf" = false /\
  String.eqb (lowercase (String c t)) "infinity" = false /\
  String.prefix "nan" (lowercase (String c t)) = false /\
  String.prefix "snan" (lowercase (String c t)) = false.
Proof.
  intros H.
  destruct c as [[] [] [] [] [] [] [] []];
    try (exfalso; destruct H as [H|H]; [vm_compute in H|]; congruence);
    repeat split; reflexivity.
Qed.

(** The numeral [ip.fp] is read exactly: its digits are the coefficient and
    the number of fraction digits is the negated exponent. *)
Lemma py_Decimal_point (ip fp : string) :
  all_digits ip = true -> all_digits fp = true -> ip ++ fp <> EmptyString ->
  py_Decimal (ip ++ "." ++ fp)
  = Ret (DFinite false (digits_value (ip ++ fp) 0)
           (- Z.of_nat (String.length fp))).
Proof.
  intros Hi Hf Hne. unfold py_Decimal.
  assert (Hns : no_space (ip ++ "." ++ fp) = true).
  { apply no_space_app; [now apply all_digits_no_space|].
    simpl. now apply all_digits_no_space. }
  rewrite (no_space_strip _ Hns), remove_char_app.
  rewrite (remove_underscore_digits ip Hi). simpl remove_char.
  rewrite (remove_underscore_digits fp Hf).
  assert (Hhead : exists c t, ip ++ String "." fp = String c t
                              /\ (isdigit c = true \/ c = "."%char)).
  { destruct ip as [|c t]; simpl.
    - exists "."%char, fp. split; [reflexivity | now right].
    - simpl in Hi. apply andb_true_iff in Hi as [Hc _].
      exists c, (t ++ String "." fp). split; [reflexivity | now left]. }
  destruct Hhead as (c & t & E & Hc).
  destruct (numeral_head c t Hc) as (H1 & H2 & H3 & H4 & H5).
  rewrite E, H1, H2, H3, H4, H5. simpl orb. cbv iota. rewrite <- E.
  unfold parse_number.
  rewrite (span_digits_app ip "." fp Hi eq_refl).
  rewrite (span_digits_all fp Hf).
  destruct (ip ++ fp) eqn:Hipfp; [congruence|]. simpl is_empty. cbv iota.
  simpl parse_exponent. cbv iota zeta. simpl is_empty. simpl orb. cbv iota.
  now rewrite Z.sub_0_l.
Qed.

(** The numeral without a point is read as an integer with exponent 0. *)
Lemma py_Decimal_integer (ip : string) :
  all_digits ip = true -> ip <> EmptyString ->
  py_Decimal ip = Ret (DFinite false (digits_value ip 0) 0).
Proof.
  intros Hi Hne. unfold py_Decimal.
  rewrite (no_space_strip _ (all_digits_no_space ip Hi)).
  rewrite (remove_underscore_digits ip Hi).
  destruct ip as [|c t]; [congruence|].
  assert (Hc : isdigit c = true)
    by (simpl in Hi; now apply andb_true_iff in Hi as [Hc _]).
  destruct (numeral_head c t (or_introl Hc)) as (H1 & H2 & H3 & H4 & H5).
  rewrite H1, H2, H3, H4, H5. simpl orb. cbv iota.
  unfold parse_number. rewrite (span_digits_all _ Hi).
  rewrite append_empty_r. reflexivity.
Qed.

Lemma digits_value_acc (s : string) (acc : Z) :
  digits_value s acc
  = acc * 10 ^ Z.of_nat (String.length s) + digits_value s 0.
Proof.
  revert acc. induction s as [|c t IH]; intros acc.
  - simpl. lia.
  - cbn [digits_value String.length]. rewrite (IH (10 * acc + digit_value c)).
    rewrite (IH (10 * 0 + digit_value c)).
    rewrite Nat2Z.inj_succ, Z.pow_succ_r by lia. ring.
Qed.

Lemma digits_value_app (a b : string) :
  digits_value (a ++ b) 0
  = digits_value a 0 * 10 ^ Z.of_nat (String.length b) + digits_value b 0.
Proof.
  assert (E : forall acc, digits_value (a ++ b) acc
                          = digits_value b (digits_value a acc)).
  { induction a as [|c a IH]; intros acc; simpl; [reflexivity | apply IH]. }
  now rewrite E, digits_value_acc.
Qed.

(** The coefficient and exponent read from [ip.fp] hold the number that
    the numeral denotes. *)
Lemma numeral_value_exact (ip fp : string) :
  exists q,
    decimal_value (DFinite false (digits_value (ip ++ fp) 0)
                     (- Z.of_nat (String.length fp))) = Some q /\
    (q == numeral_value ip fp)%Q.
Proof.
  eexists. split; [reflexivity|].
  unfold numeral_value. rewrite digits_value_app.
  set (A := digits_value ip 0). set (B := digits_value fp 0).
  set (n := Z.of_nat (String.length fp)).
  rewrite Qpower_opp.
  assert (H : (Qpower (10 # 1) n == inject_Z (10 ^ n))%Q).
  { change (10 # 1)%Q with (inject_Z 10). symmetry.
    apply Zpower_Qpower. unfold n. lia. }
  rewrite H, inject_Z_plus, inject_Z_mult.
  assert (Hnz : ~ (inject_Z (10 ^ n) == 0)%Q).
  { unfold Qeq. simpl.
    assert (0 < 10 ^ n) by (apply Z.pow_pos_nonneg; unfold n; lia). lia. }
  field. exact Hnz.
Qed.

Lemma py_Decimal_empty : py_Decimal EmptyString = Raise InvalidOperation.
Proof. reflexivity. Qed.

(** [to_numeric] is [Decimal] applied to the input without its commas and
    surrounding whitespace, with None for whatever [Decimal] rejects. *)
Lemma to_numeric_str (s : string) :
  to_numeric (Str s) =
  match py_Decimal (strip (remove_char "," s)) with
  | Ret d => Ret (VDecimal d)
  | Raise _ => Ret VNone
  end.
Proof.
  rewrite to_numeric_eq, blank_blank_input. simpl.
  destruct (all_space s) eqn:Hs.
  - rewrite (remove_comma_all_space s Hs).
    apply strip_empty_iff, is_empty_true in Hs. now rewrite Hs, py_Decimal_empty.
  - now destruct (py_Decimal (strip (remove_char "," s))).
Qed.

(** C4. [to_numeric] drops the commas and the surrounding whitespace and
    reads the rest as an exact decimal: a numeral [ip.fp] gives the
    coefficient [ipfp] with exponent minus the length of [fp], which hold
    the rational number that the numeral denotes; a numeral without point
    gives exponent 0, and whatever [Decimal] returns is returned as it is.  A blank input and an input that [Decimal] rejects
    give None.  [1,234.50] gives 123450 x 10^-2, which is 2469/2, and [abc] gives
    None. *)
Theorem to_numeric_exact :
  (forall s ip fp,
     all_digits ip = true -> all_digits fp = true -> ip ++ fp <> EmptyString ->
     strip (remove_char "," s) = ip ++ "." ++ fp ->
     exists d q,
       d = DFinite false (digits_value (ip ++ fp) 0)
             (- Z.of_nat (String.length fp)) /\
       to_numeric (Str s) = Ret (VDecimal d) /\
       decimal_value d = Some q /\ (q == numeral_value ip fp)%Q) /\
  (forall s ip,
     all_digits ip = true -> ip <> EmptyString ->
     strip (remove_char "," s) = ip ->
     to_numeric (Str s) = Ret (VDecimal (DFinite false (digits_value ip 0) 0))) /\
  (forall s d,
     py_Decimal (strip (remove_char "," s)) = Ret d ->
     to_numeric (Str s) = Ret (VDecimal d)) /\
  (forall v, blank_input v = true -> to_numeric v = Ret VNone) /\
  (forall s e,
     py_Decimal (strip (remove_char "," s)) = Raise e ->
     to_numeric (Str s) = Ret VNone) /\
  to_numeric (Str "1,234.50") = Ret (VDecimal (DFinite false 123450 (-2))) /\
  (exists q, decimal_value (DFinite false 123450 (-2)) = Some q /\
             (q == 2469 # 2)%Q) /\
  to_numeric (Str "abc") = Ret VNone.
Proof.
  split; [|repeat split].
  - intros s ip fp Hi Hf Hne E.
    destruct (numeral_value_exact ip fp) as (q & Hq & Hv).
    eexists. exists q. split; [reflexivity|]. split; [|split; assumption].
    now rewrite to_numeric_str, E, (py_Decimal_point ip fp Hi Hf Hne).
  - intros s ip Hi Hne E.
    now rewrite to_numeric_str, E, (py_Decimal_integer ip Hi Hne).
  - intros s d E. now rewrite to_numeric_str, E.
  - intros v Hv. now rewrite to_numeric_eq, blank_blank_input, Hv.
  - intros s e E. now rewrite to_numeric_str, E.
  - eexists. split; reflexivity.
Qed.

Lemma to_numeric_exact_witness :
  to_numeric (Str "  12,345,678.9050 ")
  = Ret (VDecimal (DFinite false 123456789050 (-4))) /\
  to_numeric (Str " 1,000 ") = Ret (VDecimal (DFinite false 1000 0)) /\
  to_numeric (Str "1e3") = Ret (VDecimal (DFinite false 1 3)) /\
  to_numeric (Str "  ") = Ret VNone /\
  to_numeric (Str "12.5.1") = Ret VNone.
Proof.
  destruct to_numeric_exact as (H1 & H2 & H3 & H4 & H5 & _).
  split; [|split; [|split; [|split]]].
  - destruct (H1 "  12,345,678.9050 " "12345678" "9050" eq_refl eq_refl
                ltac:(discriminate) eq_refl) as (d & q & -> & E & _).
    exact E.
  - refine (H2 " 1,000 " "1000" eq_refl _ eq_refl). discriminate.
  - exact (H3 "1e3" _ eq_refl).
  - exact (H4 (Str "  ") eq_refl).
  - exact (H5 "12.5.1" InvalidOperation eq_refl).
Defined.

(** C9. Every comma is removed before parsing, wherever it stands: the
    result depends on the input only through the input without its commas,
    so a comma added at any position changes nothing; [1,2], whose comma
    groups no thousands, gives the decimal 12. *)
Theorem to_numeric_ignores_commas :
  (forall s,
     to_numeric (Str s) =
     match py_Decimal (strip (remove_char "," s)) with
     | Ret d => Ret (VDecimal d)
     | Raise _ => Ret VNone
     end) /\
  (forall a b, to_numeric (Str (a ++ "," ++ b)) = to_numeric (Str (a ++ b))) /\
  (forall s, to_numeric (Str (remove_char "," s)) = to_numeric (Str s)) /\
  to_numeric (Str "1,2") = Ret (VDecimal (DFinite false 12 0)).
Proof.
  split; [exact to_numeric_str | split; [|split; [|reflexivity]]].
  - intros a b. rewrite !to_numeric_str, !remove_char_app. reflexivity.
  - intros s. rewrite !to_numeric_str.
    assert (E : remove_char "," (remove_char "," s) = remove_char "," s).
    { induction s as [|c t IH]; simpl; [reflexivity|].
      destruct (Ascii.eqb c ",") eqn:Hc; [assumption|].
      simpl. now rewrite Hc, IH. }
    now rewrite E.
Qed.

(** A number with an exponent beyond the bounds of [Decimal] is rejected,
    and [to_numeric] gives None for it. *)
Example decimal_bounds :
  py_Decimal "1e999999999999999999"
  = Ret (DFinite false 1 999999999999999999) /\
  py_Decimal "10e999999999999999999" = Raise InvalidOperation /\
  py_Decimal "1e-1999999999999999997"
  = Ret (DFinite false 1 (-1999999999999999997)) /\
  py_Decimal "1e-1999999999999999998" = Raise InvalidOperation /\
  to_numeric (Str "1e9999999999999999999") = Ret VNone.
Proof. repeat split. Qed.

(* ------------------------------------------------------------------------- *)
(** ** The batcher *)

Section Chunks.

Context {A : Type}.
Implicit Types (l : list A) (k j cnt : nat).

Lemma firstn_plus l (a b : nat) :
  firstn (a + b) l = (firstn a l ++ firstn b (skipn a l))%list.
Proof.
  revert l. induction a as [|a IH]; intros l; simpl; [reflexivity|].
  destruct l as [|x l]; simpl; [now rewrite firstn_nil | now rewrite IH].
Qed.

Lemma concat_chunks l k cnt :
  List.concat (map (chunk_at l k) (seq 0 cnt)) = firstn (cnt * k) l.
Proof.
  induction cnt as [|c IH]; [reflexivity|].
  rewrite seq_S, map_app, concat_app, IH. simpl.
  rewrite app_nil_r. unfold chunk_at.
  replace (k + c * k)%nat with (c * k + k)%nat by lia.
  now rewrite firstn_plus.
Qed.

Lemma chunk_at_length l k j :
  List.length (chunk_at l k j) = Nat.min k (List.length l - j * k).
Proof. unfold chunk_at. now rewrite length_firstn, length_skipn. Qed.

Lemma nth_error_map_seq {B} (f : nat -> B) cnt (i : nat) (c : B) :
  nth_error (map f (seq 0 cnt)) i = Some c -> (i < cnt)%nat /\ c = f i.
Proof.
  intros H.
  assert (Hi : (i < cnt)%nat).
  { assert (Hlt : (i < List.length (map f (seq 0 cnt)))%nat)
      by (apply nth_error_Some; congruence).
    now rewrite length_map, length_seq in Hlt. }
  split; [assumption|].
  apply (nth_error_nth _ _ (f O)) in H.
  rewrite map_nth, seq_nth in H by assumption. now rewrite <- H.
Qed.

(** The slice that [chunk_iter] takes at the start [j * n] is the chunk
    number [j]. *)
Lemma py_slice_chunk l (n : Z) j :
  1 <= n -> (j * Z.to_nat n < List.length l)%nat ->
  py_slice l (0 + Z.of_nat j * n) (0 + Z.of_nat j * n + n)
  = chunk_at l (Z.to_nat n) j.
Proof.
  intros Hn Hj. unfold py_slice, slice_bound, chunk_at.
  set (L := Z.of_nat (List.length l)).
  assert (HjZ : Z.of_nat j * n < L) by (unfold L; nia).
  destruct (Z.ltb_spec (0 + Z.of_nat j * n) 0) as [?|_]; [lia|].
  destruct (Z.ltb_spec (0 + Z.of_nat j * n + n) 0) as [?|_]; [lia|].
  replace (Z.to_nat (Z.min (0 + Z.of_nat j * n) L)) with (j * Z.to_nat n)%nat
    by lia.
  destruct (Z.le_gt_cases (0 + Z.of_nat j * n + n) L) as [Hle|Hgt].
  - f_equal. lia.
  - rewrite !firstn_all2; [reflexivity | |]; rewrite length_skipn; unfold L in *; lia.
Qed.

Lemma range_length_ceil (len n : Z) :
  0 <= len -> 1 <= n -> range_length 0 len n = ceil_div len n.
Proof.
  intros Hl Hn. unfold range_length, ceil_div.
  destruct (Z.ltb_spec 0 n) as [_|?]; [|lia].
  destruct (Z.ltb_spec 0 len) as [Hpos|Hz].
  - replace (len + n - 1) with (len - 0 - 1 + 1 * n) by lia.
    now rewrite Z.div_add by lia.
  - replace len with 0 by lia. symmetry. apply Z.div_small. lia.
Qed.

Lemma ceil_div_bounds (len n : Z) :
  0 <= len -> 1 <= n ->
  0 <= ceil_div len n /\
  len <= n * ceil_div len n /\ n * (ceil_div len n - 1) < len \/
  len = 0 /\ ceil_div len n = 0.
Proof.
  intros Hl Hn. unfold ceil_div.
  destruct (Z.eq_dec len 0) as [->|Hne].
  - right. split; [reflexivity|]. apply Z.div_small. lia.
  - left.
    pose proof (Z.mul_div_le (len + n - 1) n ltac:(lia)).
    pose proof (Z.mul_succ_div_gt (len + n - 1) n ltac:(lia)).
    pose proof (Z.div_pos (len + n - 1) n ltac:(lia) ltac:(lia)).
    lia.
Qed.

(** C3. For a chunk size [n >= 1], [chunk_iter(seq, n)] yields
    [ceil(L / n)] chunks, where [L] is the length of [seq]; their
    concatenation in yield order is [seq]; the chunk number [i] is the [n]
    elements of [seq] from position [i * n] on (fewer when [seq] ends
    before), so chunks are contiguous and do not overlap; every chunk but
    the last has length [n] and the last holds the remaining
    [L - (count - 1) * n] elements, between 1 and [n]. *)
Theorem chunk_iter_spec (seq : list A) (n : Z) :
  1 <= n ->
  exists chunks,
    chunk_iter seq n = Ret chunks /\
    Z.of_nat (List.length chunks) = ceil_div (Z.of_nat (List.length seq)) n /\
    List.concat chunks = seq /\
    forall (i : nat) (c : list A),
      nth_error chunks i = Some c ->
      c = firstn (Z.to_nat n) (skipn (i * Z.to_nat n) seq) /\
      (S i < List.length chunks -> Z.of_nat (List.length c) = n)%nat /\
      (S i = List.length chunks ->
       Z.of_nat (List.length c) = Z.of_nat (List.length seq) - Z.of_nat i * n /\
       1 <= Z.of_nat (List.length c) <= n).
Proof.
  intros Hn.
  set (L := Z.of_nat (List.length seq)).
  set (k := Z.to_nat n).
  set (cnt := Z.to_nat (ceil_div L n)).
  assert (HL : 0 <= L) by (unfold L; lia).
  pose proof (ceil_div_bounds L n HL Hn) as Hb.
  assert (Hcnt : Z.of_nat cnt = ceil_div L n) by (unfold cnt; lia).
  assert (Hk : Z.of_nat k = n) by (unfold k; lia).
  assert (Hlast : forall j, (j < cnt)%nat -> (j * k < List.length seq)%nat).
  { intros j Hj. fold L in Hb. nia. }
  assert (E : chunk_iter seq n = Ret (map (chunk_at seq k) (List.seq 0 cnt))).
  { unfold chunk_iter, py_range.
    destruct (Z.eqb_spec n 0) as [?|_]; [lia|]. simpl obind.
    fold L. rewrite (range_length_ceil L n HL Hn). fold cnt.
    rewrite map_map. f_equal. apply map_ext_in.
    intros j Hj. apply in_seq in Hj.
    apply py_slice_chunk; [assumption|]. apply Hlast. lia. }
  exists (map (chunk_at seq k) (List.seq 0 cnt)).
  assert (Hlen : List.length (map (chunk_at seq k) (List.seq 0 cnt)) = cnt)
    by now rewrite length_map, length_seq.
  split; [exact E|]. split; [now rewrite Hlen|]. split.
  - rewrite concat_chunks. apply firstn_all2. fold L in Hb. nia.
  - intros i c Hi. apply nth_error_map_seq in Hi as [Hi ->].
    rewrite Hlen. split; [reflexivity|].
    rewrite chunk_at_length. pose proof (Hlast i Hi) as Hik.
    split; intros Hsi.
    + assert (Hnext : (S i * k <= List.length seq)%nat).
      { pose proof (Hlast (S i) Hsi). simpl in *. lia. }
      simpl in Hnext. lia.
    + assert (Hend : (List.length seq <= S i * k)%nat).
      { rewrite Hsi. fold L in Hb. nia. }
      simpl in Hend. fold L. unfold L. nia.
Qed.

End Chunks.

Lemma chunk_iter_spec_witness :
  exists chunks,
    chunk_iter [1; 2; 3; 4; 5; 6; 7] 3 = Ret chunks /\
    Z.of_nat (List.length chunks) = 3 /\
    List.concat chunks = [1; 2; 3; 4; 5; 6; 7].
Proof.
  destruct (chunk_iter_spec [1; 2; 3; 4; 5; 6; 7] 3 ltac:(lia))
    as (chunks & E & Hlen & Hcat & _).
  exists chunks. split; [exact E | split; [exact Hlen | exact Hcat]].
Defined.

(* ------------------------------------------------------------------------- *)
(** ** Row mapping *)

Section RowMapping.

Variable lim : N.
Variable dt : cell -> outcome datetime.

Lemma missing_none (required : list string) (df : DataFrame) :
  missing_columns required df = [] ->
  forall c, In c required -> has_column (columns df) c = true.
Proof.
  unfold missing_columns. intros H c Hc.
  destruct (has_column (columns df) c) eqn:E; [reflexivity|].
  assert (Hin : In c (filter (fun c => negb (has_column (columns df) c)) required)).
  { apply filter_In. split; [assumption | now rewrite E]. }
  rewrite H in Hin. contradiction.
Qed.

Lemma getitem_has (cols : list string) (r : list cell) (name : string) :
  has_column cols name = true -> exists c, getitem cols r name = Ret c.
Proof.
  unfold getitem, has_column. intros H.
  assert (E : exists i, index_of name cols = Some i).
  { induction cols as [|x cols IH]; simpl in *; [discriminate|].
    destruct (String.eqb name x); [now exists O|].
    destruct (IH H) as [i Hi]. rewrite Hi. now exists (S i). }
  destruct E as [i ->]. eauto.
Qed.

Lemma index_of_first (name : string) (cols : list string) (j : nat) :
  index_of name cols = Some j ->
  nth_error cols j = Some name /\
  forall j', (j' < j)%nat -> nth_error cols j' <> Some name.
Proof.
  revert j. induction cols as [|x cols IH]; simpl; intros j H; [discriminate|].
  destruct (String.eqb_spec name x) as [->|Hne].
  - injection H as <-. split; [reflexivity | intros j' Hj'; lia].
  - destruct (index_of name cols) as [i|]; [|discriminate].
    injection H as <-. destruct (IH i eq_refl) as [Hn Hf].
    split; [exact Hn|].
    intros [|j'] Hj'; simpl; [congruence | apply Hf; lia].
Qed.

(** [r[name]] is the cell of the record under that field. *)
Lemma getitem_field (cols : list string) (r : list cell) (name : string)
  (c : cell) :
  getitem cols r name = Ret c -> field_cell cols r name c.
Proof.
  unfold getitem. destruct (index_of name cols) as [j|] eqn:E; [|discriminate].
  intros H. injection H as <-. exists j.
  destruct (index_of_first _ _ _ E) as [Hn Hf]. now repeat split.
Qed.

Lemma coercer_ret (ty : column_type) (c : cell) :
  exists v, coercer lim dt ty c = Ret v /\
            (coercion_fails lim dt ty c -> v = VNone).
Proof.
  destruct ty; simpl.
  - rewrite to_int_eq. eexists. split; [reflexivity|].
    intros [e He]. rewrite He. now destruct (blank c).
  - rewrite to_text_eq. eexists. split; [reflexivity | contradiction].
  - rewrite to_numeric_eq. eexists. split; [reflexivity|].
    intros [e He]. rewrite He. now destruct (blank c).
  - rewrite to_date_eq. eexists. split; [reflexivity|].
    intros [[e He] | He]; rewrite He; now destruct (blank c).
Qed.

(** The row mapper of the specification on a record whose header has every
    source field: one value per line of the binding, each the coercion of
    the field of that line. *)
Lemma bound_row_ok (bs : list binding) (cols : list string) (r : list cell) :
  (forall b, In b bs -> has_column cols (source_field b) = true) ->
  exists t,
    bound_row lim dt bs cols r = Ret t /\
    List.length t = List.length bs /\
    forall k b, nth_error bs k = Some b ->
      exists c, getitem cols r (source_field b) = Ret c /\
                field_cell cols r (source_field b) c /\
                coercer lim dt (dest_type b) c = Ret (nth k t VNone) /\
                (coercion_fails lim dt (dest_type b) c -> nth k t VNone = VNone).
Proof.
  unfold bound_row. induction bs as [|b bs IH]; intros Hall.
  - exists []. repeat split. intros [|k] b H; discriminate.
  - destruct IH as (t & Ht & Hlen & Hk).
    { intros b' Hb'. apply Hall. now right. }
    destruct (getitem_has cols r (source_field b) (Hall b (or_introl eq_refl)))
      as [c Hc].
    destruct (coercer_ret (dest_type b) c) as (v & Hv & Hfail).
    exists (v :: t). simpl. rewrite Hc. simpl. rewrite Hv. simpl.
    rewrite Ht. simpl. split; [reflexivity|]. split; [now rewrite Hlen|].
    intros [|k] b' H; simpl in H.
    + injection H as <-. exists c. simpl.
      split; [exact Hc|]. split; [now apply getitem_field | auto].
    + apply Hk, H.
Qed.

Lemma row_of_bound (T : table) :
  row_of lim dt T = bound_row lim dt (table_binding T).
Proof. destruct T; reflexivity. Qed.

Lemma required_binding (T : table) :
  required_fields T = map source_field (table_binding T).
Proof. destruct T; reflexivity. Qed.

Lemma sql_binding (T : table) :
  into_columns (sql_of T) = map dest_column (table_binding T)
  /\ into_table (sql_of T) = table_name T.
Proof. destruct T; split; reflexivity. Qed.

Lemma collect_ok {X Y} (f : X -> outcome Y) (rs : list X) :
  (forall r, In r rs -> exists t, f r = Ret t) ->
  exists rows, collect f rs = Ret rows /\ List.length rows = List.length rs.
Proof.
  induction rs as [|r rs IH]; intros H; simpl.
  - now exists [].
  - destruct (H r (or_introl eq_refl)) as [t Ht].
    destruct IH as (rows & E & Hlen).
    { intros r' Hr'. apply H. now right. }
    exists (t :: rows). rewrite Ht, E. simpl. now rewrite Hlen.
Qed.

Lemma collect_nth {X Y} (f : X -> outcome Y) (rs : list X) (rows : list Y) :
  collect f rs = Ret rows ->
  forall i r, nth_error rs i = Some r ->
    exists t, f r = Ret t /\ nth_error rows i = Some t.
Proof.
  revert rows. induction rs as [|x rs IH]; intros rows H i r Hi.
  - destruct i; discriminate.
  - simpl in H. destruct (f x) as [t|e] eqn:Ex; [|discriminate].
    simpl in H. destruct (collect f rs) as [rows'|e] eqn:Er; [|discriminate].
    simpl in H. injection H as <-.
    destruct i as [|i]; simpl in Hi.
    + injection Hi as <-. exists t. now split.
    + destruct (IH rows' eq_refl i r Hi) as (t' & Ht' & Hn). exists t'. now split.
Qed.

(** With every required field in the header, each record maps to a tuple. *)
Lemma row_of_ok (T : table) (df : DataFrame) (r : list cell) :
  missing_columns (required_fields T) df = [] ->
  exists t, row_of lim dt T (columns df) r = Ret t.
Proof.
  intros Hm. rewrite row_of_bound.
  destruct (bound_row_ok (table_binding T) (columns df) r) as (t & Ht & _).
  - intros b Hb. apply (missing_none _ _ Hm).
    rewrite required_binding. now apply in_map.
  - eauto.
Qed.

Lemma rows_ok (T : table) (df : DataFrame) :
  missing_columns (required_fields T) df = [] ->
  exists rows,
    collect (row_of lim dt T (columns df)) (records df) = Ret rows /\
    List.length rows = List.length (records df).
Proof.
  intros Hm. apply collect_ok. intros r _. now apply row_of_ok.
Qed.

(** C2. When the header has every required field, the row mapping of each
    loader returns one tuple per record, in the order of the records.  The
    tuple of a record is computed from that record alone: it is the same in
    every frame with this header that has the record at this place.  It has
    one value per destination column, in the order of the columns of the
    insert statement: the value number [k] is the coercion, by the coercer
    of the type of column [k], of the record's own cell under the source
    field bound to that column (the cell at the place of that field in the
    header); when that coercion fails the value is None. *)
Theorem row_mapping (T : table) (df : DataFrame) :
  missing_columns (required_fields T) df = [] ->
  exists rows,
    collect (row_of lim dt T (columns df)) (records df) = Ret rows /\
    List.length rows = List.length (records df) /\
    forall i r, nth_error (records df) i = Some r ->
      exists t,
        nth_error rows i = Some t /\
        row_of lim dt T (columns df) r = Ret t /\
        (forall recs' rows',
           collect (row_of lim dt T (columns df)) recs' = Ret rows' ->
           nth_error recs' i = Some r -> nth_error rows' i = Some t) /\
        List.length t = List.length (into_columns (sql_of T)) /\
        forall k b, nth_error (table_binding T) k = Some b ->
          nth_error (into_columns (sql_of T)) k = Some (dest_column b) /\
          exists c,
            getitem (columns df) r (source_field b) = Ret c /\
            field_cell (columns df) r (source_field b) c /\
            coercer lim dt (dest_type b) c = Ret (nth k t VNone) /\
            (coercion_fails lim dt (dest_type b) c -> nth k t VNone = VNone).
Proof.
  intros Hm. destruct (rows_ok T df Hm) as (rows & E & Hlen).
  exists rows. split; [exact E|]. split; [exact Hlen|].
  intros i r Hi.
  destruct (collect_nth _ _ _ E i r Hi) as (t & Ht & Hn).
  exists t. split; [exact Hn|]. split; [exact Ht|]. split.
  - intros recs' rows' E' Hi'.
    destruct (collect_nth _ _ _ E' i r Hi') as (t' & Ht' & Hn').
    congruence.
  - rewrite row_of_bound in Ht.
    destruct (bound_row_ok (table_binding T) (columns df) r) as (t' & Ht' & Hl & Hk).
    { intros b Hb. apply (missing_none _ _ Hm).
      rewrite required_binding. now apply in_map. }
    assert (t' = t) by congruence. subst t'.
    destruct (sql_binding T) as [Hcols _]. rewrite Hcols, length_map.
    split; [exact Hl|].
    intros k b Hb. split; [now apply map_nth_error | now apply Hk].
Qed.

End RowMapping.

Lemma row_mapping_witness :
  exists rows t0 t1,
    collect (row_of 4300 sample_to_datetime GdprViolationsDerived
               (columns sample_violations)) (records sample_violations)
    = Ret rows /\
    List.length rows = 2%nat /\
    nth_error rows 0 = Some t0 /\ nth_error rows 1 = Some t1 /\
    nth 5 t0 VNone = VNone /\
    nth 5 t1 VNone = VDate (mkdate 2019 10 17) /\
    nth 3 t1 VNone = VDecimal (DFinite false 250050 (-2)).
Proof.
  destruct (row_mapping 4300 sample_to_datetime GdprViolationsDerived
              sample_violations eq_refl) as (rows & E & Hlen & Hrows).
  destruct (Hrows 0%nat _ eq_refl) as (t0 & Ht0 & _ & _ & _ & Hk0).
  destruct (Hrows 1%nat _ eq_refl) as (t1 & Ht1 & _ & _ & _ & Hk1).
  exists rows, t0, t1.
  split; [exact E|]. split; [exact Hlen|].
  split; [exact Ht0|]. split; [exact Ht1|].
  split; [|split].
  - destruct (Hk0 5%nat _ eq_refl) as (_ & c & _ & (j & Hj & _ & ->) & _ & Hfail).
    apply Hfail.
    repeat (destruct j as [|j]; simpl in Hj;
            [try discriminate Hj | try discriminate Hj]).
    right. reflexivity.
  - destruct (Hk1 5%nat _ eq_refl) as (_ & c & _ & (j & Hj & _ & ->) & Hv & _).
    repeat (destruct j as [|j]; simpl in Hj;
            [try discriminate Hj | try discriminate Hj]).
    remember (nth 5 t1 VNone) as v eqn:Ev. clear Ev.
    vm_compute in Hv. now injection Hv as <-.
  - destruct (Hk1 3%nat _ eq_refl) as (_ & c & _ & (j & Hj & _ & ->) & Hv & _).
    repeat (destruct j as [|j]; simpl in Hj;
            [try discriminate Hj | try discriminate Hj]).
    remember (nth 3 t1 VNone) as v eqn:Ev. clear Ev.
    vm_compute in Hv. now injection Hv as <-.
Defined.

(** The rows of the sample file of violations: the date that cannot be read
    gives None in its row, and the other row has its date. *)
Example sample_violations_rows :
  collect (row_of 4300 sample_to_datetime GdprViolationsDerived
             (columns sample_violations)) (records sample_violations)
  = Ret [ [VInt 1; VStr "p1.png"; VStr "Poland";
           VDecimal (DFinite false 9380 0); VStr "UODO"; VNone;
           VStr "Mayor"; VStr "Art. 28 GDPR"; VStr "Non-compliance";
           VStr "http://s/1"; VStr "No agreement."; VInt 28;
           VStr EmptyString];
          [VInt 2; VStr "p2.png"; VStr "Romania";
           VDecimal (DFinite false 250050 (-2)); VStr "ANSPDCP";
           VDate (mkdate 2019 10 17); VStr "UTTIS"; VStr "Art. 12 GDPR";
           VStr "Information"; VStr "http://s/2"; VStr "No proof.";
           VInt 12; VStr "1"] ].
Proof. reflexivity. Qed.

(* ------------------------------------------------------------------------- *)
(** ** Statements *)

Section Statements.

Context {A : Type}.
Variable P : exn -> Prop.

Lemma behaves_ret (a : A) : behaves P (io_ret a).
Proof. intros st r st' H. injection H as <- <-. now split. Qed.

Lemma behaves_bind {B} (m : IO A) (k : A -> IO B) :
  behaves P m -> (forall a, behaves P (k a)) -> behaves P (io_bind m k).
Proof.
  intros Hm Hk st r st' H. unfold io_bind in H.
  destruct (m st) as [[a|e|c] st1] eqn:E; destruct (Hm _ _ _ E) as [Hc Hr].
  - destruct (Hk a _ _ _ H) as [Hc' Hr']. split; [congruence | assumption].
  - injection H as <- <-. now split.
  - contradiction.
Qed.

Lemma behaves_lift (o : outcome A) :
  (forall e, o = Raise e -> P e) -> behaves P (lift o).
Proof.
  intros Ho st r st' H. unfold lift in H.
  destruct o as [a|e]; injection H as <- <-; split; auto.
Qed.

Lemma behaves_raise (e : exn) : P e -> behaves P (@raise A e).
Proof. intros He st r st' H. injection H as <- <-. now split. Qed.

Lemma behaves_finally (body : IO A) (cleanup : IO unit) :
  behaves P body -> behaves P cleanup -> behaves P (io_finally body cleanup).
Proof.
  intros Hb Hc st r st' H. unfold io_finally in H.
  destruct (body st) as [o st1] eqn:E. destruct (Hb _ _ _ E) as [Hc1 Hr1].
  destruct (cleanup st1) as [[[]|e|c] st2] eqn:E2;
    destruct (Hc _ _ _ E2) as [Hc2 Hr2]; injection H as <- <-;
    (split; [congruence | assumption]).
Qed.

End Statements.

Lemma behaves_emit (P : exn -> Prop) (e : event) : behaves P (emit e).
Proof. intros st r st' H. injection H as <- <-. now split. Qed.

Lemma behaves_for_each {A} (P : exn -> Prop) (xs : list A) (body : A -> IO unit) :
  (forall x, behaves P (body x)) -> behaves P (for_each xs body).
Proof.
  intros Hb. induction xs as [|x xs IH]; simpl.
  - apply behaves_ret.
  - apply behaves_bind; [apply Hb | intros _; exact IH].
Qed.

Lemma behaves_db_call (P : exn -> Prop) (w : World) (op : event) :
  (forall msg, P (DatabaseError msg)) -> behaves P (db_call w op).
Proof.
  intros HP st r st' H. unfold db_call in H.
  destruct (db_fault w (trace st) op); injection H as <- <-; split; auto.
Qed.

Lemma chunk_iter_raise {A} (l : list A) (n : Z) (e : exn) :
  chunk_iter l n = Raise e -> e = ValueError "range() arg 3 must not be zero".
Proof.
  unfold chunk_iter, py_range. destruct (n =? 0); simpl; congruence.
Qed.

Lemma chunk_iter_nil {A} (n : Z) : n <> 0 -> chunk_iter (@nil A) n = Ret [].
Proof.
  intros Hn. unfold chunk_iter, py_range.
  destruct (Z.eqb_spec n 0) as [?|_]; [contradiction|].
  unfold range_length. simpl. now destruct (0 <? n).
Qed.

Lemma insert_rows_behaves (BATCH_SIZE : Z) (w : World) (sql : insert)
  (rows : list row) :
  behaves insert_failure (insert_rows BATCH_SIZE w sql rows).
Proof.
  assert (Hdb : forall msg, insert_failure (DatabaseError msg))
    by (intros msg; left; eauto).
  unfold insert_rows, with_cursor.
  apply behaves_bind; [now apply behaves_db_call | intros _].
  apply behaves_finally; [|now apply behaves_db_call].
  apply behaves_bind.
  - apply behaves_lift. intros e He. right. now apply chunk_iter_raise in He.
  - intros chunks. apply behaves_bind; [|intros _; now apply behaves_db_call].
    apply behaves_for_each. intros x. now apply behaves_db_call.
Qed.

Lemma behaves_weaken {A} (P Q : exn -> Prop) (m : IO A) :
  (forall e, P e -> Q e) -> behaves P m -> behaves Q m.
Proof.
  intros HPQ Hm st r st' H. destruct (Hm _ _ _ H) as [Hc Hr].
  split; [assumption|]. destruct r; auto.
Qed.

(* ------------------------------------------------------------------------- *)
(** ** The loaders *)

Lemma contains_wrap (x s a b : string) :
  contains x s -> contains x (a ++ s ++ b).
Proof.
  intros (a' & b' & ->). exists (a ++ a'), (b' ++ b).
  now rewrite !append_assoc.
Qed.

Lemma contains_refl (x : string) : contains x x.
Proof. exists EmptyString, EmptyString. simpl. now rewrite append_empty_r. Qed.

Lemma contains_app_l (x s b : string) : contains x s -> contains x (s ++ b).
Proof. intros H. apply (contains_wrap x s EmptyString b H). Qed.

Lemma contains_app_r (x s a : string) : contains x s -> contains x (a ++ s).
Proof.
  intros H. generalize (contains_wrap x s a EmptyString H).
  now rewrite append_empty_r.
Qed.

Lemma contains_repr_list (c : string) (l : list string) :
  In c l -> contains c (py_repr_list l).
Proof.
  intros Hin. unfold py_repr_list. apply contains_wrap.
  induction l as [|x l IH]; [contradiction|].
  assert (Hx : contains x (py_repr x)).
  { unfold py_repr. apply contains_wrap, contains_refl. }
  destruct Hin as [->|Hin].
  - destruct l as [|y l]; [exact Hx|].
    change (contains c (py_repr c ++ ", " ++ join ", " (map py_repr (y :: l)))).
    now apply contains_app_l.
  - destruct l as [|y l]; [contradiction|].
    change (contains c (py_repr x ++ ", " ++ join ", " (map py_repr (y :: l)))).
    apply contains_app_r, contains_app_r. now apply IH.
Qed.

Section LoaderProperties.

Variable lim : N.
Variable dt : cell -> outcome datetime.
Variable DB_PARAMS : db_params.
Variable CSV_GDPR_TEXT CSV_GDPR_VIOLATIONS CSV_GDPR_DATASET : string.
Variable BATCH_SIZE : Z.
Variable w : World.

Local Abbreviation load := (load lim dt BATCH_SIZE w).
Local Abbreviation row_of := (row_of lim dt).

(** The three loaders are one loader, instantiated by the table. *)
Lemma load_unfold (T : table) (conn : pyconn) (csv_path : string) :
  load T conn csv_path =
  (print (nl ++ "[" ++ table_name T ++ "] Reading: " ++ csv_path) ;;
   df <- pd_read_csv w csv_path ;;
   let missing := missing_columns (required_fields T) df in
   if negb (Nat.eqb (List.length missing) 0)
   then raise (missing_error (table_name T) missing)
   else
     rows <- lift (collect (row_of T (columns df)) (records df)) ;;
     print ("[" ++ table_name T ++ "] Rows prepared: "
            ++ str_of_nat (List.length rows)) ;;
     insert_rows BATCH_SIZE w (sql_of T) rows ;;
     print ("[" ++ table_name T ++ "] Insert complete."))%io.
Proof. destruct T; reflexivity. Qed.

Lemma load_behaves (T : table) (conn : pyconn) (csv_path : string) :
  behaves (fun _ => True) (load T conn csv_path).
Proof.
  rewrite load_unfold.
  apply behaves_bind; [apply behaves_emit | intros _].
  apply behaves_bind.
  { unfold pd_read_csv. apply behaves_bind; [apply behaves_emit | intros _].
    now apply behaves_lift. }
  intros df. cbv zeta.
  destruct (negb _); [now apply behaves_raise|].
  apply behaves_bind; [now apply behaves_lift | intros rows].
  apply behaves_bind; [apply behaves_emit | intros _].
  apply behaves_bind; [|intros _; apply behaves_emit].
  apply (behaves_weaken insert_failure); [trivial | apply insert_rows_behaves].
Qed.

Lemma io_bind_emit {B} (e : event) (k : unit -> IO B) (st : state) :
  io_bind (emit e) k st = k tt (mkstate (trace st ++ [e])%list (conn_var st)).
Proof. reflexivity. Qed.

Lemma io_bind_lift_ret {X B} (o : outcome X) (a : X) (k : X -> IO B)
  (st : state) :
  o = Ret a -> io_bind (lift o) k st = k a st.
Proof. now intros ->. Qed.

Lemma pd_read_csv_ret {B} (path : string) (df : DataFrame)
  (k : DataFrame -> IO B) (st : state) :
  read_csv w path = Ret df ->
  io_bind (pd_read_csv w path) k st
  = k df (mkstate (trace st ++ [ReadCsv path])%list (conn_var st)).
Proof.
  intros H. unfold pd_read_csv, io_bind, emit, lift. simpl. now rewrite H.
Qed.

Lemma missing_error_not_insert_failure (T : table) (m : list string) :
  ~ insert_failure (missing_error (table_name T) m).
Proof.
  intros [[msg H] | H]; destruct T; discriminate H.
Qed.

(** C5. When the header of the file lacks required fields, the loader
    raises a [ValueError] whose message holds the name of the table and
    each missing field; it has then only announced and read the file, so
    no record was mapped (the error is the same whatever the records are)
    and no statement was issued.  When no required field is missing, the
    loader does not raise this error. *)
Theorem schema_check (T : table) (conn : pyconn) (csv_path : string)
  (df : DataFrame) (st : state) :
  read_csv w csv_path = Ret df ->
  let missing := missing_columns (required_fields T) df in
  let msg := table_name T ++ ": missing columns in CSV: "
             ++ py_repr_list missing in
  (missing <> [] ->
   load T conn csv_path st
   = (Failed (ValueError msg),
      mkstate (trace st ++ [Print (nl ++ "[" ++ table_name T ++ "] Reading: "
                                   ++ csv_path);
                           ReadCsv csv_path])%list (conn_var st)) /\
   contains (table_name T) msg /\
   forall c, In c missing -> contains c msg) /\
  (missing = [] ->
   forall m, fst (load T conn csv_path st)
             <> Failed (missing_error (table_name T) m)).
Proof.
  intros Hread missing msg. split.
  - intros Hne. split; [|split].
    + rewrite load_unfold.
      unfold io_bind, print, pd_read_csv, io_bind, emit, lift. simpl.
      rewrite Hread. fold missing.
      destruct missing as [|c cs] eqn:Em; [congruence|]. simpl.
      unfold raise, missing_error. rewrite <- app_assoc. reflexivity.
    + unfold msg. apply contains_app_l, contains_refl.
    + intros c Hc. unfold msg. apply contains_app_r, contains_app_r.
      now apply contains_repr_list.
  - intros Hm m Hfail.
    destruct (rows_ok lim dt T df Hm) as (rows & Hrows & _).
    rewrite load_unfold in Hfail. unfold print in Hfail.
    rewrite io_bind_emit, (pd_read_csv_ret _ _ _ _ Hread) in Hfail.
    cbv zeta in Hfail. unfold missing in Hm. rewrite Hm in Hfail.
    cbn [List.length Nat.eqb negb] in Hfail.
    rewrite (io_bind_lift_ret _ _ _ _ Hrows), io_bind_emit in Hfail.
    unfold io_bind at 1 in Hfail.
    match type of Hfail with
    | context [insert_rows ?b ?w' ?q ?r ?s] =>
        destruct (insert_rows b w' q r s) as [[[]|e|c] st1] eqn:E;
        pose proof (insert_rows_behaves b w' q r _ _ _ E) as [_ Hr]
    end; simpl in Hfail.
    + discriminate.
    + injection Hfail as ->. now apply missing_error_not_insert_failure in Hr.
    + discriminate.
Qed.

(** C10, amended.  A file with every required field in its header and no
    data row, and a batch size other than 0: the batcher yields no chunk,
    and the loader, on a database that accepts the cursor, the commit and
    the close of the cursor, opens a cursor, issues no insert statement,
    commits, and returns normally. *)
Theorem empty_file_load (T : table) (conn : pyconn) (csv_path : string)
  (df : DataFrame) (st : state) :
  read_csv w csv_path = Ret df ->
  missing_columns (required_fields T) df = [] ->
  records df = [] ->
  BATCH_SIZE <> 0 ->
  (forall tr, db_fault w tr Cursor = None) ->
  (forall tr, db_fault w tr Commit = None) ->
  (forall tr, db_fault w tr CursorClose = None) ->
  chunk_iter (@nil row) BATCH_SIZE = Ret [] /\
  load T conn csv_path st
  = (Done tt,
     mkstate (trace st ++
              [Print (nl ++ "[" ++ table_name T ++ "] Reading: " ++ csv_path);
               ReadCsv csv_path;
               Print ("[" ++ table_name T ++ "] Rows prepared: 0");
               Cursor; Commit; CursorClose;
               Print ("[" ++ table_name T ++ "] Insert complete.")])%list
       (conn_var st)).
Proof.
  intros Hread Hm Hrec Hb Hcur Hcom Hclose.
  split; [now apply chunk_iter_nil|].
  rewrite load_unfold.
  unfold io_bind, print, pd_read_csv, io_bind, emit, lift. simpl.
  rewrite Hread, Hm, Hrec. simpl.
  unfold insert_rows, with_cursor, io_bind, io_finally, db_call, lift. simpl.
  rewrite Hcur, (chunk_iter_nil BATCH_SIZE Hb). simpl.
  rewrite Hcom. simpl. rewrite Hclose.
  cbn [trace conn_var]. rewrite <- !app_assoc. reflexivity.
Qed.

End LoaderProperties.

Lemma schema_check_witness :
  load 4300 sample_to_datetime 5000 world_bad_header GdprViolationsDerived
    Connection "violations.csv" (mkstate [] None)
  = (Failed (ValueError
       "gdpr_violations_derived: missing columns in CSV: ['controller']"),
     mkstate [Print (nl ++ "[gdpr_violations_derived] Reading: violations.csv");
              ReadCsv "violations.csv"] None).
Proof.
  refine (proj1 (proj1 (schema_check 4300 sample_to_datetime 5000
                          world_bad_header GdprViolationsDerived Connection
                          "violations.csv" violations_without_controller
                          (mkstate [] None) eq_refl) _)).
  discriminate.
Defined.

Lemma empty_file_load_witness :
  load 4300 sample_to_datetime 5000 world_ok GdprDataset Connection
    "GDPRdataset.csv" (mkstate [] None)
  = (Done tt,
     mkstate [Print (nl ++ "[GDPR_dataset] Reading: GDPRdataset.csv");
              ReadCsv "GDPRdataset.csv";
              Print "[GDPR_dataset] Rows prepared: 0";
              Cursor; Commit; CursorClose;
              Print "[GDPR_dataset] Insert complete."] None).
Proof.
  refine (proj2 (empty_file_load 4300 sample_to_datetime 5000 world_ok
                   GdprDataset Connection "GDPRdataset.csv" empty_dataset
                   (mkstate [] None) eq_refl eq_refl eq_refl _ _ _ _));
    [discriminate | reflexivity ..].
Defined.

(** C10 as stated does not hold for a batch size of 0, which the script
    takes from the environment like any other integer: [range] rejects the
    step 0 on the empty sequence too, so on the file without data rows the
    loader raises once the cursor is open, and nothing is committed.  Nor
    does the loader complete without error when the database refuses the
    commit. *)
Lemma empty_file_zero_batch :
  obind (read_settings 4300
           (fun k => if String.eqb k "BATCH_SIZE" then Some "0" else None))
    (fun s => Ret (the_BATCH_SIZE s)) = Ret 0 /\
  missing_columns (required_fields GdprDataset) empty_dataset = [] /\
  records empty_dataset = [] /\
  load 4300 sample_to_datetime 0 world_ok GdprDataset Connection
    "GDPRdataset.csv" (mkstate [] None)
  = (Failed (ValueError "range() arg 3 must not be zero"),
     mkstate [Print (nl ++ "[GDPR_dataset] Reading: GDPRdataset.csv");
              ReadCsv "GDPRdataset.csv";
              Print "[GDPR_dataset] Rows prepared: 0";
              Cursor; CursorClose] None) /\
  load 4300 sample_to_datetime 5000 world_commit_fails GdprDataset Connection
    "GDPRdataset.csv" (mkstate [] None)
  = (Failed (DatabaseError "server closed the connection unexpectedly"),
     mkstate [Print (nl ++ "[GDPR_dataset] Reading: GDPRdataset.csv");
              ReadCsv "GDPRdataset.csv";
              Print "[GDPR_dataset] Rows prepared: 0";
              Cursor; Commit; CursorClose] None).
Proof. repeat split. Qed.

(* ------------------------------------------------------------------------- *)
(** ** The run *)

Section Run.

Variable lim : N.
Variable dt : cell -> outcome datetime.
Variable DB_PARAMS : db_params.
Variable CSV_GDPR_TEXT CSV_GDPR_VIOLATIONS CSV_GDPR_DATASET : string.
Variable BATCH_SIZE : Z.
Variable w : World.

Local Abbreviation paths :=
  [CSV_GDPR_TEXT; CSV_GDPR_VIOLATIONS; CSV_GDPR_DATASET].
Local Abbreviation try_block :=
  (main_try lim dt DB_PARAMS CSV_GDPR_TEXT CSV_GDPR_VIOLATIONS CSV_GDPR_DATASET
     BATCH_SIZE w).
Local Abbreviation the_run :=
  (run lim dt DB_PARAMS CSV_GDPR_TEXT CSV_GDPR_VIOLATIONS CSV_GDPR_DATASET
     BATCH_SIZE w).
Local Abbreviation connecting :=
  (Print ("Connecting to Postgres " ++ host DB_PARAMS ++ ":" ++ port DB_PARAMS
          ++ " db=" ++ dbname DB_PARAMS ++ " ...")).
Local Abbreviation error_line e :=
  (Print (nl ++ "An error occurred: " ++ exn_str e ++ nl)).

(** The existence check: it stops at the first path that does not exist. *)
Lemma check_files (ps : list string) (st : state) :
  for_each ps
    (fun path =>
       if negb (path_exists w path)
       then (print ("ERROR: CSV not found -> " ++ path) ;; sys_exit 1)%io
       else io_ret tt) st
  = match first_missing w ps with
    | Some p =>
        (Exited 1,
         mkstate (trace st ++ [Print ("ERROR: CSV not found -> " ++ p)])%list
           (conn_var st))
    | None => (Done tt, st)
    end.
Proof.
  unfold first_missing. induction ps as [|p ps IH]; simpl; [reflexivity|].
  unfold io_bind at 1. destruct (negb (path_exists w p)) eqn:E.
  - reflexivity.
  - simpl. apply IH.
Qed.

(** The [try] block: it never exits, and [conn] is bound at its end exactly
    when the call to [connect] returned. *)
Lemma main_try_conn (r : result unit) (st1 : state) :
  try_block (mkstate [] None) = (r, st1) ->
  (forall c, r <> Exited c) /\
  conn_var st1 =
  match db_fault w [connecting] (Connect DB_PARAMS) with
  | None => Some Connection
  | Some _ => None
  end.
Proof.
  unfold main_try. unfold print at 1. rewrite io_bind_emit.
  unfold io_bind at 1. unfold db_call at 1. cbn [trace conn_var app].
  destruct (db_fault w [connecting] (Connect DB_PARAMS)) as [msg|].
  - intros H. injection H as <- <-. split; [discriminate | reflexivity].
  - unfold io_bind at 1. unfold set_conn at 1.
    intros H.
    match type of H with
    | ?m ?s = _ =>
        assert (Hb : behaves (fun _ => True) m)
    end.
    { apply behaves_bind; [apply behaves_emit | intros _].
      apply behaves_bind;
        [exact (load_behaves lim dt BATCH_SIZE w GdprText Connection
                  CSV_GDPR_TEXT) | intros _].
      apply behaves_bind;
        [exact (load_behaves lim dt BATCH_SIZE w GdprViolationsDerived Connection
                  CSV_GDPR_VIOLATIONS)
        | intros _].
      apply behaves_bind;
        [exact (load_behaves lim dt BATCH_SIZE w GdprDataset Connection
                  CSV_GDPR_DATASET) | intros _].
      apply behaves_emit. }
    destruct (Hb _ _ _ H) as [Hc Hr]. split.
    + intros c ->. exact Hr.
    + exact Hc.
Qed.

Lemma run_missing (p : string) :
  first_missing w paths = Some p ->
  the_run = (1, [Print ("ERROR: CSV not found -> " ++ p)]).
Proof.
  intros H. unfold run, main.
  unfold io_bind at 1. rewrite check_files, H. reflexivity.
Qed.

Lemma first_missing_none :
  (forall p, In p paths -> path_exists w p = true) ->
  first_missing w paths = None.
Proof.
  intros H. unfold first_missing.
  destruct (find _ _) as [p|] eqn:E; [|reflexivity].
  apply find_some in E as [Hin Hp]. rewrite (H p Hin) in Hp. discriminate.
Qed.

(** The end of a run with all paths present, by the way the [try] block
    ended and by what the rollback and the close do. *)
Lemma run_end (r : result unit) (st1 : state) :
  (forall p, In p paths -> path_exists w p = true) ->
  try_block (mkstate [] None) = (r, st1) ->
  the_run
  = match r, conn_var st1 with
    | Done _, None => (0, trace st1 ++ [Print "Connection closed."])
    | Done _, Some _ =>
        match db_fault w (trace st1) Close with
        | None => (0, trace st1 ++ [Close; Print "Connection closed."])
        | Some _ => (1, trace st1 ++ [Close])
        end
    | Failed e, None =>
        (0, trace st1 ++ [error_line e; Print "Connection closed."])
    | Failed e, Some _ =>
        match db_fault w (trace st1 ++ [error_line e]) Rollback,
              db_fault w (trace st1 ++ [error_line e; Rollback]) Close with
        | None, None =>
            (0, trace st1 ++ [error_line e; Rollback; Close;
                              Print "Connection closed."])
        | Some _, None =>
            (1, trace st1 ++ [error_line e; Rollback; Close;
                              Print "Connection closed."])
        | _, Some _ => (1, trace st1 ++ [error_line e; Rollback; Close])
        end
    | Exited c, _ => (c, trace st1)
    end%list.
Proof.
  intros Hall Htry. apply first_missing_none in Hall.
  destruct (main_try_conn r st1 Htry) as [Hexit _].
  unfold run, main.
  unfold io_bind at 1. rewrite check_files, Hall.
  unfold io_bind at 1. unfold set_conn at 1. cbn [trace].
  unfold io_finally, io_try_except. rewrite Htry.
  destruct r as [[]|e|c]; [| |now elim (Hexit c)].
  - unfold main_finally, io_bind, get_conn, db_call, print, emit.
    destruct (conn_var st1); cbn [trace conn_var]; [|reflexivity].
    destruct (db_fault w (trace st1) Close); cbn [trace conn_var];
      now rewrite <- ?app_assoc.
  - unfold main_except, main_finally, io_bind, get_conn, db_call, print, emit,
      io_ret.
    cbn [trace conn_var].
    destruct (conn_var st1); cbn [trace conn_var].
    + replace (trace st1 ++ [error_line e; Rollback])%list
        with ((trace st1 ++ [error_line e]) ++ [Rollback])%list
        by (now rewrite <- app_assoc).
      destruct (db_fault w (trace st1 ++ [error_line e]) Rollback);
        cbn [trace conn_var];
        destruct (db_fault w _ Close); cbn [trace conn_var];
        now rewrite <- ?app_assoc.
    + now rewrite <- ?app_assoc.
Qed.

End Run.

(** C6, amended.  When [int] rejects the value of [BATCH_SIZE] the script
    ends with status 1 before [main] is called.  Otherwise: when a
    configured path does not exist the process prints the first such path
    and exits with status 1, and nothing else has happened (no connection
    was opened).  When all paths exist, the [try] block never exits the
    process, and an exception raised in it, by the connection or by a
    loader, is caught and printed; it is followed by a rollback when the
    connection had been opened, and by none when [connect] itself raised
    ([conn] is still None); a connection that was opened is closed.  The
    process then exits with status 0, unless the rollback or the close
    itself raised: that exception leaves [main] and the status is 1. *)
Theorem main_exit_status (lim : N) (dt : cell -> outcome datetime)
  (environ : string -> option string) (w : World) :
  (forall e, read_settings lim environ = Raise e ->
     script lim dt environ w = (1, [])) /\
  (forall s, read_settings lim environ = Ret s ->
     let paths :=
       [the_CSV_GDPR_TEXT s; the_CSV_GDPR_VIOLATIONS s;
        the_CSV_GDPR_DATASET s] in
     let connecting :=
       Print ("Connecting to Postgres " ++ host (the_DB_PARAMS s) ++ ":"
              ++ port (the_DB_PARAMS s) ++ " db=" ++ dbname (the_DB_PARAMS s)
              ++ " ...") in
     let error_line := fun e =>
       Print (nl ++ "An error occurred: " ++ exn_str e ++ nl) in
     (forall p, first_missing w paths = Some p ->
        In p paths /\ path_exists w p = false /\
        script lim dt environ w
        = (1, [Print ("ERROR: CSV not found -> " ++ p)])) /\
     ((forall p, In p paths -> path_exists w p = true) ->
      forall r st1,
        main_try lim dt (the_DB_PARAMS s) (the_CSV_GDPR_TEXT s)
          (the_CSV_GDPR_VIOLATIONS s) (the_CSV_GDPR_DATASET s)
          (the_BATCH_SIZE s) w (mkstate [] None) = (r, st1) ->
        let opened :=
          match db_fault w [connecting] (Connect (the_DB_PARAMS s)) with
          | None => true
          | Some _ => false
          end in
        let caught :=
          match r with
          | Failed e => error_line e :: (if opened then [Rollback] else [])
          | _ => []
          end in
        let rollback_raised :=
          match r with
          | Failed e =>
              if opened
              then match db_fault w (trace st1 ++ [error_line e]) Rollback with
                   | Some _ => true
                   | None => false
                   end
              else false
          | _ => false
          end in
        let close_raised :=
          if opened
          then match db_fault w (trace st1 ++ caught) Close with
               | Some _ => true
               | None => false
               end
          else false in
        (forall c, r <> Exited c) /\
        script lim dt environ w
        = (if rollback_raised || close_raised then 1 else 0,
           trace st1 ++ caught
           ++ (if opened then [Close] else [])
           ++ (if close_raised then [] else [Print "Connection closed."]))%list)).
Proof.
  split.
  - intros e H. unfold script. now rewrite H.
  - intros s Hs. cbv zeta. unfold script. rewrite Hs. split.
    + intros p Hp. pose proof Hp as Hfind. unfold first_missing in Hfind.
      apply find_some in Hfind as [Hin Hex]. apply negb_true_iff in Hex.
      split; [exact Hin|]. split; [exact Hex|]. now apply run_missing.
    + intros Hall r st1 Htry.
      destruct (main_try_conn _ _ _ _ _ _ _ _ r st1 Htry) as [Hexit Hc].
      split; [exact Hexit|].
      rewrite (run_end _ _ _ _ _ _ _ _ r st1 Hall Htry), Hc.
      destruct r as [[]|e|c]; [| |now elim (Hexit c)].
      * destruct (db_fault w _ (Connect (the_DB_PARAMS s)));
          cbn [orb app]; rewrite ?app_nil_r; [reflexivity|].
        now destruct (db_fault w (trace st1) Close).
      * destruct (db_fault w _ (Connect (the_DB_PARAMS s)));
          cbn [orb app]; [reflexivity|].
        replace (trace st1 ++ [Print (nl ++ "An error occurred: " ++ exn_str e ++ nl);
                               Rollback])%list
          with ((trace st1 ++ [Print (nl ++ "An error occurred: "
                                      ++ exn_str e ++ nl)]) ++ [Rollback])%list
          by (now rewrite <- app_assoc).
        destruct (db_fault w (trace st1 ++ [_]) Rollback);
          destruct (db_fault w _ Close); cbn [orb];
          now rewrite <- ?app_assoc.
Qed.

Lemma main_exit_status_witness :
  script 4300 sample_to_datetime sample_environ world_missing_file
  = (1, [Print "ERROR: CSV not found -> violations.csv"]) /\
  script 4300 sample_to_datetime sample_environ world_bad_header
  = (0,
     [Print "Connecting to Postgres localhost:5432 db=capstone ...";
      Connect sample_params; Print "Connected.";
      Print (nl ++ "[gdpr_text] Reading: gdpr_text.csv");
      ReadCsv "gdpr_text.csv"; Print "[gdpr_text] Rows prepared: 2";
      Cursor;
      ExecuteValues (sql_of GdprText)
        [ [VInt 1; VStr "General provisions"; VInt 1; VStr "Subject-matter";
           VStr "1"; VStr "This Regulation lays down rules.";
           VStr "http://a/1"];
          [VInt 1; VStr "General provisions"; VInt 2; VStr "Material scope";
           VStr EmptyString; VStr "This Regulation applies.";
           VStr "http://a/2"] ];
      Commit; CursorClose; Print "[gdpr_text] Insert complete.";
      Print (nl ++ "[gdpr_violations_derived] Reading: violations.csv");
      ReadCsv "violations.csv";
      Print (nl ++ "An error occurred: gdpr_violations_derived: "
             ++ "missing columns in CSV: ['controller']" ++ nl);
      Rollback; Close; Print "Connection closed."]).
Proof.
  destruct (main_exit_status 4300 sample_to_datetime sample_environ
              world_missing_file) as [_ H1].
  destruct (main_exit_status 4300 sample_to_datetime sample_environ
              world_bad_header) as [_ H2].
  split.
  - exact (proj2 (proj2 (proj1 (H1 _ eq_refl) "violations.csv" eq_refl))).
  - exact (proj2 (proj2 (H2 _ eq_refl) (fun _ _ => eq_refl) _ _
                    (surjective_pairing _))).
Defined.

(** C6 as stated does not hold, in three runs with every configured file
    in place.  When [connect] raises, the exception is raised inside the
    [try] block, it is caught and printed and the process exits with
    status 0, but no rollback follows, since [conn] is still None.  When a
    statement raises and the rollback raises too, the exception of the
    rollback leaves [main] and the process exits with status 1.  When
    [BATCH_SIZE] is [5k], the script ends with status 1 before [main]. *)
Lemma exit_status_counterexample :
  (main_try 4300 sample_to_datetime sample_params
     "gdpr_text.csv" "violations.csv" "GDPRdataset.csv" 5000 world_refused
     (mkstate [] None)
   = (Failed (DatabaseError "connection refused"),
      mkstate [Print "Connecting to Postgres localhost:5432 db=capstone ...";
               Connect sample_params] None) /\
   sample_run world_refused
   = (0, [Print "Connecting to Postgres localhost:5432 db=capstone ...";
          Connect sample_params;
          Print (nl ++ "An error occurred: connection refused" ++ nl);
          Print "Connection closed."]) /\
   ~ In Rollback (snd (sample_run world_refused))) /\
  (first_missing world_broken
     ["gdpr_text.csv"; "violations.csv"; "GDPRdataset.csv"] = None /\
   fst (main_try 4300 sample_to_datetime sample_params
          "gdpr_text.csv" "violations.csv" "GDPRdataset.csv" 5000 world_broken
          (mkstate [] None))
   = Failed (DatabaseError "server closed the connection unexpectedly") /\
   fst (sample_run world_broken) = 1) /\
  (first_missing world_ok
     ["/workspaces/AI-Capstone/gdpr_text.csv";
      "/workspaces/AI-Capstone/gdpr_violations_with_derivatives_clean.csv";
      "/workspaces/AI-Capstone/GDPRdataset.csv"] = None /\
   script 4300 sample_to_datetime
     (fun k => if String.eqb k "BATCH_SIZE" then Some "5k" else None) world_ok
   = (1, [])).
Proof.
  split; [|split; repeat split].
  split; [reflexivity | split; [reflexivity|]].
  intros H. vm_compute in H.
  repeat (destruct H as [H|H]; [discriminate H|]). exact H.
Qed.

(** A run on the sample files: the two records of the first file go in one
    batch and in file order, the empty third file gives no insert, and each
    table is committed on its own. *)
Example sample_run_database_calls :
  fst (sample_run world_ok) = 0 /\
  database_calls (snd (sample_run world_ok))
  = [ Connect sample_params;
      Cursor;
      ExecuteValues (sql_of GdprText)
        [ [VInt 1; VStr "General provisions"; VInt 1; VStr "Subject-matter";
           VStr "1"; VStr "This Regulation lays down rules.";
           VStr "http://a/1"];
          [VInt 1; VStr "General provisions"; VInt 2; VStr "Material scope";
           VStr EmptyString; VStr "This Regulation applies.";
           VStr "http://a/2"] ];
      Commit; CursorClose;
      Cursor;
      ExecuteValues (sql_of GdprViolationsDerived)
        [ [VInt 1; VStr "p1.png"; VStr "Poland";
           VDecimal (DFinite false 9380 0); VStr "UODO"; VNone;
           VStr "Mayor"; VStr "Art. 28 GDPR"; VStr "Non-compliance";
           VStr "http://s/1"; VStr "No agreement."; VInt 28;
           VStr EmptyString];
          [VInt 2; VStr "p2.png"; VStr "Romania";
           VDecimal (DFinite false 250050 (-2)); VStr "ANSPDCP";
           VDate (mkdate 2019 10 17); VStr "UTTIS"; VStr "Art. 12 GDPR";
           VStr "Information"; VStr "http://s/2"; VStr "No proof.";
           VInt 12; VStr "1"] ];
      Commit; CursorClose;
      Cursor; Commit; CursorClose;
      Close ].
Proof. split; reflexivity. Qed.

(** With a batch size of 1 each record goes in a statement of its own. *)
Example sample_run_batches_of_one :
  List.length
    (filter (fun e => match e with ExecuteValues _ _ => true | _ => false end)
       (snd (run 4300 sample_to_datetime sample_params
               "gdpr_text.csv" "violations.csv" "GDPRdataset.csv" 1 world_ok)))
  = 4%nat.
Proof. reflexivity. Qed.

(* ========================================================================= *)
(** * Further properties *)

(* ------------------------------------------------------------------------- *)
(** ** The batcher at its edges *)

Section ChunkEdges.

Context {A : Type}.

(** The chunks for a size [n >= 1], by their number. *)
Lemma chunk_iter_chunks (seq : list A) (n : Z) :
  1 <= n ->
  chunk_iter seq n
  = Ret (map (chunk_at seq (Z.to_nat n))
           (List.seq 0 (Z.to_nat (ceil_div (Z.of_nat (List.length seq)) n)))).
Proof.
  intros Hn.
  set (L := Z.of_nat (List.length seq)).
  assert (HL : 0 <= L) by (unfold L; lia).
  pose proof (ceil_div_bounds L n HL Hn) as Hb.
  unfold chunk_iter, py_range.
  destruct (Z.eqb_spec n 0) as [?|_]; [lia|]. simpl obind. fold L.
  rewrite (range_length_ceil L n HL Hn), map_map.
  f_equal. apply map_ext_in. intros j Hj. apply in_seq in Hj.
  apply py_slice_chunk; [assumption|]. fold L in Hb. nia.
Qed.

Lemma chunk_iter_concat (seq : list A) (n : Z) (chunks : list (list A)) :
  1 <= n -> chunk_iter seq n = Ret chunks -> List.concat chunks = seq.
Proof.
  intros Hn H. rewrite (chunk_iter_chunks seq n Hn) in H. injection H as <-.
  rewrite concat_chunks. apply firstn_all2.
  pose proof (ceil_div_bounds (Z.of_nat (List.length seq)) n ltac:(lia) Hn).
  nia.
Qed.

Lemma chunk_iter_zero (seq : list A) :
  chunk_iter seq 0 = Raise (ValueError "range() arg 3 must not be zero").
Proof. reflexivity. Qed.

Lemma chunk_iter_negative (seq : list A) (n : Z) :
  n < 0 -> chunk_iter seq n = Ret [].
Proof.
  intros Hn. unfold chunk_iter, py_range.
  destruct (Z.eqb_spec n 0) as [?|_]; [lia|].
  unfold range_length.
  destruct (Z.ltb_spec 0 n) as [?|_]; [lia|].
  destruct (Z.ltb_spec (Z.of_nat (List.length seq)) 0) as [?|_]; [lia|].
  reflexivity.
Qed.

(** X1. A chunk size of 0 makes the generator raise [ValueError] on every
    sequence, the empty one included; a negative chunk size makes it yield
    no chunk at all, whatever the sequence holds. *)
Theorem chunk_iter_nonpositive (seq : list A) (n : Z) :
  (n = 0 ->
   chunk_iter seq n = Raise (ValueError "range() arg 3 must not be zero")) /\
  (n < 0 -> chunk_iter seq n = Ret []).
Proof.
  split; intros Hn.
  - subst n. apply chunk_iter_zero.
  - now apply chunk_iter_negative.
Qed.

(** X2. A non-empty sequence no longer than the chunk size comes out as one
    chunk, the sequence itself. *)
Theorem chunk_iter_single (seq : list A) (n : Z) :
  seq <> [] -> Z.of_nat (List.length seq) <= n ->
  chunk_iter seq n = Ret [seq].
Proof.
  intros Hne Hle.
  assert (Hpos : 1 <= Z.of_nat (List.length seq)).
  { destruct seq; [congruence | simpl; lia]. }
  rewrite chunk_iter_chunks by lia.
  assert (E : ceil_div (Z.of_nat (List.length seq)) n = 1).
  { unfold ceil_div.
    replace (Z.of_nat (List.length seq) + n - 1)
      with (Z.of_nat (List.length seq) - 1 + 1 * n) by lia.
    rewrite Z.div_add by lia. rewrite Z.div_small by lia. reflexivity. }
  rewrite E. simpl. unfold chunk_at. simpl.
  rewrite firstn_all2 by lia. reflexivity.
Qed.

End ChunkEdges.

Lemma chunk_iter_nonpositive_witness :
  chunk_iter [1; 2; 3] 0 = Raise (ValueError "range() arg 3 must not be zero")
  /\ chunk_iter [1; 2; 3] (-2) = Ret [].
Proof.
  split.
  - exact (proj1 (chunk_iter_nonpositive [1; 2; 3] 0) eq_refl).
  - exact (proj2 (chunk_iter_nonpositive [1; 2; 3] (-2)) eq_refl).
Defined.

Lemma chunk_iter_single_witness :
  chunk_iter [1; 2; 3] 5000 = Ret [[1; 2; 3]].
Proof.
  refine (chunk_iter_single [1; 2; 3] 5000 _ _); [discriminate | simpl; lia].
Defined.

(* ------------------------------------------------------------------------- *)
(** ** More on the coercers *)

(** X3. [to_text] is idempotent: the string it returns is returned
    unchanged when it is given back to it. *)
Theorem to_text_idempotent (v : cell) (t : string) :
  to_text v = Ret (VStr t) -> to_text (Str t) = Ret (VStr t).
Proof.
  rewrite !to_text_eq. simpl. intros H. injection H as <-.
  destruct v as [|s]; simpl; [reflexivity|]. now rewrite strip_idempotent.
Qed.

Lemma to_text_idempotent_witness :
  to_text (Str "Subject-matter") = Ret (VStr "Subject-matter").
Proof.
  exact (to_text_idempotent (Str "  Subject-matter ") "Subject-matter" eq_refl).
Defined.

(** X4. Whitespace around a field does not matter to [to_int], [to_text]
    and [to_numeric]: padding the string at both ends gives the same
    result. *)
Theorem padding_ignored (lim : N) (a s b : string) :
  all_space a = true -> all_space b = true ->
  to_int lim (Str (a ++ s ++ b)) = to_int lim (Str s) /\
  to_text (Str (a ++ s ++ b)) = to_text (Str s) /\
  to_numeric (Str (a ++ s ++ b)) = to_numeric (Str s).
Proof.
  intros Ha Hb.
  rewrite !to_int_eq, !to_text_eq, !to_numeric_str. unfold blank. simpl.
  rewrite (strip_pad a s b Ha Hb).
  rewrite !remove_char_app, (remove_comma_all_space a Ha),
    (remove_comma_all_space b Hb), (strip_pad a _ b Ha Hb).
  repeat split.
Qed.

Lemma padding_ignored_witness :
  to_int 4300 (Str ("  " ++ "28" ++ " ")) = to_int 4300 (Str "28") /\
  to_numeric (Str ("  " ++ "9,380" ++ " ")) = to_numeric (Str "9,380").
Proof.
  split.
  - exact (proj1 (padding_ignored 4300 "  " "28" " " eq_refl eq_refl)).
  - exact (proj2 (proj2 (padding_ignored 4300 "  " "9,380" " " eq_refl eq_refl))).
Defined.

Lemma scan_int_chars (s : string) :
  forall prev acc nd r,
    scan_int s prev acc nd = Some r -> all_int_chars s = true.
Proof.
  induction s as [|c t IH]; intros prev acc nd r; simpl; [reflexivity|].
  unfold int_char. destruct (isdigit c); simpl.
  - apply IH.
  - destruct (Ascii.eqb c "_"); simpl; [|discriminate].
    destruct prev; [discriminate | apply IH].
Qed.

Lemma split_sign_chars (t : string) :
  all_int_chars (snd (split_sign t)) = true -> all_int_chars t = true.
Proof.
  destruct t as [|c r]; [reflexivity|].
  destruct (Ascii.eqb_spec c "-"%char) as [->|Hm]; [simpl; now intros ->|].
  destruct (Ascii.eqb_spec c "+"%char) as [->|Hp]; [simpl; now intros ->|].
  now rewrite (split_sign_other c r Hm Hp).
Qed.

(** X5. [to_int] never rounds or cuts: when the trimmed input holds any
    character other than a digit, an underscore or a sign (a decimal point,
    a letter, a comma, a blank inside), the result is None. *)
Theorem to_int_rejects (lim : N) (s : string) :
  all_int_chars (strip s) = false -> to_int lim (Str s) = Ret VNone.
Proof.
  intros H. rewrite to_int_eq. destruct (blank (Str s)); [reflexivity|].
  simpl py_str. unfold py_int. rewrite skip_strip.
  destruct (split_sign (strip s)) as [neg body] eqn:Es.
  destruct (scan_int body true 0 0) as [[v nd]|] eqn:E; [|reflexivity].
  apply scan_int_chars in E.
  assert (Hb : all_int_chars (snd (split_sign (strip s))) = true)
    by now rewrite Es.
  apply split_sign_chars in Hb. congruence.
Qed.

Lemma to_int_rejects_witness :
  to_int 4300 (Str " 12.5 ") = Ret VNone /\
  to_int 4300 (Str "1 000") = Ret VNone /\
  to_int 4300 (Str "1e3") = Ret VNone.
Proof.
  exact (conj (to_int_rejects 4300 " 12.5 " eq_refl)
           (conj (to_int_rejects 4300 "1 000" eq_refl)
                 (to_int_rejects 4300 "1e3" eq_refl))).
Defined.

(** X6. Every value that a coercer returns fits the type of its column: an
    integer or None from [to_int], a string and never None from [to_text],
    a decimal or None from [to_numeric], a date or None from [to_date]; so
    each tuple that a loader builds fits, position by position, the types of
    the columns of its table. *)
Theorem row_fits_columns (lim : N) (dt : cell -> outcome datetime)
  (T : table) (cols : list string) (r : list cell) (t : row) :
  row_of lim dt T cols r = Ret t ->
  Forall2 (fun b v => fits (dest_type b) v) (table_binding T) t.
Proof.
  rewrite row_of_bound. unfold bound_row.
  generalize (table_binding T). intros bs. revert t.
  induction bs as [|b bs IH]; intros t H; simpl in H.
  - injection H as <-. constructor.
  - unfold call in H at 1.
    destruct (getitem cols r (source_field b)) as [c|e]; [|discriminate].
    simpl in H.
    destruct (coercer lim dt (dest_type b) c) as [v|e] eqn:Ev; [|discriminate].
    simpl in H.
    destruct (tuple _) as [t'|e] eqn:Et; [|discriminate].
    simpl in H. injection H as <-. constructor; [|now apply IH].
    destruct (dest_type b); simpl in Ev.
    + rewrite to_int_eq in Ev. injection Ev as <-.
      destruct (blank c); [exact I|].
      now destruct (py_int lim (strip (py_str c))).
    + rewrite to_text_eq in Ev. injection Ev as <-. exact I.
    + rewrite to_numeric_eq in Ev. injection Ev as <-.
      destruct (blank c); [exact I|].
      now destruct (py_Decimal (strip (remove_char "," (py_str c)))).
    + rewrite to_date_eq in Ev. injection Ev as <-.
      destruct (blank c); [exact I|].
      now destruct (dt c) as [[|ts]|e].
Qed.

Lemma row_fits_columns_witness :
  Forall2 (fun b v => fits (dest_type b) v) (table_binding GdprText)
    [VInt 1; VStr "General provisions"; VInt 2; VStr "Material scope";
     VStr EmptyString; VStr "This Regulation applies."; VStr "http://a/2"].
Proof.
  exact (row_fits_columns 4300 sample_to_datetime GdprText
           (columns sample_gdpr_text)
           [Str "1"; Str "General provisions"; Str "2"; Str "Material scope";
            NaN; Str "This Regulation applies."; Str "http://a/2"] _ eq_refl).
Defined.

(** X7. A loader reads the fields of a record by name: two records, under
    whatever headers, that give the same cell for every required field name
    map to the same tuple, so the order of the columns in the file and
    columns that are not required make no difference. *)
Theorem row_by_name (lim : N) (dt : cell -> outcome datetime) (T : table)
  (cols cols' : list string) (r r' : list cell) :
  (forall name, In name (required_fields T) ->
                getitem cols r name = getitem cols' r' name) ->
  row_of lim dt T cols r = row_of lim dt T cols' r'.
Proof.
  intros H. rewrite !row_of_bound. unfold bound_row. f_equal.
  apply map_ext_in. intros b Hb. rewrite H; [reflexivity|].
  rewrite required_binding. now apply in_map.
Qed.

Lemma row_by_name_witness :
  row_of 4300 sample_to_datetime GdprText (columns reordered_gdpr_text)
    [Str "http://a/1"; Str "checked"; Str "This Regulation lays down rules.";
     Str "1"; Str "1"; Str "General provisions"; Str " Subject-matter ";
     Str "1"]
  = row_of 4300 sample_to_datetime GdprText (columns sample_gdpr_text)
      [Str "1"; Str "General provisions"; Str "1"; Str " Subject-matter ";
       Str "1"; Str "This Regulation lays down rules."; Str "http://a/1"].
Proof.
  apply row_by_name. intros name H. simpl in H.
  repeat (destruct H as [<-|H]; [reflexivity|]). contradiction.
Defined.

Lemma has_column_In (cols : list string) (name : string) :
  has_column cols name = true <-> In name cols.
Proof.
  unfold has_column. rewrite existsb_exists. split.
  - intros (x & Hx & E). apply String.eqb_eq in E. now subst.
  - intros H. exists name. split; [assumption | apply String.eqb_refl].
Qed.

(** X18. The check of the header: a loader counts a required field as
    missing exactly when no column of the file has that very name, so it
    goes on exactly when every required name is a column; columns that are
    not required play no part, and so does the order of the columns. *)
Theorem missing_columns_exact (required : list string) (df : DataFrame) :
  (forall c, In c (missing_columns required df)
             <-> In c required /\ ~ In c (columns df)) /\
  (missing_columns required df = []
   <-> forall c, In c required -> In c (columns df)).
Proof.
  assert (H : forall c, In c (missing_columns required df)
                        <-> In c required /\ ~ In c (columns df)).
  { intros c. unfold missing_columns. rewrite filter_In, negb_true_iff.
    rewrite <- (has_column_In (columns df) c).
    destruct (has_column (columns df) c); intuition congruence. }
  split; [exact H|]. split.
  - intros E c Hc. apply has_column_In. now apply (missing_none required df E).
  - intros Hall.
    destruct (missing_columns required df) as [|c l] eqn:E; [reflexivity|].
    assert (Hin : In c (c :: l)) by now left.
    apply H in Hin as [Hr Hn]. now elim Hn; apply Hall.
Qed.

Lemma missing_columns_exact_witness :
  In "href" (columns reordered_gdpr_text).
Proof.
  apply (proj1 (proj2 (missing_columns_exact (required_fields GdprText)
                         reordered_gdpr_text)) eq_refl).
  simpl. tauto.
Defined.

(* ------------------------------------------------------------------------- *)
(** ** The events of a statement *)

Section Emits.

Context {A : Type}.
Variable Q : event -> Prop.

Lemma emits_ret (a : A) : emits Q (io_ret a).
Proof.
  intros st r st' H. injection H as <- <-. exists [].
  now rewrite app_nil_r.
Qed.

Lemma emits_bind {B} (m : IO A) (k : A -> IO B) :
  emits Q m -> (forall a, emits Q (k a)) -> emits Q (io_bind m k).
Proof.
  intros Hm Hk st r st' H. unfold io_bind in H.
  destruct (m st) as [[a|e|c] st1] eqn:E;
    destruct (Hm _ _ _ E) as (tr1 & Ht1 & Hq1).
  - destruct (Hk a _ _ _ H) as (tr2 & Ht2 & Hq2).
    exists (tr1 ++ tr2)%list. rewrite Ht2, Ht1, app_assoc.
    split; [reflexivity | now apply Forall_app].
  - injection H as <- <-. eauto.
  - injection H as <- <-. eauto.
Qed.

Lemma emits_lift (o : outcome A) : emits Q (lift o).
Proof.
  intros st r st' H. unfold lift in H.
  destruct o; injection H as <- <-; exists []; now rewrite app_nil_r.
Qed.

Lemma emits_raise (e : exn) : emits Q (@raise A e).
Proof.
  intros st r st' H. injection H as <- <-. exists [].
  now rewrite app_nil_r.
Qed.

Lemma emits_finally (body : IO A) (cleanup : IO unit) :
  emits Q body -> emits Q cleanup -> emits Q (io_finally body cleanup).
Proof.
  intros Hb Hc st r st' H. unfold io_finally in H.
  destruct (body st) as [o st1] eqn:E.
  destruct (Hb _ _ _ E) as (tr1 & Ht1 & Hq1).
  destruct (cleanup st1) as [[[]|e|c] st2] eqn:E2;
    destruct (Hc _ _ _ E2) as (tr2 & Ht2 & Hq2); injection H as <- <-;
    exists (tr1 ++ tr2)%list; rewrite Ht2, Ht1, app_assoc;
    (split; [reflexivity | now apply Forall_app]).
Qed.

End Emits.

Lemma emits_emit (Q : event -> Prop) (e : event) : Q e -> emits Q (emit e).
Proof.
  intros He st r st' H. injection H as <- <-. exists [e].
  split; [reflexivity | now constructor].
Qed.

Lemma emits_db_call (Q : event -> Prop) (w : World) (op : event) :
  Q op -> emits Q (db_call w op).
Proof.
  intros He st r st' H. unfold db_call in H.
  destruct (db_fault w (trace st) op); injection H as <- <-; exists [op];
    (split; [reflexivity | now constructor]).
Qed.

Lemma emits_for_each {A} (Q : event -> Prop) (xs : list A)
  (body : A -> IO unit) :
  (forall x, emits Q (body x)) -> emits Q (for_each xs body).
Proof.
  intros Hb. induction xs as [|x xs IH]; simpl.
  - apply emits_ret.
  - apply emits_bind; [apply Hb | intros _; exact IH].
Qed.

Lemma load_emits (lim : N) (dt : cell -> outcome datetime)
  (BATCH_SIZE : Z) (w : World) (T : table) (conn : pyconn)
  (csv_path : string) :
  emits (loader_event T csv_path) (load lim dt BATCH_SIZE w T conn csv_path).
Proof.
  rewrite load_unfold.
  apply emits_bind; [now apply emits_emit | intros _].
  apply emits_bind.
  { unfold pd_read_csv. apply emits_bind; [now apply emits_emit | intros _].
    apply emits_lift. }
  intros df. cbv zeta.
  destruct (negb _); [apply emits_raise|].
  apply emits_bind; [apply emits_lift | intros rows].
  apply emits_bind; [now apply emits_emit | intros _].
  apply emits_bind; [|intros _; now apply emits_emit].
  unfold insert_rows, with_cursor.
  apply emits_bind; [now apply emits_db_call | intros _].
  apply emits_finally; [|now apply emits_db_call].
  apply emits_bind; [apply emits_lift | intros chunks].
  apply emits_bind; [|intros _; now apply emits_db_call].
  apply emits_for_each. intros x. now apply emits_db_call.
Qed.

(** X8. The footprint of a loader: whatever the file and the database do,
    the loader of a table prints, reads its own file, and on the database
    opens and closes a cursor, sends statements of its own table and
    commits; it never connects, never rolls back and never closes the
    connection, and it leaves the variable [conn] alone and does not exit. *)
Theorem loader_footprint (lim : N) (dt : cell -> outcome datetime)
  (BATCH_SIZE : Z) (w : World) (T : table) (conn : pyconn)
  (csv_path : string) (st : state) (r : result unit) (st' : state) :
  load lim dt BATCH_SIZE w T conn csv_path st = (r, st') ->
  conn_var st' = conn_var st /\
  (forall c, r <> Exited c) /\
  exists tr,
    trace st' = (trace st ++ tr)%list /\
    Forall (loader_event T csv_path) tr /\
    ~ In Rollback tr /\ ~ In Close tr /\
    forall p, ~ In (Connect p) tr.
Proof.
  intros H.
  destruct (load_behaves lim dt BATCH_SIZE w T conn csv_path _ _ _ H)
    as [Hc Hr].
  destruct (load_emits lim dt BATCH_SIZE w T conn csv_path _ _ _ H)
    as (tr & Ht & Hq).
  split; [exact Hc|]. split.
  - intros c ->. exact Hr.
  - exists tr. split; [exact Ht|]. split; [exact Hq|].
    rewrite Forall_forall in Hq.
    repeat split; intros; intros Hin; exact (Hq _ Hin).
Qed.

Lemma loader_footprint_witness :
  exists tr,
    trace (snd (load 4300 sample_to_datetime 5000 world_broken GdprText
                  Connection "gdpr_text.csv" (mkstate [] None)))
    = ([] ++ tr)%list /\
    Forall (loader_event GdprText "gdpr_text.csv") tr.
Proof.
  destruct (loader_footprint 4300 sample_to_datetime 5000 world_broken
              GdprText Connection "gdpr_text.csv" (mkstate [] None) _ _
              (surjective_pairing _)) as (_ & _ & tr & Ht & Hq & _).
  exists tr. split; [exact Ht | exact Hq].
Defined.

(* ------------------------------------------------------------------------- *)
(** ** The insertion block *)

Section InsertBlock.

Variable BATCH_SIZE : Z.
Variable w : World.
Variable sql : insert.

(** The loop over the chunks sends them in order and stops at the first
    statement that raises. *)
Lemma for_each_statements (chunks : list (list row)) :
  forall st r st',
    for_each chunks (fun chunk => db_call w (ExecuteValues sql chunk)) st
    = (r, st') ->
    conn_var st' = conn_var st /\
    exists k,
      (k <= List.length chunks)%nat /\
      trace st' = (trace st ++ map (ExecuteValues sql) (firstn k chunks))%list /\
      (r = Done tt /\ k = List.length chunks \/
       (exists msg, r = Failed (DatabaseError msg)) /\ (1 <= k)%nat).
Proof.
  induction chunks as [|c chunks IH]; intros st r st' H; simpl in H.
  - injection H as <- <-. split; [reflexivity|]. exists O.
    simpl. rewrite app_nil_r. auto.
  - unfold io_bind, db_call in H.
    destruct (db_fault w (trace st) (ExecuteValues sql c)) as [msg|].
    + injection H as <- <-. split; [reflexivity|]. exists 1%nat.
      simpl. split; [lia|]. split; [reflexivity|]. right. split; [eauto | lia].
    + apply IH in H as (Hc & k & Hk & Ht & Hr). simpl in Hc, Ht.
      split; [exact Hc|]. exists (S k). simpl. split; [lia|].
      split; [now rewrite Ht, <- app_assoc|].
      destruct Hr as [[-> ->] | [Hm Hk1]]; [left; auto | right; split; [exact Hm | lia]].
Qed.

(** The insertion block, case by case. *)
Lemma insert_rows_cases (rows : list row) (st : state) (r : result unit)
  (st' : state) :
  insert_rows BATCH_SIZE w sql rows st = (r, st') ->
  conn_var st' = conn_var st /\
  exists tr,
    trace st' = (trace st ++ tr)%list /\
    (tr = [Cursor] /\ (exists msg, r = Failed (DatabaseError msg))
     \/ tr = [Cursor; CursorClose] /\ BATCH_SIZE = 0 /\ (exists e, r = Failed e)
     \/ (exists chunks k,
           chunk_iter rows BATCH_SIZE = Ret chunks /\
           (1 <= k <= List.length chunks)%nat /\
           tr = (Cursor :: map (ExecuteValues sql) (firstn k chunks)
                 ++ [CursorClose])%list /\
           exists e, r = Failed e)
     \/ (exists chunks,
           chunk_iter rows BATCH_SIZE = Ret chunks /\
           tr = insert_block sql chunks /\
           (r = Done tt \/ exists msg, r = Failed (DatabaseError msg)))).
Proof.
  intros H.
  unfold insert_rows, with_cursor in H.
  unfold io_bind at 1 in H. unfold db_call at 1 in H.
  destruct (db_fault w (trace st) Cursor) as [msg|].
  { injection H as <- <-. split; [reflexivity|]. exists [Cursor].
    split; [reflexivity|]. left. eauto. }
  unfold io_finally in H.
  set (st0 := mkstate (trace st ++ [Cursor])%list (conn_var st)) in H.
  unfold io_bind at 1 in H. unfold lift at 1 in H.
  destruct (chunk_iter rows BATCH_SIZE) as [chunks|e0] eqn:Ec.
  - unfold io_bind at 1 in H.
    destruct (for_each chunks _ st0) as [r1 st1] eqn:Ef.
    apply for_each_statements in Ef as (Hc1 & k & Hk & Ht1 & Hr1).
    simpl in Hc1, Ht1.
    destruct Hr1 as [[-> ->] | [[msg ->] Hk1]].
    + rewrite firstn_all in Ht1.
      unfold db_call in H. rewrite Ht1, Hc1 in H.
      destruct (db_fault w _ Commit) as [mc|];
        cbn [trace conn_var] in H;
        destruct (db_fault w _ CursorClose) as [mx|];
        injection H as <- <-;
        (split; [reflexivity|]);
        exists (insert_block sql chunks);
        (split; [unfold insert_block; simpl; now rewrite <- !app_assoc|]);
        right; right; right; exists chunks;
        (split; [reflexivity | split; [reflexivity | eauto]]).
    + unfold db_call in H. rewrite Ht1, Hc1 in H.
      destruct (db_fault w _ CursorClose) as [mx|];
        injection H as <- <-;
        (split; [reflexivity|]);
        exists (Cursor :: map (ExecuteValues sql) (firstn k chunks)
                ++ [CursorClose])%list;
        (split; [simpl; now rewrite <- !app_assoc|]);
        right; right; left; exists chunks, k;
        (split; [reflexivity | split; [lia | split; [reflexivity | eauto]]]).
  - assert (HB : BATCH_SIZE = 0).
    { unfold chunk_iter, py_range in Ec.
      destruct (Z.eqb_spec BATCH_SIZE 0); [assumption | discriminate]. }
    unfold db_call in H. cbn [trace conn_var st0] in H.
    destruct (db_fault w _ CursorClose) as [mx|];
      injection H as <- <-;
      (split; [reflexivity|]);
      exists [Cursor; CursorClose];
      (split; [now rewrite <- app_assoc|]);
      right; left; (split; [reflexivity | split; [exact HB | eauto]]).
Qed.


End InsertBlock.


(* ------------------------------------------------------------------------- *)
(** ** A loader from end to end *)

Section LoaderRuns.

Variable lim : N.
Variable dt : cell -> outcome datetime.
Variable BATCH_SIZE : Z.
Variable w : World.

Local Abbreviation loader := (load lim dt BATCH_SIZE w).

(** The events of a loader up to the insertion block. *)
Local Abbreviation preamble T csv_path n :=
  [Print (nl ++ "[" ++ table_name T ++ "] Reading: " ++ csv_path);
   ReadCsv csv_path;
   Print ("[" ++ table_name T ++ "] Rows prepared: " ++ str_of_nat n)].

(** What a normal return of a loader means. *)
Lemma load_done_cases (T : table) (conn : pyconn)
  (csv_path : string) (st st' : state) :
  loader T conn csv_path st = (Done tt, st') ->
  exists df rows chunks,
    read_csv w csv_path = Ret df /\
    missing_columns (required_fields T) df = [] /\
    collect (row_of lim dt T (columns df)) (records df) = Ret rows /\
    chunk_iter rows BATCH_SIZE = Ret chunks /\
    trace st'
    = (trace st ++ preamble T csv_path (List.length rows)
       ++ insert_block (sql_of T) chunks
       ++ [Print ("[" ++ table_name T ++ "] Insert complete.")])%list.
Proof.
  intros H. rewrite load_unfold in H. unfold print in H.
  rewrite io_bind_emit in H.
  destruct (read_csv w csv_path) as [df|e] eqn:Hread.
  2:{ unfold pd_read_csv, io_bind, emit, lift in H. simpl in H.
      rewrite Hread in H. discriminate. }
  rewrite (pd_read_csv_ret w _ _ _ _ Hread) in H. cbv zeta in H.
  destruct (missing_columns (required_fields T) df) as [|m ms] eqn:Hm.
  2:{ simpl in H. discriminate. }
  cbn [List.length Nat.eqb negb] in H.
  destruct (collect (row_of lim dt T (columns df)) (records df))
    as [rows|e] eqn:Hrows.
  2:{ unfold io_bind at 1 in H. unfold lift in H. discriminate. }
  rewrite (io_bind_lift_ret _ _ _ _ eq_refl), io_bind_emit in H.
  unfold io_bind at 1 in H.
  destruct (insert_rows BATCH_SIZE w (sql_of T) rows _) as [r1 st1] eqn:Ei.
  apply insert_rows_cases in Ei as (Hc & tr & Ht & Hcases).
  destruct r1 as [[]|e|c]; try discriminate.
  injection H as <-.
  destruct Hcases as [[_ [msg Hr]] | [(_ & _ & [e Hr]) |
                     [(chunks & k & _ & _ & _ & [e Hr]) | (chunks & Ec & -> & _)]]];
    try discriminate.
  exists df, rows, chunks. repeat split; try assumption.
  cbn [trace conn_var] in *. rewrite Ht. rewrite <- !app_assoc. reflexivity.
Qed.

(** X10. A loader returns normally only when everything went through: the
    file was read, no required field was missing, every record was mapped,
    the rows were sent in the chunks of the batcher, in order, and the
    commit was issued before the last line was printed.  For a batch size
    of at least 1 the chunks together are the mapped rows, each row once. *)
Theorem load_returns_after_commit (T : table) (conn : pyconn)
  (csv_path : string) (st st' : state) :
  loader T conn csv_path st = (Done tt, st') ->
  exists df rows chunks,
    read_csv w csv_path = Ret df /\
    missing_columns (required_fields T) df = [] /\
    collect (row_of lim dt T (columns df)) (records df) = Ret rows /\
    chunk_iter rows BATCH_SIZE = Ret chunks /\
    trace st'
    = (trace st ++ preamble T csv_path (List.length rows)
       ++ insert_block (sql_of T) chunks
       ++ [Print ("[" ++ table_name T ++ "] Insert complete.")])%list /\
    conn_var st' = conn_var st /\
    (1 <= BATCH_SIZE -> List.concat chunks = rows).
Proof.
  intros H.
  destruct (load_done_cases T conn csv_path st st' H)
    as (df & rows & chunks & Hread & Hm & Hrows & Ec & Ht).
  exists df, rows, chunks.
  split; [exact Hread|]. split; [exact Hm|]. split; [exact Hrows|].
  split; [exact Ec|]. split; [exact Ht|]. split.
  - exact (proj1 (load_behaves lim dt BATCH_SIZE w T conn csv_path _ _ _ H)).
  - intros HB. exact (chunk_iter_concat rows BATCH_SIZE chunks HB Ec).
Qed.

Lemma for_each_accepted (sql : insert) (chunks : list (list row)) :
  (forall tr op, db_fault w tr op = None) ->
  forall st,
    for_each chunks (fun chunk => db_call w (ExecuteValues sql chunk)) st
    = (Done tt,
       mkstate (trace st ++ map (ExecuteValues sql) chunks)%list (conn_var st)).
Proof.
  intros Hok. induction chunks as [|c chunks IH]; intros st; simpl.
  - rewrite app_nil_r. now destruct st.
  - unfold io_bind, db_call. rewrite Hok, IH. cbn [trace conn_var].
    now rewrite <- app_assoc.
Qed.

(** The insertion block on a database that accepts every call. *)
Lemma insert_rows_accepted (sql : insert) (rows : list row) (st : state) :
  (forall tr op, db_fault w tr op = None) ->
  insert_rows BATCH_SIZE w sql rows st
  = match chunk_iter rows BATCH_SIZE with
    | Ret chunks =>
        (Done tt,
         mkstate (trace st ++ insert_block sql chunks)%list (conn_var st))
    | Raise e =>
        (Failed e,
         mkstate (trace st ++ [Cursor; CursorClose])%list (conn_var st))
    end.
Proof.
  intros Hok. unfold insert_rows, with_cursor.
  unfold io_bind at 1. unfold db_call at 1. rewrite Hok.
  unfold io_finally. unfold io_bind at 1. unfold lift.
  destruct (chunk_iter rows BATCH_SIZE) as [chunks|e].
  - unfold io_bind at 1. rewrite (for_each_accepted sql chunks Hok).
    unfold db_call. rewrite !Hok. cbn [trace conn_var].
    unfold insert_block. simpl. now rewrite <- !app_assoc.
  - unfold db_call. rewrite Hok. cbn [trace conn_var].
    now rewrite <- app_assoc.
Qed.

(** A loader on a file with all required fields and a database that
    accepts every call. *)
Lemma load_accepted (T : table) (conn : pyconn) (csv_path : string)
  (df : DataFrame) (st : state) :
  read_csv w csv_path = Ret df ->
  missing_columns (required_fields T) df = [] ->
  (forall tr op, db_fault w tr op = None) ->
  exists rows,
    collect (row_of lim dt T (columns df)) (records df) = Ret rows /\
    List.length rows = List.length (records df) /\
    loader T conn csv_path st
    = match chunk_iter rows BATCH_SIZE with
      | Ret chunks =>
          (Done tt,
           mkstate (trace st ++ preamble T csv_path (List.length rows)
                    ++ insert_block (sql_of T) chunks
                    ++ [Print ("[" ++ table_name T ++ "] Insert complete.")])%list
             (conn_var st))
      | Raise e =>
          (Failed e,
           mkstate (trace st ++ preamble T csv_path (List.length rows)
                    ++ [Cursor; CursorClose])%list (conn_var st))
      end.
Proof.
  intros Hread Hm Hok.
  destruct (rows_ok lim dt T df Hm) as (rows & Hrows & Hlen).
  exists rows. split; [exact Hrows|]. split; [exact Hlen|].
  rewrite load_unfold. unfold print.
  rewrite io_bind_emit, (pd_read_csv_ret w _ _ _ _ Hread). cbv zeta.
  rewrite Hm. cbn [List.length Nat.eqb negb].
  rewrite (io_bind_lift_ret _ _ _ _ Hrows), io_bind_emit.
  unfold io_bind at 1. rewrite (insert_rows_accepted _ _ _ Hok).
  destruct (chunk_iter rows BATCH_SIZE) as [chunks|e].
  - unfold emit. cbn [trace conn_var]. now rewrite <- !app_assoc.
  - cbn [trace conn_var]. now rewrite <- !app_assoc.
Qed.

(** X11. A loader on a file with all required fields, a database that
    accepts every call and a batch size of at least 1: it returns normally
    after passing every mapped row exactly once, in file order, to
    [execute_values], in [ceil(rows / BATCH_SIZE)] calls of between 1 and
    [BATCH_SIZE] rows each, followed by one commit.  (The count is of the
    calls: into how many INSERT statements the library pages the rows of
    one call is not the loader's doing.) *)
Theorem load_inserts_all (T : table) (conn : pyconn) (csv_path : string)
  (df : DataFrame) (st : state) :
  read_csv w csv_path = Ret df ->
  missing_columns (required_fields T) df = [] ->
  (forall tr op, db_fault w tr op = None) ->
  1 <= BATCH_SIZE ->
  exists rows chunks,
    collect (row_of lim dt T (columns df)) (records df) = Ret rows /\
    List.length rows = List.length (records df) /\
    List.concat chunks = rows /\
    Z.of_nat (List.length chunks)
    = ceil_div (Z.of_nat (List.length rows)) BATCH_SIZE /\
    Forall (fun c => 1 <= Z.of_nat (List.length c) <= BATCH_SIZE) chunks /\
    loader T conn csv_path st
    = (Done tt,
       mkstate (trace st ++ preamble T csv_path (List.length rows)
                ++ insert_block (sql_of T) chunks
                ++ [Print ("[" ++ table_name T ++ "] Insert complete.")])%list
         (conn_var st)).
Proof.
  intros Hread Hm Hok HB.
  destruct (load_accepted T conn csv_path df st Hread Hm Hok)
    as (rows & Hrows & Hlen & Hload).
  pose proof (chunk_iter_chunks rows BATCH_SIZE HB) as Ec.
  rewrite Ec in Hload.
  eexists rows, _. split; [exact Hrows|]. split; [exact Hlen|].
  split; [exact (chunk_iter_concat rows BATCH_SIZE _ HB Ec)|].
  pose proof (ceil_div_bounds (Z.of_nat (List.length rows)) BATCH_SIZE
                ltac:(lia) HB) as Hb.
  split; [rewrite length_map, length_seq; lia|].
  split; [|exact Hload].
  apply Forall_forall. intros c Hc.
  apply in_map_iff in Hc as (j & <- & Hj). apply in_seq in Hj.
  rewrite chunk_at_length. nia.
Qed.

(** X12. The batch size at its edges, on a file with all required fields
    and a database that accepts every call.  With a negative batch size the
    loader sends no statement at all, however many rows it has prepared,
    and still commits and returns normally; with a batch size of 0 it
    raises [ValueError] after opening the cursor, without any statement and
    without a commit. *)
Theorem load_nonpositive_batch (T : table) (conn : pyconn)
  (csv_path : string) (df : DataFrame) (st : state) :
  read_csv w csv_path = Ret df ->
  missing_columns (required_fields T) df = [] ->
  (forall tr op, db_fault w tr op = None) ->
  BATCH_SIZE <= 0 ->
  loader T conn csv_path st
  = if BATCH_SIZE =? 0
    then (Failed (ValueError "range() arg 3 must not be zero"),
          mkstate (trace st
                   ++ preamble T csv_path (List.length (records df))
                   ++ [Cursor; CursorClose])%list (conn_var st))
    else (Done tt,
          mkstate (trace st
                   ++ preamble T csv_path (List.length (records df))
                   ++ [Cursor; Commit; CursorClose]
                   ++ [Print ("[" ++ table_name T ++ "] Insert complete.")])%list
            (conn_var st)).
Proof.
  intros Hread Hm Hok HB.
  destruct (load_accepted T conn csv_path df st Hread Hm Hok)
    as (rows & Hrows & Hlen & Hload).
  rewrite Hload, <- Hlen.
  destruct (Z.eqb_spec BATCH_SIZE 0) as [E|E].
  - subst BATCH_SIZE. now rewrite chunk_iter_zero.
  - now rewrite (chunk_iter_negative rows BATCH_SIZE ltac:(lia)).
Qed.

End LoaderRuns.

Lemma load_inserts_all_witness :
  exists rows chunks,
    collect (row_of 4300 sample_to_datetime GdprText (columns sample_gdpr_text))
      (records sample_gdpr_text) = Ret rows /\
    List.concat chunks = rows /\
    Z.of_nat (List.length chunks) = 2 /\
    fst (load 4300 sample_to_datetime 1 world_ok GdprText Connection
           "gdpr_text.csv" (mkstate [] None)) = Done tt.
Proof.
  destruct (load_inserts_all 4300 sample_to_datetime 1 world_ok GdprText
              Connection "gdpr_text.csv" sample_gdpr_text (mkstate [] None)
              eq_refl eq_refl (fun _ _ => eq_refl) ltac:(lia))
    as (rows & chunks & Hrows & Hlen & Hcat & Hn & _ & Hload).
  exists rows, chunks. split; [exact Hrows|]. split; [exact Hcat|].
  split; [|now rewrite Hload].
  rewrite Hn, Hlen. reflexivity.
Defined.

Lemma load_returns_after_commit_witness :
  exists chunks,
    database_calls
      (trace (snd (load 4300 sample_to_datetime 5000 world_ok GdprText
                     Connection "gdpr_text.csv" (mkstate [] None))))
    = insert_block (sql_of GdprText) chunks.
Proof.
  destruct (load_returns_after_commit 4300 sample_to_datetime 5000 world_ok
              GdprText Connection "gdpr_text.csv" (mkstate [] None) _
              (surjective_pairing _))
    as (df & rows & chunks & Hread & _ & Hrows & Ec & Ht & _).
  exists chunks. injection Hread as <-. injection Hrows as <-.
  injection Ec as <-. reflexivity.
Defined.

Lemma load_nonpositive_batch_witness :
  fst (load 4300 sample_to_datetime 0 world_ok GdprText Connection
         "gdpr_text.csv" (mkstate [] None))
  = Failed (ValueError "range() arg 3 must not be zero") /\
  database_calls
    (trace (snd (load 4300 sample_to_datetime (-1) world_ok GdprText Connection
                   "gdpr_text.csv" (mkstate [] None))))
  = [Cursor; Commit; CursorClose].
Proof.
  pose proof (load_nonpositive_batch 4300 sample_to_datetime 0 world_ok
                GdprText Connection "gdpr_text.csv" sample_gdpr_text
                (mkstate [] None) eq_refl eq_refl (fun _ _ => eq_refl)
                ltac:(lia)) as H0.
  pose proof (load_nonpositive_batch 4300 sample_to_datetime (-1) world_ok
                GdprText Connection "gdpr_text.csv" sample_gdpr_text
                (mkstate [] None) eq_refl eq_refl (fun _ _ => eq_refl)
                ltac:(lia)) as H1.
  split; [now rewrite H0 | now rewrite H1].
Defined.

(* ------------------------------------------------------------------------- *)
(** ** The run, whatever the database does *)

Lemma database_calls_app (a b : list event) :
  database_calls (a ++ b) = (database_calls a ++ database_calls b)%list.
Proof. apply filter_app. Qed.

Lemma database_calls_insert_block (sql : insert) (chunks : list (list row)) :
  database_calls (insert_block sql chunks) = insert_block sql chunks.
Proof.
  unfold insert_block, database_calls. simpl. f_equal.
  rewrite filter_app. simpl. f_equal.
  induction chunks as [|c chunks IH]; simpl; [reflexivity | now rewrite IH].
Qed.

Section RunMore.

Variable lim : N.
Variable dt : cell -> outcome datetime.
Variable DB_PARAMS : db_params.
Variable CSV_GDPR_TEXT CSV_GDPR_VIOLATIONS CSV_GDPR_DATASET : string.
Variable BATCH_SIZE : Z.
Variable w : World.

Local Abbreviation files :=
  [CSV_GDPR_TEXT; CSV_GDPR_VIOLATIONS; CSV_GDPR_DATASET].
Local Abbreviation try_block :=
  (main_try lim dt DB_PARAMS CSV_GDPR_TEXT CSV_GDPR_VIOLATIONS CSV_GDPR_DATASET
     BATCH_SIZE w).
Local Abbreviation the_run :=
  (run lim dt DB_PARAMS CSV_GDPR_TEXT CSV_GDPR_VIOLATIONS CSV_GDPR_DATASET
     BATCH_SIZE w).
Local Abbreviation loader := (load lim dt BATCH_SIZE w).
Local Abbreviation connecting :=
  (Print ("Connecting to Postgres " ++ host DB_PARAMS ++ ":" ++ port DB_PARAMS
          ++ " db=" ++ dbname DB_PARAMS ++ " ...")).
Local Abbreviation connected :=
  (mkstate [connecting; Connect DB_PARAMS; Print "Connected."]
     (Some Connection)).
Local Abbreviation error_line e :=
  (Print (nl ++ "An error occurred: " ++ exn_str e ++ nl)).

(** The [try] block once the connection is there: the three loaders in
    their order, then the last line. *)
Lemma try_block_connected :
  db_fault w [connecting] (Connect DB_PARAMS) = None ->
  try_block (mkstate [] None)
  = (loader GdprText Connection CSV_GDPR_TEXT ;;
     loader GdprViolationsDerived Connection CSV_GDPR_VIOLATIONS ;;
     loader GdprDataset Connection CSV_GDPR_DATASET ;;
     print (nl ++ "All inserts completed successfully." ++ nl))%io connected.
Proof.
  intros H. unfold main_try. unfold print at 1. rewrite io_bind_emit.
  unfold io_bind at 1. unfold db_call at 1. cbn [trace conn_var app].
  rewrite H. unfold io_bind at 1. unfold set_conn at 1.
  unfold print at 1. rewrite io_bind_emit. reflexivity.
Qed.

(** X13. The end of a run with all files present, whatever the [try] block
    and the database did.  A caught exception is printed and, when [conn]
    is bound, followed by the rollback; then the connection, when bound, is
    closed, also after a rollback that raised; the last line is printed
    unless the close raised.  The exit status is 1 exactly when the
    rollback or the close raised (their exception leaves [main]), and 0
    otherwise. *)
Theorem run_outcome (r : result unit) (st1 : state) :
  (forall p, In p files -> path_exists w p = true) ->
  try_block (mkstate [] None) = (r, st1) ->
  let bound := match conn_var st1 with Some _ => true | None => false end in
  let caught :=
    match r with
    | Failed e => error_line e :: (if bound then [Rollback] else [])
    | _ => []
    end in
  let rollback_raised :=
    match r with
    | Failed e =>
        if bound
        then match db_fault w (trace st1 ++ [error_line e]) Rollback with
             | Some _ => true
             | None => false
             end
        else false
    | _ => false
    end in
  let close_raised :=
    if bound
    then match db_fault w (trace st1 ++ caught) Close with
         | Some _ => true
         | None => false
         end
    else false in
  the_run
  = (if rollback_raised || close_raised then 1 else 0,
     trace st1 ++ caught
     ++ (if bound then [Close] else [])
     ++ (if close_raised then [] else [Print "Connection closed."]))%list.
Proof.
  intros Hall Htry. cbv zeta.
  destruct (main_try_conn _ _ _ _ _ _ _ _ r st1 Htry) as [Hexit _].
  rewrite (run_end lim dt DB_PARAMS CSV_GDPR_TEXT CSV_GDPR_VIOLATIONS CSV_GDPR_DATASET
             BATCH_SIZE w r st1 Hall Htry).
  destruct r as [[]|e|c]; [| |now elim (Hexit c)].
  - destruct (conn_var st1); cbn [orb app]; rewrite ?app_nil_r;
      [|reflexivity].
    now destruct (db_fault w (trace st1) Close).
  - destruct (conn_var st1); cbn [orb app]; [|reflexivity].
    replace (trace st1 ++ [error_line e; Rollback])%list
      with ((trace st1 ++ [error_line e]) ++ [Rollback])%list
      by (now rewrite <- app_assoc).
    destruct (db_fault w (trace st1 ++ [error_line e]) Rollback);
      destruct (db_fault w _ Close); cbn [orb];
      now rewrite <- ?app_assoc.
Qed.

(** X14. One transaction per table.  When the first table was loaded and
    the loader of the second raises, the [try] block ends with that
    exception; the commit of the first table has been issued before the
    rollback, which comes after it; and the third table is left alone: no
    statement for it, and its file (when it is another file) is not read. *)
Theorem commit_before_rollback (st1 st2 : state) (e : exn) :
  (forall p, In p files -> path_exists w p = true) ->
  db_fault w [connecting] (Connect DB_PARAMS) = None ->
  loader GdprText Connection CSV_GDPR_TEXT connected = (Done tt, st1) ->
  loader GdprViolationsDerived Connection CSV_GDPR_VIOLATIONS st1
  = (Failed e, st2) ->
  try_block (mkstate [] None) = (Failed e, st2) /\
  (exists before between after,
     snd the_run
     = (before ++ Commit :: between ++ error_line e :: Rollback :: after)%list) /\
  (forall rows, ~ In (ExecuteValues (sql_of GdprDataset) rows) (snd the_run)) /\
  (CSV_GDPR_DATASET <> CSV_GDPR_TEXT ->
   CSV_GDPR_DATASET <> CSV_GDPR_VIOLATIONS ->
   ~ In (ReadCsv CSV_GDPR_DATASET) (snd the_run)).
Proof.
  intros Hall Hconn H1 H2.
  assert (Htry : try_block (mkstate [] None) = (Failed e, st2)).
  { rewrite (try_block_connected Hconn).
    unfold io_bind at 1. rewrite H1. unfold io_bind at 1. now rewrite H2. }
  destruct (load_behaves lim dt BATCH_SIZE w _ _ _ _ _ _ H1) as [Hc1 _].
  destruct (load_behaves lim dt BATCH_SIZE w _ _ _ _ _ _ H2) as [Hc2 _].
  assert (Hbound : conn_var st2 = Some Connection)
    by (rewrite Hc2, Hc1; reflexivity).
  destruct (load_done_cases lim dt BATCH_SIZE w _ _ _ _ _ H1)
    as (df & rows & chunks & _ & _ & _ & _ & Ht1).
  destruct (load_emits lim dt BATCH_SIZE w _ _ _ _ _ _ H1)
    as (tr1 & Hx1 & Hq1).
  destruct (load_emits lim dt BATCH_SIZE w _ _ _ _ _ _ H2)
    as (tr2 & Ht2 & Hq2).
  pose proof (run_end lim dt DB_PARAMS CSV_GDPR_TEXT CSV_GDPR_VIOLATIONS CSV_GDPR_DATASET
             BATCH_SIZE w (Failed e) st2 Hall Htry) as Hrun.
  rewrite Hbound in Hrun.
  assert (Hsnd : exists tail,
             snd the_run = (trace st2 ++ error_line e :: Rollback :: tail)%list
             /\ Forall (fun x => x = Close \/ exists l, x = Print l) tail).
  { destruct (db_fault w (trace st2 ++ [error_line e]) Rollback);
      destruct (db_fault w (trace st2 ++ [error_line e; Rollback]) Close);
      rewrite Hrun; cbn [snd]; eexists; (split; [reflexivity|]);
      repeat (apply Forall_cons;
              [first [now left | right; eexists; reflexivity]|]);
      apply Forall_nil. }
  destruct Hsnd as (tail & Hsnd & Htail).
  split; [exact Htry|]. split; [|split].
  - exists (trace connected
            ++ [Print (nl ++ "[" ++ table_name GdprText ++ "] Reading: "
                       ++ CSV_GDPR_TEXT);
                ReadCsv CSV_GDPR_TEXT;
                Print ("[" ++ table_name GdprText ++ "] Rows prepared: "
                       ++ str_of_nat (List.length rows))]
            ++ Cursor :: map (ExecuteValues (sql_of GdprText)) chunks)%list,
      ([CursorClose;
        Print ("[" ++ table_name GdprText ++ "] Insert complete.")]
       ++ tr2)%list, tail.
    rewrite Hsnd, Ht2, Ht1. unfold insert_block.
    rewrite <- !app_assoc. simpl. rewrite <- !app_assoc. reflexivity.
  - intros rws Hin. rewrite Hsnd, Ht2, Hx1 in Hin.
    rewrite Forall_forall in Hq1, Hq2, Htail.
    apply in_app_or in Hin as [Hin|Hin];
      [apply in_app_or in Hin as [Hin|Hin];
       [apply in_app_or in Hin as [Hin|Hin]|]|].
    + simpl in Hin. repeat (destruct Hin as [Hin|Hin]; [discriminate|]).
      exact Hin.
    + apply Hq1 in Hin. simpl in Hin. discriminate.
    + apply Hq2 in Hin. simpl in Hin. discriminate.
    + simpl in Hin. destruct Hin as [Hin|[Hin|Hin]]; try discriminate.
      apply Htail in Hin as [Hin | [l Hin]]; discriminate.
  - intros Hn1 Hn2 Hin. rewrite Hsnd, Ht2, Hx1 in Hin.
    rewrite Forall_forall in Hq1, Hq2, Htail.
    apply in_app_or in Hin as [Hin|Hin];
      [apply in_app_or in Hin as [Hin|Hin];
       [apply in_app_or in Hin as [Hin|Hin]|]|].
    + simpl in Hin. repeat (destruct Hin as [Hin|Hin]; [discriminate|]).
      exact Hin.
    + apply Hq1 in Hin. simpl in Hin. contradiction.
    + apply Hq2 in Hin. simpl in Hin. contradiction.
    + simpl in Hin. destruct Hin as [Hin|[Hin|Hin]]; try discriminate.
      apply Htail in Hin as [Hin | [l Hin]]; discriminate.
Qed.

(** X15. A run in which everything goes through: all files present, every
    required field in each header, a database that accepts every call and
    a batch size of at least 1.  The exit status is 0 and the database sees
    the connect, then for each table in the order gdpr_text, violations,
    dataset one block (cursor, the statements that hold the mapped rows of
    that table in order, commit, cursor close), then the close. *)
Theorem run_all_loaded (df1 df2 df3 : DataFrame) :
  (forall p, In p files -> path_exists w p = true) ->
  (forall tr op, db_fault w tr op = None) ->
  1 <= BATCH_SIZE ->
  read_csv w CSV_GDPR_TEXT = Ret df1 ->
  read_csv w CSV_GDPR_VIOLATIONS = Ret df2 ->
  read_csv w CSV_GDPR_DATASET = Ret df3 ->
  missing_columns (required_fields GdprText) df1 = [] ->
  missing_columns (required_fields GdprViolationsDerived) df2 = [] ->
  missing_columns (required_fields GdprDataset) df3 = [] ->
  exists rows1 rows2 rows3 chunks1 chunks2 chunks3,
    collect (row_of lim dt GdprText (columns df1)) (records df1) = Ret rows1 /\
    collect (row_of lim dt GdprViolationsDerived (columns df2)) (records df2)
    = Ret rows2 /\
    collect (row_of lim dt GdprDataset (columns df3)) (records df3) = Ret rows3 /\
    List.concat chunks1 = rows1 /\ List.concat chunks2 = rows2 /\
    List.concat chunks3 = rows3 /\
    fst the_run = 0 /\
    database_calls (snd the_run)
    = (Connect DB_PARAMS
       :: insert_block (sql_of GdprText) chunks1
       ++ insert_block (sql_of GdprViolationsDerived) chunks2
       ++ insert_block (sql_of GdprDataset) chunks3
       ++ [Close])%list.
Proof.
  intros Hall Hok HB R1 R2 R3 M1 M2 M3.
  pose proof (fun T c p df st Hr Hm =>
                load_accepted lim dt BATCH_SIZE w T c p df st Hr Hm Hok) as L.
  destruct (L GdprText Connection _ df1 connected R1 M1)
    as (rows1 & C1 & _ & E1).
  rewrite (chunk_iter_chunks rows1 BATCH_SIZE HB) in E1.
  set (chunks1 := map _ _) in E1.
  match type of E1 with _ = (_, ?s) => set (s1 := s) in E1 end.
  destruct (L GdprViolationsDerived Connection _ df2 s1 R2 M2)
    as (rows2 & C2 & _ & E2).
  rewrite (chunk_iter_chunks rows2 BATCH_SIZE HB) in E2.
  set (chunks2 := map _ _) in E2.
  match type of E2 with _ = (_, ?s) => set (s2 := s) in E2 end.
  destruct (L GdprDataset Connection _ df3 s2 R3 M3)
    as (rows3 & C3 & _ & E3).
  rewrite (chunk_iter_chunks rows3 BATCH_SIZE HB) in E3.
  set (chunks3 := map _ _) in E3.
  match type of E3 with _ = (_, ?s) => set (s3 := s) in E3 end.
  exists rows1, rows2, rows3, chunks1, chunks2, chunks3.
  split; [exact C1|]. split; [exact C2|]. split; [exact C3|].
  split; [exact (chunk_iter_concat rows1 BATCH_SIZE _ HB
                   (chunk_iter_chunks rows1 BATCH_SIZE HB))|].
  split; [exact (chunk_iter_concat rows2 BATCH_SIZE _ HB
                   (chunk_iter_chunks rows2 BATCH_SIZE HB))|].
  split; [exact (chunk_iter_concat rows3 BATCH_SIZE _ HB
                   (chunk_iter_chunks rows3 BATCH_SIZE HB))|].
  assert (Htry : try_block (mkstate [] None)
                 = (Done tt,
                    mkstate (trace s3
                             ++ [Print (nl ++ "All inserts completed successfully."
                                        ++ nl)])%list (conn_var s3))).
  { rewrite (try_block_connected (Hok _ _)).
    unfold io_bind at 1. rewrite E1. unfold io_bind at 1. rewrite E2.
    unfold io_bind at 1. rewrite E3. reflexivity. }
  rewrite (run_end lim dt DB_PARAMS CSV_GDPR_TEXT CSV_GDPR_VIOLATIONS CSV_GDPR_DATASET
             BATCH_SIZE w _ _ Hall Htry).
  cbn [conn_var s3 s2 s1].
  rewrite Hok. cbn [fst snd trace]. split; [reflexivity|].
  unfold s3, s2, s1. cbn [trace conn_var].
  rewrite !database_calls_app, !database_calls_insert_block.
  unfold insert_block. simpl. rewrite ?app_nil_r.
  do 3 (rewrite <- ?app_assoc; simpl). reflexivity.
Qed.

End RunMore.

Lemma commit_before_rollback_witness :
  exists before between after,
    snd (sample_run world_second_table_fails)
    = (before ++ Commit :: between
       ++ Print (nl ++ "An error occurred: "
                 ++ "value too long for type character varying(10)" ++ nl)
       :: Rollback :: after)%list.
Proof.
  exact (proj1 (proj2
    (commit_before_rollback 4300 sample_to_datetime sample_params
       "gdpr_text.csv" "violations.csv" "GDPRdataset.csv" 5000
       world_second_table_fails _ _
       (DatabaseError "value too long for type character varying(10)")
       (fun _ _ => eq_refl) eq_refl
       (surjective_pairing _) (surjective_pairing _)))).
Defined.

Lemma run_all_loaded_witness :
  fst (sample_run world_ok) = 0.
Proof.
  destruct (run_all_loaded 4300 sample_to_datetime sample_params
              "gdpr_text.csv" "violations.csv" "GDPRdataset.csv" 5000 world_ok
              sample_gdpr_text sample_violations empty_dataset
              (fun _ _ => eq_refl) (fun _ _ => eq_refl) ltac:(lia)
              eq_refl eq_refl eq_refl eq_refl eq_refl eq_refl)
    as (r1 & r2 & r3 & c1 & c2 & c3 & _ & _ & _ & _ & _ & _ & H & _).
  exact H.
Defined.

Lemma run_outcome_witness :
  sample_run world_broken
  = (1,
     [Print "Connecting to Postgres localhost:5432 db=capstone ...";
      Connect sample_params; Print "Connected.";
      Print (nl ++ "[gdpr_text] Reading: gdpr_text.csv");
      ReadCsv "gdpr_text.csv"; Print "[gdpr_text] Rows prepared: 2";
      Cursor;
      ExecuteValues (sql_of GdprText)
        [ [VInt 1; VStr "General provisions"; VInt 1; VStr "Subject-matter";
           VStr "1"; VStr "This Regulation lays down rules.";
           VStr "http://a/1"];
          [VInt 1; VStr "General provisions"; VInt 2; VStr "Material scope";
           VStr EmptyString; VStr "This Regulation applies.";
           VStr "http://a/2"] ];
      CursorClose;
      Print (nl ++ "An error occurred: server closed the connection unexpectedly"
             ++ nl);
      Rollback; Close; Print "Connection closed."]).
Proof.
  exact (run_outcome 4300 sample_to_datetime sample_params
           "gdpr_text.csv" "violations.csv" "GDPRdataset.csv" 5000 world_broken
           _ _ (fun _ _ => eq_refl) (surjective_pairing _)).
Defined.

(* ------------------------------------------------------------------------- *)
(** ** Signed amounts *)

(** X16. [to_numeric] keeps a leading sign: commas and outer whitespace
    removed, a minus or plus in front of a numeral [ip.fp] gives the decimal
    with that sign, the digits [ipfp] as coefficient and minus the number of
    fraction digits as exponent, so a negative amount is read exactly. *)
Theorem to_numeric_signed (s ip fp : string) (neg : bool) :
  all_digits ip = true -> all_digits fp = true -> ip ++ fp <> EmptyString ->
  strip (remove_char "," s) = (if neg then "-" else "+") ++ ip ++ "." ++ fp ->
  to_numeric (Str s)
  = Ret (VDecimal (DFinite neg (digits_value (ip ++ fp) 0)
                     (- Z.of_nat (String.length fp)))).
Proof.
  intros Hi Hf Hne E. rewrite to_numeric_str, E. clear E.
  unfold py_Decimal.
  assert (Hns : no_space ((if neg then "-" else "+") ++ ip ++ "." ++ fp) = true).
  { apply no_space_app; [now destruct neg|].
    apply no_space_app; [now apply all_digits_no_space|].
    simpl. now apply all_digits_no_space. }
  rewrite (no_space_strip _ Hns).
  assert (Hsplit : split_sign
                     (remove_char "_"
                        ((if neg then "-" else "+") ++ ip ++ "." ++ fp))
                   = (neg, ip ++ String "." fp)).
  { rewrite !remove_char_app, (remove_underscore_digits ip Hi),
      (remove_underscore_digits fp Hf).
    now destruct neg. }
  rewrite Hsplit.
  assert (Hhead : exists c t, ip ++ String "." fp = String c t
                              /\ (isdigit c = true \/ c = "."%char)).
  { destruct ip as [|c t]; simpl.
    - exists "."%char, fp. split; [reflexivity | now right].
    - simpl in Hi. apply andb_true_iff in Hi as [Hc _].
      exists c, (t ++ String "." fp). split; [reflexivity | now left]. }
  destruct Hhead as (c & t & Ec & Hc).
  destruct (numeral_head c t Hc) as (_ & H2 & H3 & H4 & H5).
  rewrite Ec, H2, H3, H4, H5. simpl orb. cbv iota. rewrite <- Ec.
  unfold parse_number.
  rewrite (span_digits_app ip "." fp Hi eq_refl).
  rewrite (span_digits_all fp Hf).
  destruct (ip ++ fp) eqn:Hipfp; [congruence|]. simpl is_empty. cbv iota.
  simpl parse_exponent. cbv iota zeta. simpl is_empty. simpl orb. cbv iota.
  now rewrite Z.sub_0_l.
Qed.

Lemma to_numeric_signed_witness :
  to_numeric (Str " -1,250.75 ")
  = Ret (VDecimal (DFinite true 125075 (-2))).
Proof.
  refine (to_numeric_signed " -1,250.75 " "1250" "75" true eq_refl eq_refl _
            eq_refl).
  discriminate.
Defined.

(* ------------------------------------------------------------------------- *)
(** ** The settings of the script *)

Lemma skip_leading_all_space (s : string) :
  all_int_space s = true -> skip_leading s = EmptyString.
Proof.
  induction s as [|c t IH]; simpl; [reflexivity|].
  intros H; apply andb_true_iff in H as [Hc Ht]. now rewrite Hc; apply IH.
Qed.

Lemma skip_trailing_all_space (s : string) :
  all_int_space s = true -> skip_trailing s = EmptyString.
Proof.
  induction s as [|c t IH]; simpl; [reflexivity|].
  intros H; apply andb_true_iff in H as [Hc Ht]. now rewrite (IH Ht), Hc.
Qed.

Lemma skip_trailing_empty (s : string) :
  skip_trailing s = EmptyString -> all_int_space s = true.
Proof.
  induction s as [|c t IH]; simpl; [reflexivity|].
  destruct (skip_trailing t) eqn:E; [|discriminate].
  destruct (int_space c); [|discriminate]. intros _. now apply IH.
Qed.

Lemma skip_leading_app_space (a s : string) :
  all_int_space a = true -> skip_leading (a ++ s) = skip_leading s.
Proof.
  induction a as [|c a IH]; simpl; [reflexivity|].
  intros H; apply andb_true_iff in H as [Hc Ha]. now rewrite Hc; apply IH.
Qed.

Lemma skip_trailing_app_space (s b : string) :
  all_int_space b = true -> skip_trailing (s ++ b) = skip_trailing s.
Proof.
  intros Hb. induction s as [|c t IH]; simpl.
  - now apply skip_trailing_all_space.
  - now rewrite IH.
Qed.

Lemma skip_leading_decompose (s : string) :
  exists a, s = a ++ skip_leading s /\ all_int_space a = true.
Proof.
  induction s as [|c t [a [E Ha]]]; simpl.
  - exists EmptyString. split; reflexivity.
  - destruct (int_space c) eqn:Hc.
    + exists (String c a). simpl. rewrite Hc, Ha.
      split; [now rewrite <- E | reflexivity].
    + exists EmptyString. split; reflexivity.
Qed.

Lemma skip_trailing_decompose (s : string) :
  exists b, s = skip_trailing s ++ b /\ all_int_space b = true.
Proof.
  induction s as [|c t [b [E Hb]]]; simpl.
  - exists EmptyString. split; reflexivity.
  - destruct (skip_trailing t) as [|c' t'] eqn:Er.
    + destruct (int_space c) eqn:Hc.
      * exists (String c t). simpl. rewrite Hc. split; [reflexivity|].
        now apply skip_trailing_empty.
      * exists b. simpl in *. split; [congruence | assumption].
    + exists b. simpl in *. split; [congruence | assumption].
Qed.

Lemma all_int_space_all_space (s : string) :
  all_int_space s = true -> all_space s = true.
Proof.
  induction s as [|c t IH]; simpl; [reflexivity|].
  intros H; apply andb_true_iff in H as [Hc Ht].
  now rewrite (int_space_isspace c Hc), IH.
Qed.

Lemma int_char_not_space (c : ascii) :
  int_char c = true -> isspace c = false.
Proof.
  destruct c as [[] [] [] [] [] [] [] []]; vm_compute; congruence.
Qed.

Lemma all_int_chars_no_space (s : string) :
  all_int_chars s = true -> no_space s = true.
Proof.
  induction s as [|c t IH]; simpl; [reflexivity|].
  intros H; apply andb_true_iff in H as [Hc Ht].
  now rewrite (int_char_not_space c Hc), IH.
Qed.

Lemma all_int_chars_In (s : string) (c : ascii) :
  all_int_chars s = true -> In c (list_ascii_of_string s) -> int_char c = true.
Proof.
  induction s as [|x t IH]; simpl; [contradiction|].
  intros H; apply andb_true_iff in H as [Hx Ht].
  intros [<- | Hin]; [exact Hx | now apply IH].
Qed.

Lemma all_int_space_In (s : string) (c : ascii) :
  all_int_space s = true -> In c (list_ascii_of_string s) -> int_space c = true.
Proof.
  induction s as [|x t IH]; simpl; [contradiction|].
  intros H; apply andb_true_iff in H as [Hx Ht].
  intros [<- | Hin]; [exact Hx | now apply IH].
Qed.

Lemma In_append (a b : string) (c : ascii) :
  In c (list_ascii_of_string (a ++ b)) ->
  In c (list_ascii_of_string a) \/ In c (list_ascii_of_string b).
Proof.
  induction a as [|x a IH]; simpl; [now right|].
  intros [<- | H]; [now left; left|].
  destruct (IH H); [left; now right | now right].
Qed.

(** Whitespace of [int]'s class around a literal is skipped. *)
Lemma py_int_pad (lim : N) (a s b : string) :
  all_int_space a = true -> all_int_space b = true -> no_space s = true ->
  py_int lim (a ++ s ++ b) = py_int lim s.
Proof.
  intros Ha Hb Hs. unfold py_int.
  rewrite (skip_leading_app_space a _ Ha), (skip_no_space s Hs).
  destruct s as [|c t].
  - simpl. now rewrite (skip_leading_all_space b Hb).
  - assert (E : skip_leading (String c t ++ b) = String c t ++ b).
    { simpl in *. apply andb_true_iff in Hs as [Hc _].
      apply negb_true_iff in Hc. destruct (int_space c) eqn:Hi; [|reflexivity].
      apply int_space_isspace in Hi. congruence. }
    rewrite E, (skip_trailing_app_space _ b Hb).
    now rewrite (skip_trailing_fixed _ (no_space_rstrip _ Hs)).
Qed.

Lemma str_of_Z_no_space (z : Z) : no_space (str_of_Z z) = true.
Proof.
  destruct (str_of_Z_abs_digits z) as (Hd & _ & _).
  rewrite str_of_Z_abs. apply no_space_app.
  - now destruct (z <? 0).
  - now apply all_digits_no_space.
Qed.

Lemma py_int_str_of_Z (lim : N) (z : Z) :
  exceeds_max_str_digits lim (num_digits z) = false ->
  py_int lim (str_of_Z z) = Ret z.
Proof.
  intros Hlim. destruct (str_of_Z_abs_digits z) as (Hd & Hne & Hv).
  rewrite str_of_Z_abs, (py_int_literal lim (z <? 0) _ Hd Hne Hlim), Hv.
  f_equal. destruct (Z.ltb_spec z 0); lia.
Qed.

(** What [int] accepts: between whitespace of its own class, a non-empty
    string of digits, underscores and signs, which is also what [str.strip]
    leaves of the string. *)
Lemma py_int_chars (lim : N) (s : string) (n : Z) :
  py_int lim s = Ret n ->
  all_int_chars (strip s) = true /\ strip s <> EmptyString /\
  forall c, In c (list_ascii_of_string s) ->
            int_char c = true \/ int_space c = true.
Proof.
  unfold py_int. intros H.
  set (t := skip_trailing (skip_leading s)) in *.
  assert (Hc : all_int_chars t = true).
  { destruct (split_sign t) as [neg body] eqn:Es.
    destruct (scan_int body true 0 0) as [[v nd]|] eqn:E; [|discriminate].
    apply scan_int_chars in E. apply split_sign_chars. now rewrite Es. }
  assert (Hne : t <> EmptyString).
  { intros Ht. rewrite Ht in H. discriminate. }
  destruct (skip_leading_decompose s) as [a [Ea Ha]].
  destruct (skip_trailing_decompose (skip_leading s)) as [b [Eb Hb]].
  fold t in Eb. rewrite Eb in Ea.
  assert (Hst : strip s = t).
  { rewrite Ea. apply strip_sandwich;
      [now apply all_int_space_all_space | now apply all_int_space_all_space
      | now apply all_int_chars_no_space]. }
  rewrite Hst. split; [exact Hc|]. split; [exact Hne|].
  intros c Hin. rewrite Ea in Hin.
  apply In_append in Hin as [Hin|Hin].
  - right. now apply (all_int_space_In a).
  - apply In_append in Hin as [Hin|Hin].
    + left. now apply (all_int_chars_In t).
    + right. now apply (all_int_space_In b).
Qed.

(** X17. The batch size of the script is [int] of the environment variable
    [BATCH_SIZE], given to [int] as it is: 5000 when the variable is unset,
    [z] when it holds the numeral of [z], within the interpreter's limit on
    digits, with or without whitespace of [int]'s class around it.  When
    the variable is empty or blank, or holds a character that is neither of
    an integer literal (digit, underscore, sign) nor whitespace that [int]
    skips (a letter, a point, one of the separators 28 to 31), or holds
    whitespace inside the literal, the script ends with status 1 at its
    top, before [main]: nothing is printed, no file is looked at and no
    connection is opened. *)
Theorem batch_size_setting (lim : N) (environ : string -> option string) :
  (environ "BATCH_SIZE" = None ->
   exists s, read_settings lim environ = Ret s /\ the_BATCH_SIZE s = 5000) /\
  (forall a b z,
     all_int_space a = true -> all_int_space b = true ->
     exceeds_max_str_digits lim (num_digits z) = false ->
     environ "BATCH_SIZE" = Some (a ++ str_of_Z z ++ b) ->
     exists s, read_settings lim environ = Ret s /\ the_BATCH_SIZE s = z) /\
  (forall v,
     environ "BATCH_SIZE" = Some v ->
     all_int_chars (strip v) = false \/ strip v = EmptyString \/
     (exists c, In c (list_ascii_of_string v) /\
                int_char c = false /\ int_space c = false) ->
     forall dt w, script lim dt environ w = (1, [])).
Proof.
  split; [|split].
  - intros H. unfold read_settings, os_getenv. rewrite H.
    eexists. split; reflexivity.
  - intros a b z Ha Hb Hlim H. unfold read_settings, os_getenv. rewrite H.
    rewrite (py_int_pad lim a _ b Ha Hb (str_of_Z_no_space z)),
      (py_int_str_of_Z lim z Hlim).
    eexists. split; reflexivity.
  - intros v H Hbad dt w. unfold script, read_settings, os_getenv.
    rewrite H.
    destruct (py_int lim v) as [n|e] eqn:E; [|reflexivity].
    apply py_int_chars in E as (Hc & Hne & Hin).
    destruct Hbad as [Hbad|[Hbad|(c & Hv & Hi & Hs)]]; [congruence ..|].
    destruct (Hin c Hv); congruence.
Qed.

Lemma batch_size_setting_witness :
  (exists s,
     read_settings 4300
       (fun k => if String.eqb k "BATCH_SIZE" then Some " 250 " else None)
     = Ret s /\ the_BATCH_SIZE s = 250) /\
  script 4300 sample_to_datetime
    (fun k => if String.eqb k "BATCH_SIZE" then Some "5k" else None) world_ok
  = (1, []) /\
  script 4300 sample_to_datetime
    (fun k => if String.eqb k "BATCH_SIZE"
              then Some (String (ascii_of_nat 28) "5") else None) world_ok
  = (1, []).
Proof.
  split; [|split].
  - exact (proj1 (proj2 (batch_size_setting 4300
             (fun k => if String.eqb k "BATCH_SIZE" then Some " 250 " else None)))
             " " " " 250 eq_refl eq_refl eq_refl eq_refl).
  - exact (proj2 (proj2 (batch_size_setting 4300
             (fun k => if String.eqb k "BATCH_SIZE" then Some "5k" else None)))
             "5k" eq_refl (or_introl eq_refl) sample_to_datetime world_ok).
  - refine (proj2 (proj2 (batch_size_setting 4300
             (fun k => if String.eqb k "BATCH_SIZE"
                       then Some (String (ascii_of_nat 28) "5") else None)))
             (String (ascii_of_nat 28) "5") eq_refl _
             sample_to_datetime world_ok).
    right. right. exists (ascii_of_nat 28).
    split; [now left | split; reflexivity].
Defined.
